(** * Edge CDN proxy worker: shallow embedding and verified properties

    The worker (worker-cdn.js) answers three kinds of requests: CORS
    preflights, cache purges, and proxied reads from an S3-compatible
    bucket.  This development embeds its request pipeline as Rocq
    functions and proves the properties its specification states.  The
    Node server (server.js) that runs the worker outside the edge platform
    is embedded with it.

    Conventions.
    - A JavaScript string is a [string]: a sequence of code units below
      256, which for the URL paths, host names and header names handled
      here are ASCII.  [TextEncoder.encode] is then the identity on code
      units.
    - A [Headers] object is a finite map from lower-cased names to values.
    - The platform (WHATWG URL parser, SubtleCrypto, JSON.parse, regular
      expressions outside the modelled fragment) is a type class; theorems
      hold for every instance.
    - Effects (clock, outbound fetches, exceptions) are the nodes of an
      inductive interaction tree. *)

From Stdlib Require Import String Ascii List ZArith Lia Bool.
From Stdlib.Strings Require Import Byte.
From stdpp Require Import base option list strings gmap fin_maps.

Local Open Scope string_scope.
Local Open Scope list_scope.

Set Implicit Arguments.
Set Warnings "-register-all".

(** ** Strings as the worker's code uses them *)

Module JSString.

(** [s.toLowerCase()] on ASCII code units. *)
Definition lower_ascii (c : ascii) : ascii :=
  let n := nat_of_ascii c in
  if (65 <=? n)%nat && (n <=? 90)%nat then ascii_of_nat (n + 32) else c.

Fixpoint toLowerCase (s : string) : string :=
  match s with
  | EmptyString => EmptyString
  | String c r => String (lower_ascii c) (toLowerCase r)
  end.

(** [s.endsWith(t)], used in statements only. *)
Definition ends_with (s t : string) : Prop := exists pre, s = pre +:+ t.

(** White space removed by [String.prototype.trim]: among the code units
    below 256, the tab, the line feed, the vertical tab, the form feed, the
    carriage return, the space and the no-break space U+00A0. *)
Definition is_js_space (c : ascii) : bool :=
  let n := nat_of_ascii c in
  ((9 <=? n)%nat && (n <=? 13)%nat) || (n =? 32)%nat || (n =? 160)%nat.

Fixpoint trimStart (s : string) : string :=
  match s with
  | String c r => if is_js_space c then trimStart r else s
  | EmptyString => EmptyString
  end.

(** Drops trailing white space: a character is kept when it is not a
    space or when something is kept after it. *)
Fixpoint trimEnd (s : string) : string :=
  match s with
  | EmptyString => EmptyString
  | String c r =>
      match trimEnd r with
      | EmptyString => if is_js_space c then EmptyString else String c EmptyString
      | r' => String c r'
      end
  end.

Definition trim (s : string) : string := trimEnd (trimStart s).

(** [s.split(sep)] for a one-character separator. *)
Fixpoint split_on (sep : ascii) (s : string) : list string :=
  match s with
  | EmptyString => [EmptyString]
  | String c r =>
      if Ascii.eqb c sep then EmptyString :: split_on sep r
      else match split_on sep r with
           | [] => [String c EmptyString]
           | w :: ws => String c w :: ws
           end
  end.

(** [s.substring(0, n)] and [s.substring(n)]. *)
Fixpoint take (n : nat) (s : string) : string :=
  match n, s with
  | S n', String c r => String c (take n' r)
  | _, _ => EmptyString
  end.

Fixpoint drop (n : nat) (s : string) : string :=
  match n, s with
  | S n', String _ r => drop n' r
  | _, _ => s
  end.

(** [s.includes(t)]. *)
Fixpoint includes (s t : string) : bool :=
  String.prefix t s ||
  match s with
  | EmptyString => false
  | String _ r => includes r t
  end.

(** JavaScript truthiness of a string. *)
Definition truthy (s : string) : bool := negb (String.eqb s EmptyString).

(** Truthiness of a value that is a string or [undefined]/[null]. *)
Definition truthy_opt (o : option string) : bool :=
  match o with Some s => truthy s | None => false end.

(** Template-literal interpolation of a value that may be [undefined]. *)
Definition interpolate (o : option string) : string :=
  match o with Some s => s | None => "undefined" end.

End JSString.

Import JSString.

(** ** Regular expressions

    The worker builds one [RegExp] per allowed domain from a pattern
    string and uses three regular-expression literals.  The fragment
    modelled here covers literals, escaped punctuation, [.], [^], [$],
    alternation, groups, character sets and the greedy quantifiers; the
    matcher is the backtracking matcher of ECMA-262 (a matcher takes a
    state and a continuation), restricted to what [test], [match] and
    [replace] observe. *)

Module Regex.

Inductive regex : Type :=
| Empty                                     (* the empty pattern *)
| Chr (c : ascii)                           (* a pattern character *)
| AnyChar                                   (* [.] *)
| CharSet (negated : bool) (ranges : list (ascii * ascii))  (* [[...]] *)
| Bol                                       (* [^] *)
| Eol                                       (* [$] *)
| Seq (r1 r2 : regex)
| Alt (r1 r2 : regex)
| Star (r : regex)
| Plus (r : regex)
| Opt (r : regex).

(** A match state: whether the position is index 0, and the input that
    remains to its right. *)
Record state : Type := State { at_start : bool; rest : string }.

Definition Continuation : Type := state -> option state.
Definition Matcher : Type := state -> Continuation -> option state.

Definition is_line_terminator (c : ascii) : bool :=
  let n := nat_of_ascii c in (n =? 10)%nat || (n =? 13)%nat.

Definition in_range (c : ascii) (rg : ascii * ascii) : bool :=
  (nat_of_ascii (fst rg) <=? nat_of_ascii c)%nat &&
  (nat_of_ascii c <=? nat_of_ascii (snd rg))%nat.

(** Consume one character satisfying [p]. *)
Definition char_matcher (p : ascii -> bool) : Matcher :=
  fun x k =>
    match rest x with
    | String c r => if p c then k (State false r) else None
    | EmptyString => None
    end.

(** RepeatMatcher of ECMA-262 with min 0 and no max: an iteration that
    consumes nothing is rejected, so the remaining length strictly
    decreases and bounds the number of iterations. *)
Fixpoint repeat_matcher (fuel : nat) (m : Matcher) : Matcher :=
  fun x k =>
    match fuel with
    | O => k x
    | S fuel' =>
        match m x (fun y =>
                     if (String.length (rest y) <? String.length (rest x))%nat
                     then repeat_matcher fuel' m y k else None) with
        | Some z => Some z
        | None => k x
        end
    end.

Fixpoint matcher (r : regex) : Matcher :=
  match r with
  | Empty => fun x k => k x
  | Chr c => char_matcher (Ascii.eqb c)
  | AnyChar => char_matcher (fun c => negb (is_line_terminator c))
  | CharSet neg rs => char_matcher (fun c => xorb neg (existsb (in_range c) rs))
  | Bol => fun x k => if at_start x then k x else None
  | Eol => fun x k => match rest x with EmptyString => k x | _ => None end
  | Seq r1 r2 => fun x k => matcher r1 x (fun y => matcher r2 y k)
  | Alt r1 r2 => fun x k =>
      match matcher r1 x k with
      | Some z => Some z
      | None => matcher r2 x k
      end
  | Star r' => fun x k => repeat_matcher (String.length (rest x)) (matcher r') x k
  | Plus r' => fun x k =>
      matcher r' x (fun y => repeat_matcher (String.length (rest y)) (matcher r') y k)
  | Opt r' => fun x k =>
      match matcher r' x k with
      | Some z => Some z
      | None => k x
      end
  end.

(** One attempt at the current position: the state after the match. *)
Definition match_here (r : regex) (x : state) : option state :=
  matcher r x (fun y => Some y).

(** RegExpBuiltinExec without flags: the leftmost position at which the
    pattern matches.  Returns the text before the match, the matched
    text and the text after it. *)
Fixpoint exec_from (r : regex) (start : bool) (before s : string)
  : option (string * string * string) :=
  match match_here r (State start s) with
  | Some y =>
      Some (before,
            JSString.take (String.length s - String.length (rest y)) s,
            rest y)
  | None =>
      match s with
      | EmptyString => None
      | String c s' => exec_from r false (before +:+ String c EmptyString) s'
      end
  end.

Definition exec (r : regex) (s : string) : option (string * string * string) :=
  exec_from r true EmptyString s.

(** [r.test(s)] *)
Definition test (r : regex) (s : string) : bool :=
  match exec r s with Some _ => true | None => false end.

(** [s.match(r)?.[0]] for a pattern without the global flag. *)
Definition match0 (r : regex) (s : string) : option string :=
  match exec r s with Some (_, m, _) => Some m | None => None end.

(** [s.replace(r, '')] for a pattern with the global flag: every match is
    deleted; after an empty match the scan advances by one character. *)
Fixpoint delete_all_from (fuel : nat) (r : regex) (start : bool) (s : string) : string :=
  match fuel with
  | O => s
  | S fuel' =>
      match match_here r (State start s) with
      | Some y =>
          if (String.length (rest y) <? String.length s)%nat
          then delete_all_from fuel' r false (rest y)
          else match s with
               | EmptyString => EmptyString
               | String c s' => String c (delete_all_from fuel' r false s')
               end
      | None =>
          match s with
          | EmptyString => EmptyString
          | String c s' => String c (delete_all_from fuel' r false s')
          end
      end
  end.

Definition delete_all (r : regex) (s : string) : string :=
  delete_all_from (S (String.length s)) r true s.

(** *** Pattern strings

    [new RegExp(source)] parses its argument.  The parser below reads the
    pattern left to right with a stack of open groups.  A construct
    outside the modelled fragment (character classes, braces, escapes of
    letters or digits, [(?...)] groups, lazy quantifiers) is reported as
    [Beyond] and left to the platform. *)

Inductive parsed : Type :=
| Parsed (r : regex)
| BadSyntax                  (* the constructor throws SyntaxError *)
| Beyond.                    (* outside the modelled fragment *)

(** What the previous term was: nothing quantifiable, an atom, or an
    already quantified atom. *)
Inductive prev : Type := PNone | PAtom | PQuant.

(** An open disjunction: the finished alternatives and the terms of the
    current one, both most recent first. *)
Record frame : Type := Frame { alts : list regex; terms : list regex }.

Definition empty_frame : frame := Frame [] [].

Definition seq_of (ts : list regex) : regex := fold_right Seq Empty ts.

Fixpoint alt_of (rs : list regex) : regex :=
  match rs with
  | [] => Empty
  | [r] => r
  | r :: rs' => Alt r (alt_of rs')
  end.

Definition close_alt (f : frame) : list regex :=
  seq_of (rev (terms f)) :: alts f.

Definition disjunction (f : frame) : regex := alt_of (rev (close_alt f)).

Definition push_term (t : regex) (f : frame) : frame :=
  Frame (alts f) (t :: terms f).

Definition quantify (q : regex -> regex) (f : frame) : frame :=
  match terms f with
  | t :: ts => Frame (alts f) (q t :: ts)
  | [] => f
  end.

Definition is_alnum (c : ascii) : bool :=
  let n := nat_of_ascii c in
  ((48 <=? n)%nat && (n <=? 57)%nat) ||
  ((65 <=? n)%nat && (n <=? 90)%nat) ||
  ((97 <=? n)%nat && (n <=? 122)%nat).

Definition quantifier_of (c : ascii) : option (regex -> regex) :=
  if Ascii.eqb c "*" then Some Star
  else if Ascii.eqb c "+" then Some Plus
  else if Ascii.eqb c "?" then Some Opt
  else None.

Fixpoint parse_loop (s : string) (p : prev) (f : frame) (stack : list frame) : parsed :=
  match s with
  | EmptyString =>
      match stack with
      | [] => Parsed (disjunction f)
      | _ :: _ => BadSyntax                       (* unterminated group *)
      end
  | String c r =>
      if Ascii.eqb c "(" then
        match r with
        | String "?" _ => Beyond
        | _ => parse_loop r PNone empty_frame (f :: stack)
        end
      else if Ascii.eqb c ")" then
        match stack with
        | [] => BadSyntax                         (* unmatched ')' *)
        | g :: stack' => parse_loop r PAtom (push_term (disjunction f) g) stack'
        end
      else if Ascii.eqb c "|" then
        parse_loop r PNone (Frame (close_alt f) []) stack
      else if Ascii.eqb c "^" then parse_loop r PNone (push_term Bol f) stack
      else if Ascii.eqb c "$" then parse_loop r PNone (push_term Eol f) stack
      else if Ascii.eqb c "." then parse_loop r PAtom (push_term AnyChar f) stack
      else if Ascii.eqb c "\" then
        match r with
        | EmptyString => BadSyntax                (* \ at end of pattern *)
        | String e r' =>
            if is_alnum e then Beyond
            else parse_loop r' PAtom (push_term (Chr e) f) stack
        end
      else if Ascii.eqb c "[" || Ascii.eqb c "{" then Beyond
      else
        match quantifier_of c with
        | Some q =>
            match p with
            | PAtom => parse_loop r PQuant (quantify q f) stack
            | PQuant => if Ascii.eqb c "?" then Beyond else BadSyntax
            | PNone => BadSyntax                  (* nothing to repeat *)
            end
        | None => parse_loop r PAtom (push_term (Chr c) f) stack
        end
  end.

Definition parse (source : string) : parsed :=
  parse_loop source PNone empty_frame [].

End Regex.

Import Regex.

(** ** Platform objects *)

(** *** Headers

    A [Headers] object maps header names, compared without regard to case,
    to values.  Names are stored lower-cased, which is also how iteration
    yields them. *)

Module Headers.

Abbreviation t := (gmap string string).

Definition get (h : t) (name : string) : option string :=
  h !! toLowerCase name.

Definition has (h : t) (name : string) : bool :=
  bool_decide (is_Some (h !! toLowerCase name)).

Definition set (h : t) (name value : string) : t :=
  <[toLowerCase name := value]> h.

Definition delete (h : t) (name : string) : t :=
  base.delete (toLowerCase name) h.

(** [append] joins the values of a repeated name with a comma. *)
Definition append (h : t) (name value : string) : t :=
  match h !! toLowerCase name with
  | Some old => <[toLowerCase name := old +:+ ", " +:+ value]> h
  | None => <[toLowerCase name := value]> h
  end.

(** [new Headers(init)]: every entry of [init] is appended in turn. *)
Definition copy (init : t) : t :=
  map_fold (fun name value acc => append acc name value) ∅ init.

(** [new Headers()] and an object literal of headers. *)
Definition empty : t := ∅.

Definition of_list (l : list (string * string)) : t :=
  fold_left (fun acc kv => set acc (fst kv) (snd kv)) l ∅.

End Headers.

(** *** URL records

    The fields of a parsed [URL] that the worker reads.  [search] is empty
    or starts with [?]; [protocol] ends with [:]. *)

Record URL : Type := {
  protocol : string;
  host : string;
  hostname : string;
  pathname : string;
  search : string
}.

(** [url.protocol = p], for a URL whose port is not the default port of
    [p]. *)
Definition URL_set_protocol (u : URL) (p : string) : URL :=
  {| protocol := p; host := host u; hostname := hostname u;
     pathname := pathname u; search := search u |}.

(** [url.toString()], for a URL without credentials and without fragment,
    whose query, when there is one, is not empty. *)
Definition URL_toString (u : URL) : string :=
  protocol u +:+ "//" +:+ host u +:+ pathname u +:+ search u.

(** *** JSON values

    What [JSON.parse] returns.  Numbers are restricted to integers, which
    is enough to exercise truthiness and string conversion. *)

Inductive json : Type :=
| JNull
| JBool (b : bool)
| JNum (n : Z)
| JStr (s : string)
| JArr (items : list json)
| JObj (fields : list (string * json)).

(** A JavaScript value read from a parsed body: a JSON value or
    [undefined]. *)
Abbreviation jsval := (option json).

Module JS.

(** Property lookup on an object literal's fields. *)
Fixpoint field (k : string) (fs : list (string * json)) : jsval :=
  match fs with
  | [] => None
  | (k', v) :: fs' => if String.eqb k k' then Some v else field k fs'
  end.

(** ToBoolean *)
Definition truthy (v : jsval) : bool :=
  match v with
  | None | Some JNull => false
  | Some (JBool b) => b
  | Some (JNum n) => negb (n =? 0)%Z
  | Some (JStr s) => JSString.truthy s
  | Some (JArr _) | Some (JObj _) => true
  end.

Definition digit_char (n : nat) : ascii := ascii_of_nat (48 + n).

Fixpoint digits_of (fuel : nat) (n : N) (acc : string) : string :=
  match fuel with
  | O => acc
  | S fuel' =>
      let acc' := String (digit_char (N.to_nat (n mod 10))) acc in
      if (n <? 10)%N then acc' else digits_of fuel' (n / 10)%N acc'
  end.

(** Number::toString for an integer. *)
Definition string_of_Z (z : Z) : string :=
  let n := Z.abs_N z in
  let ds := digits_of (S (N.to_nat (N.log2 n))) n EmptyString in
  if (z <? 0)%Z then String "-" ds else ds.

Fixpoint join (sep : string) (l : list string) : string :=
  match l with
  | [] => EmptyString
  | [x] => x
  | x :: l' => x +:+ sep +:+ join sep l'
  end.

(** ToString of a JSON value: arrays join their elements with a comma,
    rendering [null] elements as the empty string. *)
Fixpoint to_string (v : json) : string :=
  match v with
  | JNull => "null"
  | JBool true => "true"
  | JBool false => "false"
  | JNum n => string_of_Z n
  | JStr s => s
  | JArr items =>
      join ","
        (map (fun i => match i with JNull => EmptyString | _ => to_string i end) items)
  | JObj _ => "[object Object]"
  end.

(** Strict equality [v === s] with a string. *)
Definition strict_eq_string (v : jsval) (s : string) : bool :=
  match v with
  | Some (JStr s') => String.eqb s' s
  | _ => false
  end.

(** The own enumerable properties copied by [{...v}]. *)
Fixpoint index_fields (i : nat) (items : list json) : list (string * json) :=
  match items with
  | [] => []
  | x :: items' => (string_of_Z (Z.of_nat i), x) :: index_fields (S i) items'
  end.

Fixpoint chars_of (s : string) : list json :=
  match s with
  | EmptyString => []
  | String c r => JStr (String c EmptyString) :: chars_of r
  end.

Definition spread (v : json) : list (string * json) :=
  match v with
  | JObj fs => fs
  | JArr items => index_fields 0 items
  | JStr s => index_fields 0 (chars_of s)
  | _ => []
  end.

(** Assignment of a property in an object under construction. *)
Fixpoint assign (k : string) (v : json) (fs : list (string * json)) : list (string * json) :=
  match fs with
  | [] => [(k, v)]
  | (k', v') :: fs' =>
      if String.eqb k k' then (k, v) :: fs' else (k', v') :: assign k v fs'
  end.

End JS.

(** *** Platform services *)

(** Exceptions the platform raises. *)
Inductive exn : Type :=
| TypeError (what : string)
| FetchFailed (what : string).

Class Platform : Type := {
  (** [new URL(s)]: [None] when the constructor throws, as it does on the
      empty string. *)
  URL_parse : string -> option URL;
  URL_parse_empty : URL_parse EmptyString = None;
  (** [new RegExp(source)] for a pattern outside the modelled fragment:
      the acceptance function of the compiled pattern, [None] when the
      constructor throws. *)
  native_RegExp : string -> option (string -> bool);
  (** [crypto.subtle.digest('SHA-256', bytes)] *)
  sha256_digest : list byte -> list byte;
  (** [crypto.subtle.sign('HMAC', importKey(key), bytes)] *)
  hmac_sha256 : list byte -> list byte -> list byte;
  (** [JSON.parse(text)]: [None] when it throws, with the message below. *)
  JSON_parse : string -> option json;
  JSON_parse_error : string -> string;
  (** [error.message] *)
  error_message : exn -> string
}.

(** A compiled pattern. *)
Inductive RegExp : Type :=
| Modelled (r : regex)
| Native (accepts : string -> bool).

Definition RegExp_new `{Platform} (source : string) : option RegExp :=
  match parse source with
  | Parsed r => Some (Modelled r)
  | BadSyntax => None
  | Beyond => Native <$> native_RegExp source
  end.

Definition RegExp_test (p : RegExp) (s : string) : bool :=
  match p with
  | Modelled r => Regex.test r s
  | Native accepts => accepts s
  end.

(** ** Requests, responses and effects *)

Inductive body_t : Type :=
| BodyNull
| BodyText (s : string)
| BodyJson (j : json).            (* [JSON.stringify(j)] *)

(** An incoming [Request]: its URL is already parsed, its body is the text
    that [req.clone().text()] yields. *)
Record Request : Type := {
  req_method : string;
  req_url : URL;
  req_headers : Headers.t;
  req_text : string
}.

Record Response : Type := {
  status : nat;
  headers : Headers.t;
  body : body_t
}.

(** The worker's environment bindings. *)
Record Env : Type := {
  CF_ZONE_ID : option string;
  CF_API_TOKEN : option string;
  CF_PURGE_TOKEN : option string;
  DISABLE_HTTPS_REDIRECT : option string;
  ALLOWED_ORIGINS : option string
}.

(** The imported [aws-s3.json]: any field may be missing. *)
Record S3Config : Type := {
  bucket : option string;
  endpoint : option string;
  region : option string;
  accessKeyId : option string;
  secretAccessKey : option string
}.

(** The outbound request to the storage origin. *)
Record StorageRequest : Type := {
  sr_url : string;
  sr_method : string;
  sr_headers : Headers.t;
  sr_body : option string
}.

Record OriginResponse : Type := {
  or_status : nat;
  or_headers : Headers.t;
  or_body : body_t
}.

(** The outbound call to the CDN purge API and its reply; [pr_json] is
    [None] when [purgeResp.json()] rejects. *)
Record PurgeCall : Type := {
  pc_url : string;
  pc_authorization : string;
  pc_body : json
}.

Record PurgeReply : Type := {
  pr_ok : bool;
  pr_status : nat;
  pr_json : option json
}.

(** The effects of a request handler.  A fetch answers [None] when its
    promise rejects. *)
Inductive event : Type -> Type :=
| Clock : event string                                (* [new Date().toISOString()] *)
| StorageFetch (rq : StorageRequest) : event (option OriginResponse)
| PurgeFetch (rq : PurgeCall) : event (option PurgeReply).

Inductive Eff (A : Type) : Type :=
| Ret (a : A)
| Throw (e : exn)
| Vis {X : Type} (ev : event X) (k : X -> Eff A).

Arguments Ret {A} a.
Arguments Throw {A} e.
Arguments Vis {A X} ev k.

Fixpoint bind {A B : Type} (m : Eff A) (f : A -> Eff B) : Eff B :=
  match m with
  | Ret a => f a
  | Throw e => Throw e
  | Vis ev k => Vis ev (fun x => bind (k x) f)
  end.

(** [try { m } catch (e) { h e }] *)
Fixpoint try_catch {A : Type} (m : Eff A) (h : exn -> Eff A) : Eff A :=
  match m with
  | Ret a => Ret a
  | Throw e => h e
  | Vis ev k => Vis ev (fun x => try_catch (k x) h)
  end.

Definition trigger {X : Type} (ev : event X) : Eff X := Vis ev Ret.

(** [await fetch(...)]: a rejected promise is thrown. *)
Definition await_fetch {X : Type} (ev : event (option X)) : Eff X :=
  Vis ev (fun r => match r with Some x => Ret x | None => Throw (FetchFailed "fetch failed") end).

Declare Scope eff_scope.
Delimit Scope eff_scope with eff.
Notation "x <- m ;; k" := (bind m (fun x => k))
  (at level 100, m at next level, right associativity) : eff_scope.

(** Running a handler against an environment that answers its effects. *)
Record World : Type := {
  clock : string;
  storage : StorageRequest -> option OriginResponse;
  purge_api : PurgeCall -> option PurgeReply
}.

Definition answer (w : World) {X : Type} (ev : event X) : X :=
  match ev in event T return T with
  | Clock => clock w
  | StorageFetch rq => storage w rq
  | PurgeFetch rq => purge_api w rq
  end.

Fixpoint run {A : Type} (w : World) (m : Eff A) : A + exn :=
  match m with
  | Ret a => inl a
  | Throw e => inr e
  | Vis ev k => run w (k (answer w ev))
  end.

(** The outbound calls a handler makes in a world, in order. *)
Inductive call : Type :=
| CallStorage (rq : StorageRequest)
| CallPurge (rq : PurgeCall).

Definition call_of {X : Type} (ev : event X) : list call :=
  match ev with
  | Clock => []
  | StorageFetch rq => [CallStorage rq]
  | PurgeFetch rq => [CallPurge rq]
  end.

Fixpoint calls {A : Type} (w : World) (m : Eff A) : list call :=
  match m with
  | Ret _ | Throw _ => []
  | Vis ev k => call_of ev ++ calls w (k (answer w ev))
  end.

(** ** The worker (worker-cdn.js) *)

Section Worker.

Context `{Platform}.

Local Open Scope eff_scope.

Definition nl : string := String "010" EmptyString.

(** *** Allowed CORS origins *)

Definition defaultAllowed : list RegExp := [].

Definition isOriginAllowed (origin : option string) (allowedDomains : list RegExp) : bool :=
  match origin with
  | None => false
  | Some o =>
      if negb (truthy o) then false
      else match URL_parse o with
           | Some url => existsb (fun pattern => RegExp_test pattern (hostname url)) allowedDomains
           | None => false                                   (* catch *)
           end
  end.

Definition isSafeNoCorsRequest (req : Request) (origin : option string) : bool :=
  if negb (bool_decide (origin = None)) && negb (bool_decide (origin = Some "null")) then false
  else if negb (String.eqb (req_method req) "GET") &&
          negb (String.eqb (req_method req) "HEAD") &&
          negb (String.eqb (req_method req) "OPTIONS") then false
  else true.

(** *** MIME types *)

Definition MIME_TYPES : list (string * string) :=
  [ (".mp4", "video/mp4"); (".webm", "video/webm"); (".ogg", "video/ogg");
    (".avi", "video/x-msvideo"); (".mov", "video/quicktime");
    (".mkv", "video/x-matroska"); (".m4v", "video/x-m4v"); (".flv", "video/x-flv");
    (".wmv", "video/x-ms-wmv"); (".mpg", "video/mpeg"); (".mpeg", "video/mpeg");
    (".3gp", "video/3gpp"); (".mpd", "application/dash+xml");
    (".mp3", "audio/mpeg"); (".wav", "audio/wav"); (".m4a", "audio/mp4");
    (".aac", "audio/aac"); (".flac", "audio/flac"); (".opus", "audio/opus");
    (".weba", "audio/webm"); (".oga", "audio/ogg");
    (".jpg", "image/jpeg"); (".jpeg", "image/jpeg"); (".png", "image/png");
    (".gif", "image/gif"); (".webp", "image/webp"); (".svg", "image/svg+xml");
    (".ico", "image/x-icon"); (".bmp", "image/bmp"); (".tiff", "image/tiff");
    (".tif", "image/tiff"); (".avif", "image/avif");
    (".html", "text/html"); (".htm", "text/html"); (".css", "text/css");
    (".js", "application/javascript"); (".mjs", "application/javascript");
    (".json", "application/json"); (".xml", "application/xml"); (".txt", "text/plain");
    (".woff", "font/woff"); (".woff2", "font/woff2"); (".ttf", "font/ttf");
    (".otf", "font/otf"); (".eot", "application/vnd.ms-fontobject");
    (".pdf", "application/pdf"); (".doc", "application/msword");
    (".docx", "application/vnd.openxmlformats-officedocument.wordprocessingml.document");
    (".xls", "application/vnd.ms-excel");
    (".xlsx", "application/vnd.openxmlformats-officedocument.spreadsheetml.sheet");
    (".ppt", "application/vnd.ms-powerpoint");
    (".pptx", "application/vnd.openxmlformats-officedocument.presentationml.presentation");
    (".zip", "application/zip"); (".rar", "application/vnd.rar");
    (".tar", "application/x-tar"); (".gz", "application/gzip");
    (".7z", "application/x-7z-compressed");
    (".wasm", "application/wasm"); (".csv", "text/csv"); (".md", "text/markdown");
    (".yaml", "text/yaml"); (".yml", "text/yaml") ].

Fixpoint object_get (k : string) (o : list (string * string)) : option string :=
  match o with
  | [] => None
  | (k', v) :: o' => if String.eqb k k' then Some v else object_get k o'
  end.

(** The literal [/\.[^.]+$/]. *)
Definition extension_pattern : regex :=
  Seq (Chr ".") (Seq (Plus (CharSet true [("."%char, "."%char)])) Eol).

Definition getMimeType (pathname : string) : option string :=
  match match0 extension_pattern (toLowerCase pathname) with
  | Some ext => if truthy ext then object_get ext MIME_TYPES else None
  | None => None
  end.

Definition FONT_EXTENSIONS : list string := [".woff"; ".woff2"; ".ttf"; ".otf"; ".eot"].

Definition isFontRequest (pathname : string) : bool :=
  match match0 extension_pattern (toLowerCase pathname) with
  | Some ext => truthy ext && bool_decide (ext ∈ FONT_EXTENSIONS)
  | None => false
  end.

(** *** Headers that break single-file purge *)

Definition PURGE_BLOCKING_HEADERS : list string :=
  [ "x-forwarded-host"; "x-host"; "x-forwarded-scheme"; "x-original-url";
    "x-rewrite-url"; "forwarded"; "origin" ].

(** *** AWS Signature Version 4 *)

Definition TextEncoder_encode (s : string) : list byte := list_byte_of_string s.

Definition sha256 (message : string) : list byte :=
  sha256_digest (TextEncoder_encode message).

(** A key is a string or a buffer; a message that is [undefined] encodes to
    no bytes. *)
Inductive hmac_key : Type :=
| KeyString (s : string)
| KeyBuffer (b : list byte).

Definition hmacSha256 (key : hmac_key) (message : option string) : list byte :=
  hmac_sha256
    (match key with KeyString s => TextEncoder_encode s | KeyBuffer b => b end)
    (match message with Some m => TextEncoder_encode m | None => [] end).

Definition hex_digit (n : nat) : ascii :=
  if (n <? 10)%nat then ascii_of_nat (48 + n) else ascii_of_nat (87 + n).

(** [b.toString(16).padStart(2, '0')] *)
Definition hex_of_byte (b : byte) : string :=
  let n := Byte.to_nat b in
  String (hex_digit (n / 16)) (String (hex_digit (n mod 16)) EmptyString).

Fixpoint toHex (buffer : list byte) : string :=
  match buffer with
  | [] => EmptyString
  | b :: bs => hex_of_byte b +:+ toHex bs
  end.

Definition getSignatureKey (key : option string) (dateStamp : string)
    (regionName : option string) (serviceName : string) : list byte :=
  let kDate := hmacSha256 (KeyString ("AWS4" +:+ interpolate key)) (Some dateStamp) in
  let kRegion := hmacSha256 (KeyBuffer kDate) regionName in
  let kService := hmacSha256 (KeyBuffer kRegion) (Some serviceName) in
  let kSigning := hmacSha256 (KeyBuffer kService) (Some "aws4_request") in
  kSigning.

(** The literal [/[:-]|\.\d{3}/g]. *)
Definition digit_set : regex := CharSet false [("0"%char, "9"%char)].

Definition iso_punctuation_pattern : regex :=
  Alt (CharSet false [(":"%char, ":"%char); ("-"%char, "-"%char)])
      (Seq (Chr ".") (Seq digit_set (Seq digit_set digit_set))).

(** The three headers the signer returns, in the order of the object
    literal. *)
Record SignedHeaders : Type := {
  x_amz_date : string;
  x_amz_content_sha256 : string;
  Authorization : string
}.

Definition SignedHeaders_entries (sh : SignedHeaders) : list (string * string) :=
  [ ("x-amz-date", x_amz_date sh);
    ("x-amz-content-sha256", x_amz_content_sha256 sh);
    ("Authorization", Authorization sh) ].

(** Everything the signer computes once the clock has been read. *)
Definition sign_at (now : string) (method : string) (urlObj : URL)
    (payload : string) (config : S3Config) : SignedHeaders :=
  let service := "s3" in
  let host := hostname urlObj in
  let canonicalUri := pathname urlObj in
  let canonicalQuerystring := JSString.drop 1 (search urlObj) in
  let amzDate := delete_all iso_punctuation_pattern now in
  let dateStamp := JSString.take 8 amzDate in
  let payloadHash :=
    if truthy payload then toHex (sha256 payload) else toHex (sha256 EmptyString) in
  let canonicalHeaders :=
    "host:" +:+ host +:+ nl +:+ "x-amz-content-sha256:" +:+ payloadHash +:+ nl +:+
    "x-amz-date:" +:+ amzDate +:+ nl in
  let signedHeaders := "host;x-amz-content-sha256;x-amz-date" in
  let canonicalRequest :=
    method +:+ nl +:+ canonicalUri +:+ nl +:+ canonicalQuerystring +:+ nl +:+
    canonicalHeaders +:+ nl +:+ signedHeaders +:+ nl +:+ payloadHash in
  let algorithm := "AWS4-HMAC-SHA256" in
  let credentialScope :=
    dateStamp +:+ "/" +:+ interpolate (region config) +:+ "/" +:+ service +:+ "/aws4_request" in
  let canonicalRequestHash := toHex (sha256 canonicalRequest) in
  let stringToSign :=
    algorithm +:+ nl +:+ amzDate +:+ nl +:+ credentialScope +:+ nl +:+ canonicalRequestHash in
  let signingKey := getSignatureKey (secretAccessKey config) dateStamp (region config) service in
  let signature := toHex (hmacSha256 (KeyBuffer signingKey) (Some stringToSign)) in
  let authorizationHeader :=
    algorithm +:+ " Credential=" +:+ interpolate (accessKeyId config) +:+ "/" +:+
    credentialScope +:+ ", SignedHeaders=" +:+ signedHeaders +:+ ", Signature=" +:+ signature in
  {| x_amz_date := amzDate;
     x_amz_content_sha256 := payloadHash;
     Authorization := authorizationHeader |}.

Definition signAwsRequest (method url : string) (headers : Headers.t)
    (payload : string) (config : S3Config) : Eff SignedHeaders :=
  match URL_parse url with
  | None => Throw (TypeError "Invalid URL")
  | Some urlObj =>
      now <- trigger Clock ;;
      Ret (sign_at now method urlObj payload config)
  end.

End Worker.

Section Handlers.

Context `{Platform}.

(** The imported storage configuration. *)
Variable s3Config : S3Config.

Local Open Scope eff_scope.

Definition dq : string := String "034" EmptyString.

Definition json_response (status : nat) (j : json) : Response :=
  {| status := status;
     headers := Headers.of_list [("Content-Type", "application/json")];
     body := BodyJson j |}.

Definition error_response (status : nat) (message : string) : Response :=
  json_response status (JObj [("error", JStr message)]).

(** [Response.redirect(url, status)] *)
Definition Response_redirect (url : string) (status : nat) : Response :=
  {| status := status;
     headers := Headers.of_list [("Location", url)];
     body := BodyNull |}.

(** *** Handle cache purge requests *)

(** Property read [v.k] on a value that is not [null]. *)
Definition prop (v : json) (k : string) : jsval :=
  match v with
  | JObj fs => JS.field k fs
  | _ => None
  end.

(** The body-reading block: an early response, or the parsed body. *)
Definition read_purge_body (req : Request) : Response + json :=
  let text := trim (req_text req) in
  if negb (truthy text) then
    inl (json_response 400
           (JObj [ ("error", JStr "Empty request body");
                   ("message", JStr "Please send JSON data in the request body");
                   ("example", JStr ("{" +:+ dq +:+ "url" +:+ dq +:+ ":" +:+ dq +:+
                                     "https://example.com/file.mp4" +:+ dq +:+ "}")) ]))
  else
    match JSON_parse text with
    | Some body => inr body
    | None =>
        inl (json_response 400
               (JObj [ ("error", JStr "Invalid JSON in request body");
                       ("details", JStr (JSON_parse_error text));
                       ("receivedText", JStr (JSString.take 200 text));
                       ("hint", JStr ("Ensure valid JSON format: {" +:+ dq +:+ "url" +:+ dq +:+
                                      ":" +:+ dq +:+ "https://..." +:+ dq +:+ "}")) ]))
    end.

Definition purge_payload (url origin requestHeaders : json) : json :=
  JObj [ ("files",
          JArr [ JObj [ ("url", url);
                        ("headers",
                         JObj (fold_left (fun o kv => JS.assign (fst kv) (snd kv) o)
                                         (JS.spread requestHeaders)
                                         [("origin", origin)])) ] ]) ].

Definition handlePurgeRequest (req : Request) (env : Env) : Eff Response :=
  try_catch
    (if negb (String.eqb (req_method req) "POST") then
       Ret (error_response 405 "Method not allowed. Use POST.")
     else
       let contentType :=
         match Headers.get (req_headers req) "content-type" with
         | Some v => v
         | None => EmptyString
         end in
       if negb (includes contentType "application/json") then
         Ret (error_response 400 "Invalid Content-Type. Use application/json.")
       else
         match read_purge_body req with
         | inl early => Ret early
         | inr JNull => Throw (TypeError "Cannot destructure property 'url' of 'body' as it is null.")
         | inr body =>
             let url := prop body "url" in
             let requestHeaders :=
               match prop body "headers" with Some v => v | None => JObj [] end in
             let token := prop body "token" in
             if negb (truthy_opt (CF_ZONE_ID env)) then
               Ret (error_response 500 "Missing CF_ZONE_ID environment variable")
             else if negb (truthy_opt (CF_API_TOKEN env)) then
               Ret (error_response 500 "Missing CF_API_TOKEN environment variable")
             else if truthy_opt (CF_PURGE_TOKEN env) &&
                     negb (JS.strict_eq_string token (interpolate (CF_PURGE_TOKEN env))) then
               Ret (error_response 401 "Unauthorized")
             else
               match url with
               | None => Ret (error_response 400 "Missing 'url' parameter")
               | Some urlv =>
                   if negb (JS.truthy url) then
                     Ret (error_response 400 "Missing 'url' parameter")
                   else
                     match URL_parse (JS.to_string urlv) with
                     | None => Ret (error_response 400 "Invalid URL format")
                     | Some urlObj =>
                         match requestHeaders with
                         | JNull => Throw (TypeError "Cannot read properties of null (reading 'origin')")
                         | _ =>
                             let origin :=
                               match prop requestHeaders "origin" with
                               | Some o =>
                                   if JS.truthy (Some o) then o
                                   else JStr (protocol urlObj +:+ "//" +:+ host urlObj)
                               | None => JStr (protocol urlObj +:+ "//" +:+ host urlObj)
                               end in
                             let purgePayload := purge_payload urlv origin requestHeaders in
                             let purgeUrl :=
                               "https://api.cloudflare.com/client/v4/zones/" +:+
                               interpolate (CF_ZONE_ID env) +:+ "/purge_cache" in
                             purgeResp <- await_fetch
                               (PurgeFetch {| pc_url := purgeUrl;
                                              pc_authorization :=
                                                "Bearer " +:+ interpolate (CF_API_TOKEN env);
                                              pc_body := purgePayload |}) ;;
                             match pr_json purgeResp with
                             | None => Throw (TypeError "Unexpected end of JSON input")
                             | Some result =>
                                 if negb (pr_ok purgeResp) then
                                   Ret (json_response (pr_status purgeResp) result)
                                 else
                                   Ret (json_response 200
                                          (JObj [ ("success", JBool true);
                                                  ("message", JStr "Cache purge initiated successfully");
                                                  ("url", urlv);
                                                  ("result", result) ]))
                             end
                         end
                     end
               end
         end)
    (fun error =>
       Ret (json_response 500
              (JObj [ ("error", JStr "Internal server error");
                      ("details", JStr (error_message error)) ]))).

(** *** Worker entry *)

(** [domain.replace(/\./g, '\\.')] *)
Fixpoint escape_dots (domain : string) : string :=
  match domain with
  | EmptyString => EmptyString
  | String c r =>
      if Ascii.eqb c "." then String "\" (String "." (escape_dots r))
      else String c (escape_dots r)
  end.

Definition domain_pattern_source (domain : string) : string :=
  "(^|\.)" +:+ escape_dots domain +:+ "$".

(** [domains.map(domain => new RegExp(...))]: [None] when a constructor
    throws. *)
Fixpoint compile_domains (domains : list string) : option (list RegExp) :=
  match domains with
  | [] => Some []
  | d :: ds =>
      match RegExp_new (domain_pattern_source d) with
      | None => None
      | Some p =>
          match compile_domains ds with
          | None => None
          | Some ps => Some (p :: ps)
          end
      end
  end.

Definition configured_domains (list_text : string) : list string :=
  filter (fun d => truthy d = true) (map trim (split_on "," list_text)).

Definition allowed_origins (env : Env) : list RegExp :=
  match ALLOWED_ORIGINS env with
  | Some text =>
      if truthy text then
        match compile_domains (configured_domains text) with
        | Some ps => ps
        | None => defaultAllowed                    (* catch: keep the defaults *)
        end
      else defaultAllowed
  | None => defaultAllowed
  end.

(** The [corsHeaders] of the preflight branch. *)
Definition preflight_cors_headers (req : Request) (url : URL)
    (origin : option string) (allowed : list RegExp) : Headers.t :=
  let corsHeaders := Headers.empty in
  if isFontRequest (pathname url) then
    let h := Headers.set corsHeaders "Access-Control-Allow-Origin" "*" in
    let h := Headers.set h "Access-Control-Allow-Methods" "GET, HEAD, OPTIONS" in
    let h := Headers.set h "Access-Control-Allow-Headers" "Content-Type, Range" in
    Headers.set h "Access-Control-Max-Age" "86400"
  else if truthy_opt origin && isOriginAllowed origin allowed then
    let h := Headers.set corsHeaders "Access-Control-Allow-Origin" (interpolate origin) in
    let h := Headers.set h "Access-Control-Allow-Methods" "GET, HEAD, OPTIONS" in
    let h := Headers.set h "Access-Control-Allow-Headers" "Content-Type, Range" in
    Headers.set h "Access-Control-Max-Age" "86400"
  else if isSafeNoCorsRequest req origin then
    let h := Headers.set corsHeaders "Access-Control-Allow-Origin" "*" in
    let h := Headers.set h "Access-Control-Allow-Methods" "GET, HEAD, OPTIONS" in
    let h := Headers.set h "Access-Control-Allow-Headers" "Content-Type, Range" in
    Headers.set h "Access-Control-Max-Age" "86400"
  else corsHeaders.

(** The CORS block of the response path, applied to the response headers. *)
Definition response_cors_headers (headers : Headers.t) (req : Request) (url : URL)
    (origin : option string) (allowed : list RegExp) : Headers.t :=
  if isFontRequest (pathname url) then
    let h := Headers.set headers "Access-Control-Allow-Origin" "*" in
    let h := Headers.set h "Access-Control-Allow-Methods" "GET, HEAD, OPTIONS" in
    Headers.set h "Access-Control-Allow-Headers" "Content-Type, Range"
  else if truthy_opt origin && isOriginAllowed origin allowed then
    let h := Headers.set headers "Access-Control-Allow-Origin" (interpolate origin) in
    let h := Headers.set h "Access-Control-Allow-Methods" "GET, HEAD, OPTIONS" in
    Headers.set h "Access-Control-Allow-Headers" "Content-Type, Range"
  else if isSafeNoCorsRequest req origin then
    let h := Headers.set headers "Access-Control-Allow-Origin" "*" in
    let h := Headers.set h "Access-Control-Allow-Methods" "GET, HEAD, OPTIONS" in
    Headers.set h "Access-Control-Allow-Headers" "Content-Type, Range"
  else headers.

Definition is_get_or_head (method : string) : bool :=
  String.eqb method "GET" || String.eqb method "HEAD".

(** Step (3): copy the request headers, skipping the purge-blocking ones,
    then set [Host].  A header map holds one value per name, the values of a
    repeated header joined; the loop receives the values of Set-Cookie one
    by one, so for a request with several of them the entry copied here is
    not the one the code leaves, which is the last value. *)
Definition forwarded_headers (req : Request) : Headers.t :=
  let newHeaders :=
    map_fold
      (fun key value newHeaders =>
         let lowerKey := toLowerCase key in
         if bool_decide (lowerKey ∈ PURGE_BLOCKING_HEADERS) then newHeaders
         else Headers.set newHeaders key value)
      Headers.empty (req_headers req) in
  Headers.set newHeaders "Host"
    (interpolate (bucket s3Config) +:+ "." +:+ interpolate (endpoint s3Config)).

(** Step (4): the response headers, from the origin's. *)
Definition response_headers (req : Request) (url : URL) (origin : option string)
    (allowed : list RegExp) (originResp : OriginResponse) : Headers.t :=
  let headers := Headers.copy (or_headers originResp) in
  let headers :=
    match getMimeType (pathname url) with
    | Some mimeType =>
        if truthy mimeType then Headers.set headers "Content-Type" mimeType else headers
    | None => headers
    end in
  let headers := Headers.set headers "Accept-Ranges" "bytes" in
  let headers := response_cors_headers headers req url origin allowed in
  let headers :=
    if (or_status originResp =? 404)%nat || (or_status originResp =? 403)%nat then
      Headers.set headers "Cache-Control" "public, max-age=300, s-maxage=31536000, immutable"
    else
      Headers.set headers "Cache-Control" "public, max-age=60, s-maxage=31536000, must-revalidate" in
  let headers := fold_left Headers.delete PURGE_BLOCKING_HEADERS headers in
  let headers := Headers.delete headers "Vary" in
  let headers := Headers.delete headers "Pragma" in
  Headers.delete headers "Expires".

(** Steps (2) to (5): the proxy pipeline. *)
Definition proxy (req : Request) (url : URL) (origin : option string)
    (allowed : list RegExp) : Eff Response :=
  let s3Url :=
    "https://" +:+ interpolate (bucket s3Config) +:+ "." +:+
    interpolate (endpoint s3Config) +:+ pathname url +:+ search url in
  let newHeaders := forwarded_headers req in
  let payload := if is_get_or_head (req_method req) then EmptyString else req_text req in
  awsSignedHeaders <- signAwsRequest (req_method req) s3Url newHeaders payload s3Config ;;
  let newHeaders :=
    fold_left (fun h kv => Headers.set h (fst kv) (snd kv))
              (SignedHeaders_entries awsSignedHeaders) newHeaders in
  originResp <- await_fetch
    (StorageFetch {| sr_url := s3Url;
                     sr_method := req_method req;
                     sr_headers := newHeaders;
                     sr_body := if is_get_or_head (req_method req) then None
                                else Some payload |}) ;;
  Ret {| status := or_status originResp;
         headers := response_headers req url origin allowed originResp;
         body := or_body originResp |}.

Definition fetch (req : Request) (env : Env) : Eff Response :=
  let url := req_url req in
  let origin := Headers.get (req_headers req) "Origin" in
  let allowed := allowed_origins env in
  if String.eqb (protocol url) "http:" && negb (truthy_opt (DISABLE_HTTPS_REDIRECT env)) then
    Ret (Response_redirect (URL_toString (URL_set_protocol url "https:")) 301)
  else if String.eqb (req_method req) "OPTIONS" then
    Ret {| status := 204;
           headers := preflight_cors_headers req url origin allowed;
           body := BodyNull |}
  else if String.eqb (req_method req) "POST" && String.eqb (pathname url) "/.purge" then
    handlePurgeRequest req env
  else proxy req url origin allowed.

End Handlers.

(** *** Start-up (server.js)

    The worker module is imported, which imports the configuration file;
    the import fails when the file is absent.  Nothing inspects the fields
    before the server listens. *)

Inductive server_state : Type :=
| ImportFailed
| Listening (config : S3Config).

Definition start_server (config_file : option S3Config) : server_state :=
  match config_file with
  | None => ImportFailed
  | Some config => Listening config
  end.

(** ** An example platform

    A small instance of [Platform], used to run the worker on concrete
    requests.  URLs are parsed for the [http] and [https] schemes; JSON is
    parsed without string escapes and with integer numbers; digests are
    collision-free by construction (the digest of a message is the message,
    a keyed digest is the key followed by the message). *)

Module Example.

Definition is_one_of (cs : string) (c : ascii) : bool :=
  existsb (Ascii.eqb c) (list_ascii_of_string cs).

(** The text before the first character satisfying [p], and the text from
    that character on. *)
Fixpoint break_at (p : ascii -> bool) (s : string) : string * string :=
  match s with
  | EmptyString => (EmptyString, EmptyString)
  | String c r =>
      if p c then (EmptyString, s)
      else let '(a, b) := break_at p r in (String c a, b)
  end.

Definition parse_after_scheme (scheme rest : string) : option URL :=
  let '(authority, tail) := break_at (is_one_of "/?#") rest in
  let '(path, tail') := break_at (is_one_of "?#") tail in
  let '(query, _) := break_at (is_one_of "#") tail' in
  let '(name, _) := break_at (is_one_of ":") authority in
  if truthy name then
    Some {| protocol := scheme;
            host := toLowerCase authority;
            hostname := toLowerCase name;
            pathname := if truthy path then path else "/";
            search := if String.eqb query "?" then EmptyString else query |}
  else None.

Definition parse_url (s : string) : option URL :=
  if String.prefix "https://" s then parse_after_scheme "https:" (JSString.drop 8 s)
  else if String.prefix "http://" s then parse_after_scheme "http:" (JSString.drop 7 s)
  else None.

Definition quote : ascii := "034".

(** The white space of the JSON grammar: tab, line feed, carriage return
    and space. *)
Definition is_json_space (c : ascii) : bool :=
  let n := nat_of_ascii c in
  (n =? 9)%nat || (n =? 10)%nat || (n =? 13)%nat || (n =? 32)%nat.

Fixpoint skip_ws (s : string) : string :=
  match s with
  | String c r => if is_json_space c then skip_ws r else s
  | EmptyString => EmptyString
  end.

Fixpoint read_string (s : string) : option (string * string) :=
  match s with
  | EmptyString => None
  | String c r =>
      if Ascii.eqb c quote then Some (EmptyString, r)
      else if Ascii.eqb c "\" then None
      else match read_string r with
           | Some (t, rest) => Some (String c t, rest)
           | None => None
           end
  end.

Definition is_digit (c : ascii) : bool :=
  let n := nat_of_ascii c in (48 <=? n)%nat && (n <=? 57)%nat.

Fixpoint read_digits (acc : Z) (s : string) : Z * string :=
  match s with
  | String c r =>
      if is_digit c then read_digits (10 * acc + Z.of_nat (nat_of_ascii c - 48)) r
      else (acc, s)
  | EmptyString => (acc, s)
  end.

Definition expect (word : string) (v : json) (s : string) : option (json * string) :=
  if String.prefix word s then Some (v, JSString.drop (String.length word) s) else None.

Fixpoint read_value (fuel : nat) (s : string) : option (json * string) :=
  match fuel with
  | O => None
  | S fuel' =>
      match skip_ws s with
      | EmptyString => None
      | String c r as s' =>
          if Ascii.eqb c quote then
            match read_string r with
            | Some (t, rest) => Some (JStr t, rest)
            | None => None
            end
          else if Ascii.eqb c "[" then
            match skip_ws r with
            | String "]" rest => Some (JArr [], rest)
            | _ =>
                match read_items fuel' r with
                | Some (items, rest) => Some (JArr items, rest)
                | None => None
                end
            end
          else if Ascii.eqb c "{" then
            match skip_ws r with
            | String "}" rest => Some (JObj [], rest)
            | _ =>
                match read_fields fuel' r with
                | Some (fields, rest) => Some (JObj fields, rest)
                | None => None
                end
            end
          else if Ascii.eqb c "-" then
            match r with
            | String d _ =>
                if is_digit d then let '(n, rest) := read_digits 0 r in Some (JNum (- n), rest)
                else None
            | EmptyString => None
            end
          else if is_digit c then
            let '(n, rest) := read_digits 0 s' in Some (JNum n, rest)
          else if Ascii.eqb c "n" then expect "null" JNull s'
          else if Ascii.eqb c "t" then expect "true" (JBool true) s'
          else if Ascii.eqb c "f" then expect "false" (JBool false) s'
          else None
      end
  end
with read_items (fuel : nat) (s : string) : option (list json * string) :=
  match fuel with
  | O => None
  | S fuel' =>
      match read_value fuel' s with
      | Some (v, rest) =>
          match skip_ws rest with
          | String "," rest' =>
              match read_items fuel' rest' with
              | Some (vs, rest'') => Some (v :: vs, rest'')
              | None => None
              end
          | String "]" rest' => Some ([v], rest')
          | _ => None
          end
      | None => None
      end
  end
with read_fields (fuel : nat) (s : string) : option (list (string * json) * string) :=
  match fuel with
  | O => None
  | S fuel' =>
      match skip_ws s with
      | String c r =>
          if Ascii.eqb c quote then
            match read_string r with
            | Some (k, rest) =>
                match skip_ws rest with
                | String ":" rest' =>
                    match read_value fuel' rest' with
                    | Some (v, rest'') =>
                        match skip_ws rest'' with
                        | String "," rest3 =>
                            match read_fields fuel' rest3 with
                            | Some (fs, rest4) =>
                                match JS.field k fs with
                                | Some _ => Some (fs, rest4)     (* a later duplicate wins *)
                                | None => Some ((k, v) :: fs, rest4)
                                end
                            | None => None
                            end
                        | String "}" rest3 => Some ([(k, v)], rest3)
                        | _ => None
                        end
                    | None => None
                    end
                | _ => None
                end
            | None => None
            end
          else None
      | EmptyString => None
      end
  end.

Definition parse_json (text : string) : option json :=
  match read_value (2 * String.length text + 2) text with
  | Some (v, rest) =>
      match skip_ws rest with
      | EmptyString => Some v
      | _ => None
      end
  | None => None
  end.

#[export] Instance platform : Platform := {|
  URL_parse := parse_url;
  URL_parse_empty := eq_refl;
  native_RegExp := fun _ => None;
  sha256_digest := fun message => message;
  hmac_sha256 := fun key message => key ++ message;
  JSON_parse := parse_json;
  JSON_parse_error := fun _ => "Unexpected token";
  error_message := fun e => match e with TypeError what | FetchFailed what => what end
|}.

End Example.

(** ** Vocabulary of the statements *)

(** Characters of a pattern string that the parser does not read as
    themselves; the dot is escaped by the worker and so is harmless. *)
Definition regex_meta (c : ascii) : bool :=
  Ascii.eqb c "(" || Ascii.eqb c ")" || Ascii.eqb c "|" || Ascii.eqb c "^" ||
  Ascii.eqb c "$" || Ascii.eqb c "\" || Ascii.eqb c "[" || Ascii.eqb c "{" ||
  Ascii.eqb c "*" || Ascii.eqb c "+" || Ascii.eqb c "?".

(** A configured domain written with ordinary characters, as every DNS
    name is. *)
Fixpoint plain_domain (d : string) : bool :=
  match d with
  | EmptyString => true
  | String c r => negb (regex_meta c) && plain_domain r
  end.

(** The pattern the worker compiles for a plain domain. *)
Fixpoint literal_terms (d : string) : list regex :=
  match d with
  | EmptyString => []
  | String c r => Chr c :: literal_terms r
  end.

Definition domain_regex (d : string) : regex :=
  Seq (Alt (Seq Bol Empty) (Seq (Chr ".") Empty))
      (seq_of (literal_terms d ++ [Eol])).

(** ** Sample inputs *)

Module Sample.

Import Example.

Definition config : S3Config :=
  {| bucket := Some "media";
     endpoint := Some "s3.eu-west-1.amazonaws.com";
     region := Some "eu-west-1";
     accessKeyId := Some "AKIDEXAMPLE";
     secretAccessKey := Some "wJalrXUtnFEMI" |}.

Definition env : Env :=
  {| CF_ZONE_ID := Some "zone-1";
     CF_API_TOKEN := Some "api-token";
     CF_PURGE_TOKEN := None;
     DISABLE_HTTPS_REDIRECT := None;
     ALLOWED_ORIGINS := Some "allowed.example, example.org" |}.

Definition cdn_url (path query : string) : URL :=
  {| protocol := "https:"; host := "cdn.example"; hostname := "cdn.example";
     pathname := path; search := query |}.

Definition request (method path : string) (hs : list (string * string)) (text : string)
  : Request :=
  {| req_method := method;
     req_url := cdn_url path EmptyString;
     req_headers := Headers.of_list hs;
     req_text := text |}.

(** A world whose storage origin answers every request with [status] and
    the given headers. *)
Definition world (status : nat) (hs : list (string * string)) : World :=
  {| clock := "2024-01-02T03:04:05.678Z";
     storage := fun _ =>
       Some {| or_status := status;
               or_headers := Headers.of_list hs;
               or_body := BodyText "payload" |};
     purge_api := fun _ =>
       Some {| pr_ok := true; pr_status := 200; pr_json := Some (JObj []) |} |}.

End Sample.

(** A header name that is in the purge-blocking set once lower-cased. *)
Definition blocked (name : string) : Prop :=
  toLowerCase name ∈ PURGE_BLOCKING_HEADERS.

(** No entry of the map has a blocked name. *)
Definition free_of_blocked (h : gmap string string) : Prop :=
  forall name, blocked name -> h !! name = None.

(** Every stored name is in lower case. *)
Definition lowercase_keys (h : gmap string string) : Prop :=
  forall name, is_Some (h !! name) -> toLowerCase name = name.

(** *** Routes of the entry point *)

(** The HTTPS-redirect check of step (1). *)
Definition redirected (req : Request) (env : Env) : bool :=
  String.eqb (protocol (req_url req)) "http:" &&
  negb (truthy_opt (DISABLE_HTTPS_REDIRECT env)).

(** The request is dispatched to the purge handler. *)
Definition purge_route (req : Request) : bool :=
  String.eqb (req_method req) "POST" && String.eqb (pathname (req_url req)) "/.purge".

(** A request that reaches the proxy pipeline: not redirected, not a
    preflight, not routed to the purge handler. *)
Definition proxied (req : Request) (env : Env) : Prop :=
  redirected req env = false /\
  req_method req <> "OPTIONS" /\
  purge_route req = false.

(** The header [Origin] as the entry point reads it. *)
Definition origin_of (req : Request) : option string :=
  Headers.get (req_headers req) "Origin".

(** The target URL of step (2). *)
Definition storage_url (config : S3Config) (url : URL) : string :=
  "https://" +:+ interpolate (bucket config) +:+ "." +:+
  interpolate (endpoint config) +:+ pathname url +:+ search url.

(** The payload that is signed and forwarded. *)
Definition payload_of (req : Request) : string :=
  if is_get_or_head (req_method req) then EmptyString else req_text req.

(** The outbound request of the proxy pipeline, once the storage URL has
    been parsed as [urlObj] and the clock has answered [now]. *)
Definition storage_request `{Platform} (config : S3Config) (req : Request)
    (urlObj : URL) (now : string) : StorageRequest :=
  {| sr_url := storage_url config (req_url req);
     sr_method := req_method req;
     sr_headers :=
       fold_left (fun h kv => Headers.set h (fst kv) (snd kv))
         (SignedHeaders_entries
            (sign_at now (req_method req) urlObj (payload_of req) config))
         (forwarded_headers config req);
     sr_body := if is_get_or_head (req_method req) then None
                else Some (payload_of req) |}.

(** The client response of the proxy pipeline for an origin response. *)
Definition proxy_response `{Platform} (req : Request) (env : Env)
    (originResp : OriginResponse) : Response :=
  {| status := or_status originResp;
     headers := response_headers req (req_url req) (origin_of req)
                  (allowed_origins env) originResp;
     body := or_body originResp |}.

(** *** File extensions, in the words of the specification

    The extension of a path is its last dot together with the non-empty
    text that follows it. *)

Fixpoint no_dot (t : string) : bool :=
  match t with
  | EmptyString => true
  | String c r => negb (Ascii.eqb c ".") && no_dot r
  end.

Definition is_extension (s : string) : bool :=
  match s with
  | String c t => Ascii.eqb c "." && truthy t && no_dot t
  | EmptyString => false
  end.

Fixpoint extension_of (s : string) : option string :=
  if is_extension s then Some s
  else match s with
       | EmptyString => None
       | String _ r => extension_of r
       end.

(** The path names a font asset. *)
Definition has_font_extension (path : string) : Prop :=
  exists ext, In ext FONT_EXTENSIONS /\ ends_with (toLowerCase path) ext.

(** *** The CORS decision, in the words of the specification *)

(** An Origin header is present and the host name of its URL is accepted by
    a pattern of the allowed-origin set. *)
Definition origin_hostname_matches `{Platform} (origin : option string)
    (allowed : list RegExp) : Prop :=
  exists o url pattern,
    origin = Some o /\ URL_parse o = Some url /\
    In pattern allowed /\ RegExp_test pattern (hostname url) = true.

(** The Origin header is absent or is the literal text [null]. *)
Definition origin_absent_or_null (origin : option string) : Prop :=
  origin = None \/ origin = Some "null".

Definition get_head_or_options (method : string) : Prop :=
  method = "GET" \/ method = "HEAD" \/ method = "OPTIONS".

(** The three headers of a grant. *)
Definition cors_granted (h : gmap string string) (allow_origin : string) : Prop :=
  Headers.get h "Access-Control-Allow-Origin" = Some allow_origin /\
  Headers.get h "Access-Control-Allow-Methods" = Some "GET, HEAD, OPTIONS" /\
  Headers.get h "Access-Control-Allow-Headers" = Some "Content-Type, Range".

Definition CORS_HEADER_NAMES : list string :=
  [ "Access-Control-Allow-Origin"; "Access-Control-Allow-Methods";
    "Access-Control-Allow-Headers"; "Access-Control-Max-Age" ].

(** The worker has set no CORS header: under each CORS name the map holds
    what [base] holds. *)
Definition cors_not_set (h base : gmap string string) : Prop :=
  forall name, In name CORS_HEADER_NAMES -> Headers.get h name = Headers.get base name.

(** The same request sent with another method. *)
Definition with_method (req : Request) (method : string) : Request :=
  {| req_method := method; req_url := req_url req;
     req_headers := req_headers req; req_text := req_text req |}.

(** The values a header map holds under the four CORS names. *)
Definition cors_header_set (h : gmap string string) : list (option string) :=
  map (Headers.get h) CORS_HEADER_NAMES.

(** *** Reading hexadecimal text back *)

Definition hex_value (c : ascii) : nat :=
  let n := nat_of_ascii c in
  if (n <? 58)%nat then n - 48 else n - 87.

Definition byte_of_hex (s : string) : option byte :=
  match s with
  | String hi (String lo EmptyString) => Byte.of_nat (16 * hex_value hi + hex_value lo)
  | _ => None
  end.

(** Two distinct inputs on which a function agrees. *)
Definition collision {A B : Type} (f : A -> B) : Prop :=
  exists x y, x <> y /\ f x = f y.

(** A storage configuration whose region and secret key are missing. *)
Definition partial_config : S3Config :=
  {| bucket := Some "media";
     endpoint := Some "s3.eu-west-1.amazonaws.com";
     region := None;
     accessKeyId := Some "AKIDEXAMPLE";
     secretAccessKey := None |}.

(** *** Purge requests, in the words of the specification *)

(** A purge secret is configured and the supplied token is not exactly
    that string. *)
Definition token_rejected (env : Env) (token : jsval) : Prop :=
  exists secret, CF_PURGE_TOKEN env = Some secret /\ secret <> EmptyString /\
                 token <> Some (JStr secret).

(** No purge secret is configured. *)
Definition no_purge_secret (env : Env) : Prop :=
  CF_PURGE_TOKEN env = None \/ CF_PURGE_TOKEN env = Some EmptyString.

(** A POST on the purge path that declares JSON and whose trimmed body
    parses to [body], with the zone id and the API token configured. *)
Definition well_formed_purge `{Platform} (req : Request) (env : Env) (body : json) : Prop :=
  redirected req env = false /\ purge_route req = true /\
  (exists contentType,
     Headers.get (req_headers req) "content-type" = Some contentType /\
     includes contentType "application/json" = true) /\
  trim (req_text req) <> EmptyString /\
  JSON_parse (trim (req_text req)) = Some body /\
  truthy_opt (CF_ZONE_ID env) = true /\ truthy_opt (CF_API_TOKEN env) = true.

(** The body [{"url": ["https://cdn.example/a.js"]}]: the url field is an
    array, not a string. *)
Definition array_url_body : string :=
  "{" +:+ dq +:+ "url" +:+ dq +:+ ": [" +:+ dq +:+ "https://cdn.example/a.js" +:+ dq +:+ "]}".

(** The handler answers with an error response, and is a leaf of the effect
    tree: no outbound call is made in any world. *)
Definition fails_before_any_call (m : Eff Response) (status : nat) (message : string)
  : Prop :=
  m = Ret (error_response status message) /\ forall w, calls w m = [].

(** The body [{"url": 42}]. *)
Definition numeric_url_body : string :=
  "{" +:+ dq +:+ "url" +:+ dq +:+ ": 42}".

Definition json_purge_request (text : string) : Request :=
  Sample.request "POST" "/.purge" [("Content-Type", "application/json")] text.

(** The body [{"url":"https://cdn.example/a.js"}]. *)
Definition plain_url_body : string :=
  "{" +:+ dq +:+ "url" +:+ dq +:+ ":" +:+ dq +:+ "https://cdn.example/a.js" +:+ dq +:+ "}".

(** *** The upstream request, in the words of the code

    The four header names the worker writes itself on the request to
    storage. *)
Definition WORKER_REQUEST_HEADERS : list string :=
  [ "host"; "x-amz-date"; "x-amz-content-sha256"; "authorization" ].

(** The value the worker writes under [Host]. *)
Definition storage_host (config : S3Config) : string :=
  interpolate (bucket config) +:+ "." +:+ interpolate (endpoint config).

(** *** The client response, in the words of the code

    The header names the response path of the worker writes or deletes,
    besides the purge-blocking ones. *)
Definition WORKER_RESPONSE_HEADERS : list string :=
  [ "content-type"; "accept-ranges"; "access-control-allow-origin";
    "access-control-allow-methods"; "access-control-allow-headers";
    "cache-control"; "vary"; "pragma"; "expires" ].

(** The media types of the five font extensions. *)
Definition FONT_MIME_TYPES : list string :=
  [ "font/woff"; "font/woff2"; "font/ttf"; "font/otf"; "application/vnd.ms-fontobject" ].

(** The Content-Type the purge handler reads, and its test. *)
Definition declares_json (req : Request) : bool :=
  includes (match Headers.get (req_headers req) "content-type" with
            | Some v => v
            | None => EmptyString
            end) "application/json".

(** The handler answers at once with this status and a JSON object. *)
Definition answers_json (m : Eff Response) (status : nat) (fields : list (string * json))
  : Prop :=
  m = Ret (json_response status (JObj fields)).

(** A request routed to the purge handler that declares JSON and whose
    trimmed text parses to [body]. *)
Definition parsed_purge `{Platform} (req : Request) (env : Env) (body : json) : Prop :=
  redirected req env = false /\ purge_route req = true /\
  declares_json req = true /\
  trim (req_text req) <> EmptyString /\
  JSON_parse (trim (req_text req)) = Some body.

(** A purge request that passes every check of the handler: the url field
    is [urlv], its text parses as [urlObj]. *)
Definition accepted_purge `{Platform} (req : Request) (env : Env) (body urlv : json)
    (urlObj : URL) : Prop :=
  well_formed_purge req env body /\
  ~ token_rejected env (prop body "token") /\
  prop body "url" = Some urlv /\ JS.truthy (Some urlv) = true /\
  URL_parse (JS.to_string urlv) = Some urlObj /\
  prop body "headers" <> Some JNull.


(** The field [k] of the headers object supplied in a purge body. *)
Definition supplied_header (body : json) (k : string) : jsval :=
  match prop body "headers" with
  | Some hv => prop hv k
  | None => None
  end.

(** The supplied headers are absent or an object with distinct keys, as
    every object read by [JSON.parse] is. *)
Definition headers_absent_or_object (body : json) : Prop :=
  prop body "headers" = None \/
  exists fs, prop body "headers" = Some (JObj fs) /\ NoDup (map fst fs).

(** The internal-error answer of a catch block. *)
Definition internal_error `{Platform} (e : exn) : Response :=
  json_response 500
    (JObj [ ("error", JStr "Internal server error");
            ("details", JStr (error_message e)) ]).

(** *** The signer's text formats *)

(** Reading the output of [toHex] back. *)
Fixpoint fromHex (s : string) : option (list byte) :=
  match s with
  | EmptyString => Some []
  | String hi (String lo r) =>
      match byte_of_hex (String hi (String lo EmptyString)), fromHex r with
      | Some b, Some bs => Some (b :: bs)
      | _, _ => None
      end
  | _ => None
  end.

Definition is_lower_hex (c : ascii) : bool :=
  in_range c ("0"%char, "9"%char) || in_range c ("a"%char, "f"%char).

(** A text of [n] decimal digits. *)
Definition digits (n : nat) (s : string) : Prop :=
  String.length s = n /\
  forallb (fun c => in_range c ("0"%char, "9"%char)) (list_ascii_of_string s) = true.

(** The text [Date.prototype.toISOString] returns for a year of four
    digits. *)
Definition iso_timestamp (YYYY MM DD hh mm ss mmm : string) : string :=
  YYYY +:+ "-" +:+ MM +:+ "-" +:+ DD +:+ "T" +:+ hh +:+ ":" +:+ mm +:+ ":" +:+ ss +:+
  "." +:+ mmm +:+ "Z".

(** ** The Node server (server.js)

    The server turns each [IncomingMessage] into a [Request], calls the
    worker's entry point and writes the [Response] back; an exception on the
    way is answered 500. *)

(** A value of the [headers] object of an [IncomingMessage]: a string, or
    an array of strings for a header Node keeps as a list. *)
Inductive node_header : Type :=
| HString (s : string)
| HArray (values : list string).

Record IncomingMessage : Type := {
  im_method : string;
  im_url : string;                            (* the request target *)
  im_headers : list (string * node_header);   (* the entries of [req.headers] *)
  im_body : string                            (* the chunks, concatenated *)
}.

(** The Set-Cookie header left on the [ServerResponse].  [forEach] visits
    the values of Set-Cookie one by one, under the same key, and [setHeader]
    replaces what an earlier call has set: of the values joined in the entry
    of the web response, the last one is left. *)
Inductive written_cookie : Type :=
| NoCookie
| LastOf (joined : string).

(** What the server writes on the [ServerResponse]: the status, the headers
    other than Set-Cookie, the Set-Cookie header, and the body. *)
Record ServerResponse : Type := {
  statusCode : nat;
  sent_headers : Headers.t;
  sent_cookie : written_cookie;
  sent_body : body_t
}.

(** [new Request(url, { method, ... })]: the parsed URL and the method of
    the request, [None] when the constructor throws (a text that is not a
    URL, a URL with credentials, a method that is not a token or that is
    forbidden). *)
Class NodePlatform : Type := {
  Request_new : string -> string -> option (URL * string)
}.

(** Property read [o[k]]. *)
Fixpoint node_get (k : string) (o : list (string * node_header)) : option node_header :=
  match o with
  | [] => None
  | (k', v) :: o' => if String.eqb k k' then Some v else node_get k o'
  end.

Definition header_truthy (v : option node_header) : bool :=
  match v with
  | None => false
  | Some (HString s) => truthy s
  | Some (HArray _) => true
  end.

(** ToString of a header value, as a template literal applies it. *)
Definition header_text (v : option node_header) : string :=
  match v with
  | None => "undefined"
  | Some (HString s) => s
  | Some (HArray values) => JS.join "," values
  end.

Section Server.

Context `{Platform} `{NodePlatform}.

Variable s3Config : S3Config.

Local Open Scope eff_scope.

Definition request_protocol (req : IncomingMessage) : string :=
  let forwarded := node_get "x-forwarded-proto" (im_headers req) in
  if header_truthy forwarded then header_text forwarded else "http".

Definition request_host (req : IncomingMessage) : string :=
  let forwarded := node_get "x-forwarded-host" (im_headers req) in
  let host := node_get "host" (im_headers req) in
  if header_truthy forwarded then header_text forwarded
  else if header_truthy host then header_text host
  else "localhost".

(** The loop over [Object.entries(req.headers)]. *)
Definition web_headers (entries : list (string * node_header)) : Headers.t :=
  fold_left
    (fun headers kv =>
       match snd kv with
       | HArray values => fold_left (fun h v => Headers.append h (fst kv) v) values headers
       | HString value => if truthy value then Headers.set headers (fst kv) value else headers
       end)
    entries Headers.empty.

Definition nodeRequestToWebRequest (req : IncomingMessage) : Eff Request :=
  let protocol := request_protocol req in
  let host := request_host req in
  let url := protocol +:+ "://" +:+ host +:+ im_url req in
  let body := im_body req in
  let headers := web_headers (im_headers req) in
  let with_body :=
    negb (String.eqb (im_method req) "GET") && negb (String.eqb (im_method req) "HEAD") &&
    (0 <? String.length body)%nat in
  match Request_new url (im_method req) with
  | None => Throw (TypeError "Failed to construct 'Request'")
  | Some (parsed, method) =>
      Ret {| req_method := method;
             req_url := parsed;
             req_headers := headers;
             req_text := if with_body then body else EmptyString |}
  end.

Definition webResponseToNodeResponse (webResponse : Response) : ServerResponse :=
  {| statusCode := status webResponse;
     sent_headers :=
       map_fold (fun key value res =>
                   if String.eqb key "set-cookie" then res
                   else Headers.set res key value)
                Headers.empty (headers webResponse);
     sent_cookie :=
       match Headers.get (headers webResponse) "set-cookie" with
       | Some joined => LastOf joined
       | None => NoCookie
       end;
     sent_body := body webResponse |}.

(** The answer of the catch block of [handleRequest]. *)
Definition server_error (error : exn) : ServerResponse :=
  {| statusCode := 500;
     sent_headers := Headers.set Headers.empty "Content-Type" "application/json";
     sent_cookie := NoCookie;
     sent_body := BodyJson (JObj [ ("error", JStr "Internal server error");
                                   ("details", JStr (error_message error)) ]) |}.

Definition handleRequest (req : IncomingMessage) (env : Env) : Eff ServerResponse :=
  try_catch
    (webRequest <- nodeRequestToWebRequest req ;;
     webResponse <- fetch s3Config webRequest env ;;
     Ret (webResponseToNodeResponse webResponse))
    (fun error => Ret (server_error error)).

End Server.

(** An example of the Request constructor: the URLs of the example
    platform, and every method but the three forbidden ones. *)
Module ExampleNode.

Definition request_new (url method : string) : option (URL * string) :=
  if bool_decide (toLowerCase method ∈ ["connect"; "trace"; "track"]) then None
  else match Example.parse_url url with
       | Some parsed => Some (parsed, method)
       | None => None
       end.

#[export] Instance node_platform : NodePlatform := {| Request_new := request_new |}.

End ExampleNode.

(** The header names of the entries are distinct and in lower case, as
    Node delivers them. *)
Definition node_header_names (entries : list (string * node_header)) : Prop :=
  NoDup (map fst entries) /\ forall k, In k (map fst entries) -> toLowerCase k = k.

(** What the worker reads under a name for a value of [req.headers]. *)
Definition web_header_value (v : option node_header) : option string :=
  match v with
  | None => None
  | Some (HString s) => if truthy s then Some s else None
  | Some (HArray []) => None
  | Some (HArray values) => Some (JS.join ", " values)
  end.

(** The pattern the worker compiles for an entry written [*.d], [d] a plain
    domain: the group of the prefix, starred, then the literal [.d]. *)
Definition wildcard_regex (d : string) : regex :=
  Seq (Star (Alt (Seq Bol Empty) (Seq (Chr ".") Empty)))
      (seq_of (literal_terms (String "." d) ++ [Eol])).

(** The text is [D] after any number of dots. *)
Fixpoint dotted (D s : string) : bool :=
  String.eqb s D ||
  match s with
  | String c s' => Ascii.eqb c "." && dotted D s'
  | EmptyString => false
  end.

(** The text holds no occurrence of the character. *)
Fixpoint free_of (sep : ascii) (s : string) : bool :=
  match s with
  | EmptyString => true
  | String c r => negb (Ascii.eqb c sep) && free_of sep r
  end.

(** The same URL with another path, and with another query. *)
Definition with_pathname (u : URL) (path : string) : URL :=
  {| protocol := protocol u; host := host u; hostname := hostname u;
     pathname := path; search := search u |}.

Definition with_search (u : URL) (query : string) : URL :=
  {| protocol := protocol u; host := host u; hostname := hostname u;
     pathname := pathname u; search := query |}.

(** The same request received under another scheme. *)
Definition with_protocol (req : Request) (p : string) : Request :=
  {| req_method := req_method req;
     req_url := URL_set_protocol (req_url req) p;
     req_headers := req_headers req;
     req_text := req_text req |}.

(** A status the Response constructor accepts: it throws a RangeError
    outside 200 to 599. *)
Definition constructible_status (s : nat) : Prop := (200 <= s <= 599)%nat.


(** The shapes of the effect trees inside the purge handler's try block: a
    JSON answer or an exception, possibly after one call to the purge
    API. *)
Inductive answers_or_throws : Eff Response -> Prop :=
| aot_answer (status : nat) (j : json) : answers_or_throws (Ret (json_response status j))
| aot_throw (e : exn) : answers_or_throws (Throw e).

Inductive purge_shape : Eff Response -> Prop :=
| ps_leaf (m : Eff Response) : answers_or_throws m -> purge_shape m
| ps_call (c : PurgeCall) (k : option PurgeReply -> Eff Response) :
    (forall reply, answers_or_throws (k reply)) -> purge_shape (Vis (PurgeFetch c) k).

(** The one case in which the preflight branch and the response path part:
    the path is not a font, no allowed domain matches, the Origin header is
    absent or [null], and the method of the final request is neither GET nor
    HEAD. *)
Definition unsafe_method_without_origin `{Platform} (req : Request) (env : Env) : Prop :=
  ~ has_font_extension (pathname (req_url req)) /\
  ~ origin_hostname_matches (origin_of req) (allowed_origins env) /\
  origin_absent_or_null (origin_of req) /\
  req_method req <> "GET" /\ req_method req <> "HEAD".

(** * Verified properties *)

(** ** Strings *)

Lemma append_nil (b : string) : EmptyString +:+ b = b.
Proof. reflexivity. Qed.

Lemma append_cons (c : ascii) (a b : string) : String c a +:+ b = String c (a +:+ b).
Proof. reflexivity. Qed.

Ltac push_append := rewrite ?append_cons, ?append_nil.

Lemma append_empty_r (s : string) : s +:+ EmptyString = s.
Proof. induction s as [|c s IH]; push_append; [reflexivity | now f_equal]. Qed.

Lemma append_assoc (a b c : string) : (a +:+ b) +:+ c = a +:+ (b +:+ c).
Proof. induction a as [|x a IH]; push_append; [reflexivity | now f_equal]. Qed.

Lemma append_inv_head (p a b : string) : p +:+ a = p +:+ b -> a = b.
Proof.
  induction p as [|x p IH]; push_append; intros Hab; [exact Hab|].
  injection Hab as Hab. now apply IH.
Qed.

Lemma append_length (a b : string) :
  String.length (a +:+ b) = (String.length a + String.length b)%nat.
Proof. induction a as [|x a IH]; push_append; simpl; [reflexivity | now f_equal]. Qed.

(** Two concatenations with heads of equal length agree part by part. *)
Lemma append_inj_same_length (a1 a2 b1 b2 : string) :
  String.length a1 = String.length a2 ->
  a1 +:+ b1 = a2 +:+ b2 -> a1 = a2 /\ b1 = b2.
Proof.
  revert a2. induction a1 as [|x a1 IH]; intros [|y a2]; push_append; simpl;
    intros Hlen Heq; try discriminate.
  - split; [reflexivity | exact Heq].
  - injection Heq as -> Heq. injection Hlen as Hlen.
    destruct (IH _ Hlen Heq) as [-> ->]. split; reflexivity.
Qed.

Lemma ends_with_refl (s : string) : ends_with s s.
Proof. exists EmptyString. reflexivity. Qed.

(** ** Regular expressions: the domain patterns *)

Lemma regex_meta_false (c : ascii) :
  regex_meta c = false ->
  Ascii.eqb c "(" = false /\ Ascii.eqb c ")" = false /\ Ascii.eqb c "|" = false /\
  Ascii.eqb c "^" = false /\ Ascii.eqb c "$" = false /\ Ascii.eqb c "\" = false /\
  Ascii.eqb c "[" = false /\ Ascii.eqb c "{" = false /\ quantifier_of c = None.
Proof.
  unfold regex_meta, quantifier_of. intros Hm.
  repeat (apply orb_false_elim in Hm; destruct Hm as [Hm ?]).
  repeat split; try assumption.
  now repeat match goal with Hc : Ascii.eqb c _ = false |- _ => rewrite Hc; clear Hc end.
Qed.

(** Reading the escaped text of a plain domain pushes one literal per
    character and leaves the parser after an atom. *)
Lemma parse_loop_escaped_plain (d : string) :
  plain_domain d = true ->
  forall (tail : string) (p : prev) (f : frame) (stack : list frame),
    parse_loop (escape_dots d +:+ tail) p f stack =
    parse_loop tail
      (match d with EmptyString => p | _ => PAtom end)
      (Frame (alts f) (rev (literal_terms d) ++ terms f)) stack.
Proof.
  induction d as [|c d IH]; intros Hplain tail p f stack.
  - simpl. now destruct f.
  - simpl in Hplain. apply andb_prop in Hplain as [Hc Hd].
    apply negb_true_iff in Hc.
    destruct (regex_meta_false _ Hc) as (H1 & H2 & H3 & H4 & H5 & H6 & H7 & H8 & H9).
    assert (Hstep : parse_loop (escape_dots (String c d) +:+ tail) p f stack =
                    parse_loop (escape_dots d +:+ tail) PAtom (push_term (Chr c) f) stack).
    { simpl escape_dots. destruct (Ascii.eqb c ".") eqn:Hdot.
      - apply Ascii.eqb_eq in Hdot. subst c. reflexivity.
      - push_append. cbn [parse_loop].
        rewrite H1, H2, H3, H4, H5, Hdot, H6, H7, H8, H9. reflexivity. }
    rewrite Hstep, (IH Hd). cbn [push_term alts terms literal_terms rev].
    rewrite <- app_assoc. cbn [app].
    now destruct d.
Qed.

Lemma parse_domain_pattern (d : string) :
  plain_domain d = true ->
  parse (domain_pattern_source d) = Parsed (domain_regex d).
Proof.
  intros Hplain. unfold parse, domain_pattern_source.
  change ("(^|\.)" +:+ escape_dots d +:+ "$")
    with (String "(" (String "^" (String "|" (String "\" (String "." (String ")"
           (escape_dots d +:+ "$"))))))).
  cbn [parse_loop Ascii.eqb Bool.eqb orb is_alnum quantifier_of].
  cbn -[parse_loop escape_dots String.append].
  rewrite (parse_loop_escaped_plain d Hplain).
  unfold domain_regex.
  destruct d; cbn; rewrite ?rev_app_distr, ?rev_involutive; reflexivity.
Qed.

Lemma append_inv_tail (a b t : string) : a +:+ t = b +:+ t -> a = b.
Proof.
  intros Heq.
  assert (Hlen : String.length a = String.length b).
  { apply (f_equal String.length) in Heq. rewrite !append_length in Heq. lia. }
  now destruct (append_inj_same_length _ _ _ _ Hlen Heq).
Qed.

Lemma string_eqb_cons (c c' : ascii) (s s' : string) :
  String.eqb (String c s) (String c' s') = Ascii.eqb c c' && String.eqb s s'.
Proof. simpl. destruct (Ascii.eqb c c'); reflexivity. Qed.

Lemma seq_of_cons (t : regex) (ts : list regex) : seq_of (t :: ts) = Seq t (seq_of ts).
Proof. reflexivity. Qed.

Lemma char_matcher_cons (p : ascii -> bool) (b : bool) (c : ascii) (s : string) (k : Continuation) :
  char_matcher p (State b (String c s)) k = if p c then k (State false s) else None.
Proof. reflexivity. Qed.

Lemma char_matcher_nil (p : ascii -> bool) (b : bool) (k : Continuation) :
  char_matcher p (State b EmptyString) k = None.
Proof. reflexivity. Qed.

Lemma literal_terms_matcher (d : string) :
  forall (b : bool) (s : string) (k : Continuation),
    matcher (seq_of (literal_terms d ++ [Eol])) (State b s) k =
    if String.eqb s d
    then k (State (match d with EmptyString => b | _ => false end) EmptyString)
    else None.
Proof.
  induction d as [|c d IH]; intros b s k.
  - destruct s; reflexivity.
  - cbn [literal_terms app]. rewrite seq_of_cons. cbn [matcher].
    destruct s as [|c' s]; [reflexivity|].
    rewrite char_matcher_cons, string_eqb_cons, (Ascii.eqb_sym c' c).
    destruct (Ascii.eqb c c'); [|reflexivity].
    rewrite IH. cbn [andb]. destruct (String.eqb s d); [|reflexivity].
    now destruct d.
Qed.

Lemma domain_regex_matcher (d : string) (b : bool) (s : string) :
  match_here (domain_regex d) (State b s) =
  if b && String.eqb s d
  then Some (State (match d with EmptyString => b | _ => false end) EmptyString)
  else if String.eqb s (String "." d) then Some (State false EmptyString)
  else None.
Proof.
  unfold match_here, domain_regex. cbn [matcher at_start].
  destruct b; cbn [andb].
  - rewrite literal_terms_matcher. destruct (String.eqb s d); [reflexivity|].
    destruct s as [|c s]; [reflexivity|].
    rewrite char_matcher_cons, string_eqb_cons, (Ascii.eqb_sym c ".").
    destruct (Ascii.eqb "." c); [|reflexivity].
    rewrite literal_terms_matcher. cbn [andb].
    destruct (String.eqb s d); [now destruct d | reflexivity].
  - destruct s as [|c s]; [reflexivity|].
    rewrite char_matcher_cons, string_eqb_cons, (Ascii.eqb_sym c ".").
    destruct (Ascii.eqb "." c); [|reflexivity].
    rewrite literal_terms_matcher. cbn [andb].
    destruct (String.eqb s d); [now destruct d | reflexivity].
Qed.

Lemma domain_regex_match_here (d : string) (b : bool) (s : string) :
  is_Some (match_here (domain_regex d) (State b s)) <->
  (b = true /\ s = d) \/ s = String "." d.
Proof.
  rewrite domain_regex_matcher. split.
  - destruct b; cbn [andb].
    + destruct (String.eqb s d) eqn:Hsd.
      * apply String.eqb_eq in Hsd. now left.
      * destruct (String.eqb s (String "." d)) eqn:Hsd'.
        -- apply String.eqb_eq in Hsd'. now right.
        -- intros [? Hx]; discriminate.
    + destruct (String.eqb s (String "." d)) eqn:Hsd'.
      * apply String.eqb_eq in Hsd'. now right.
      * intros [? Hx]; discriminate.
  - intros [[-> ->] | ->].
    + cbn [andb]. rewrite String.eqb_refl. eexists; reflexivity.
    + rewrite String.eqb_refl. destruct (b && _); eexists; reflexivity.
Qed.

(** [exec] succeeds when the pattern matches at the start or at some later
    position. *)
Lemma exec_from_is_Some (r : regex) (s : string) :
  forall (b : bool) (before : string),
    is_Some (exec_from r b before s) <->
    is_Some (match_here r (State b s)) \/
    exists pre suf, pre <> EmptyString /\ s = pre +:+ suf /\
                    is_Some (match_here r (State false suf)).
Proof.
  induction s as [|c s IH]; intros b before.
  - cbn [exec_from]. destruct (match_here r (State b EmptyString)) eqn:Hm.
    + split; [intros _; left; eexists; reflexivity | intros _; eexists; reflexivity].
    + split.
      * intros [? Hx]; discriminate.
      * intros [[? Hx] | (pre & suf & Hpre & Heq & _)]; [discriminate|].
        destruct pre; [congruence | discriminate].
  - cbn [exec_from]. destruct (match_here r (State b (String c s))) eqn:Hm.
    + split; [intros _; left; eexists; reflexivity | intros _; eexists; reflexivity].
    + rewrite IH. split.
      * intros [Hhere | (pre & suf & Hpre & -> & Hsuf)]; right.
        -- exists (String c EmptyString), s. repeat split; [discriminate | assumption].
        -- exists (String c pre), suf. repeat split; [discriminate | assumption].
      * intros [[? Hx] | (pre & suf & Hpre & Heq & Hsuf)]; [discriminate|].
        destruct pre as [|c' pre]; [congruence|].
        rewrite append_cons in Heq. injection Heq as -> ->.
        destruct pre as [|c'' pre].
        -- left. exact Hsuf.
        -- right. exists (String c'' pre), suf. repeat split; [discriminate | assumption].
Qed.

Lemma test_domain_regex (d h : string) :
  Regex.test (domain_regex d) h = true <-> h = d \/ ends_with h ("." +:+ d).
Proof.
  unfold Regex.test, exec.
  assert (Hsome : forall o : option (string * string * string),
             (match o with Some _ => true | None => false end) = true <-> is_Some o).
  { intros [x|]; split; intros Hx; try discriminate; try (eexists; reflexivity).
    destruct Hx; discriminate. }
  rewrite Hsome, exec_from_is_Some. setoid_rewrite domain_regex_match_here. split.
  - intros [[[_ ->] | ->] | (pre & suf & Hpre & -> & [[Hf _] | ->])];
      try discriminate.
    + now left.
    + right. exists EmptyString. reflexivity.
    + right. exists pre. reflexivity.
  - intros [-> | [pre ->]].
    + left. now left.
    + destruct pre as [|c pre].
      * left. right. reflexivity.
      * right. exists (String c pre), (String "." d). repeat split; [discriminate|].
        now right.
Qed.

Lemma test_domain_regex_no_separator (d x : string) :
  x <> EmptyString -> ~ ends_with x "." ->
  Regex.test (domain_regex d) (x +:+ d) = false.
Proof.
  intros Hx Hdot. apply not_true_iff_false. rewrite test_domain_regex.
  intros [Heq | [pre Heq]].
  - apply (append_inv_tail x EmptyString d) in Heq. contradiction.
  - change ("." +:+ d) with (String "." EmptyString +:+ d) in Heq.
    rewrite <- append_assoc in Heq. apply append_inv_tail in Heq.
    apply Hdot. exists pre. exact Heq.
Qed.

(** ** C8: the allowed-origin set *)

Section AllowedOrigins.

Context `{Platform}.

Lemma RegExp_new_plain_domain (d : string) :
  plain_domain d = true ->
  RegExp_new (domain_pattern_source d) = Some (Modelled (domain_regex d)).
Proof. intros Hplain. unfold RegExp_new. now rewrite parse_domain_pattern. Qed.

Lemma compile_domains_plain (ds : list string) :
  (forall d, In d ds -> plain_domain d = true) ->
  compile_domains ds = Some (map (fun d => Modelled (domain_regex d)) ds).
Proof.
  induction ds as [|d ds IH]; intros Hplain; [reflexivity|].
  cbn [compile_domains map].
  rewrite RegExp_new_plain_domain by (apply Hplain; now left).
  rewrite IH by (intros d' Hd'; apply Hplain; now right).
  reflexivity.
Qed.

Lemma allowed_origins_plain (env : Env) (text : string) :
  ALLOWED_ORIGINS env = Some text -> text <> EmptyString ->
  (forall d, In d (configured_domains text) -> plain_domain d = true) ->
  allowed_origins env = map (fun d => Modelled (domain_regex d)) (configured_domains text).
Proof.
  intros Henv Htext Hplain. unfold allowed_origins. rewrite Henv.
  assert (Htruthy : truthy text = true).
  { unfold truthy. apply negb_true_iff. apply String.eqb_neq. exact Htext. }
  rewrite Htruthy. now rewrite compile_domains_plain.
Qed.

Lemma truthy_true (s : string) : truthy s = true <-> s <> EmptyString.
Proof.
  unfold truthy. rewrite negb_true_iff. apply String.eqb_neq.
Qed.

(** The worker's check, for an origin that parses, is a search through the
    patterns for one that accepts the host name. *)
Lemma isOriginAllowed_parsed (origin : string) (url : URL) (allowed : list RegExp) :
  origin <> EmptyString -> URL_parse origin = Some url ->
  isOriginAllowed (Some origin) allowed =
  existsb (fun pattern => RegExp_test pattern (hostname url)) allowed.
Proof.
  intros Hne Hurl. unfold isOriginAllowed.
  apply truthy_true in Hne. now rewrite Hne, Hurl.
Qed.

(** C8. With the allowed-origin set built from a list of plain domains, an
    Origin header whose URL has host name [h] is accepted exactly when, for
    some configured domain [d], [h = d] or [h] ends with [.d]; and when the
    list holds a single domain [d], a host name [x ++ d] where [x] is not
    empty and does not end with a dot is rejected. *)
Theorem allowed_origin_matches_domain_or_subdomain
    (env : Env) (text origin : string) (url : URL) :
  ALLOWED_ORIGINS env = Some text -> text <> EmptyString ->
  (forall d, In d (configured_domains text) -> plain_domain d = true) ->
  origin <> EmptyString -> URL_parse origin = Some url ->
  (isOriginAllowed (Some origin) (allowed_origins env) = true <->
   exists d, In d (configured_domains text) /\
             (hostname url = d \/ ends_with (hostname url) ("." +:+ d))) /\
  (forall d x, configured_domains text = [d] ->
               hostname url = x +:+ d -> x <> EmptyString -> ~ ends_with x "." ->
               isOriginAllowed (Some origin) (allowed_origins env) = false).
Proof.
  intros Henv Htext Hplain Horigin Hurl.
  rewrite isOriginAllowed_parsed with (url := url) by assumption.
  rewrite allowed_origins_plain with (text := text) by assumption. split.
  - rewrite existsb_exists. split.
    + intros (p & Hin & Htest). apply in_map_iff in Hin as (d & <- & Hd).
      exists d. split; [exact Hd|]. now apply test_domain_regex.
    + intros (d & Hd & Hmatch). exists (Modelled (domain_regex d)). split.
      * apply in_map_iff. now exists d.
      * now apply test_domain_regex.
  - intros d x Hsingle Hhost Hx Hdot. rewrite Hsingle. cbn [map existsb RegExp_test].
    rewrite Hhost, test_domain_regex_no_separator by assumption. reflexivity.
Qed.

End AllowedOrigins.

Import Example.

Lemma allowed_origin_matches_domain_or_subdomain_witness :
  let url := {| protocol := "https:"; host := "img.allowed.example";
                hostname := "img.allowed.example"; pathname := "/"; search := EmptyString |} in
  URL_parse "https://img.allowed.example" = Some url /\
  ((isOriginAllowed (Some "https://img.allowed.example") (allowed_origins Sample.env) = true <->
    exists d, In d (configured_domains "allowed.example, example.org") /\
              (hostname url = d \/ ends_with (hostname url) ("." +:+ d))) /\
   (forall d x, configured_domains "allowed.example, example.org" = [d] ->
                hostname url = x +:+ d -> x <> EmptyString -> ~ ends_with x "." ->
                isOriginAllowed (Some "https://img.allowed.example")
                  (allowed_origins Sample.env) = false)).
Proof.
  intros url. split; [reflexivity|].
  apply (@allowed_origin_matches_domain_or_subdomain Example.platform Sample.env
           "allowed.example, example.org" "https://img.allowed.example" url).
  - reflexivity.
  - discriminate.
  - intros d Hd. vm_compute in Hd. destruct Hd as [<- | [<- | []]]; reflexivity.
  - discriminate.
  - reflexivity.
Defined.

(** ** Header maps *)

Lemma lower_ascii_idem (c : ascii) : lower_ascii (lower_ascii c) = lower_ascii c.
Proof. destruct c as [[] [] [] [] [] [] [] []]; reflexivity. Qed.

Lemma toLowerCase_idem (s : string) : toLowerCase (toLowerCase s) = toLowerCase s.
Proof.
  induction s as [|c s IH]; [reflexivity|].
  cbn [toLowerCase]. now rewrite lower_ascii_idem, IH.
Qed.

(** Evaluate [toLowerCase] on the literal names of the code. *)
Ltac lower_names :=
  repeat match goal with
         | |- context [toLowerCase (String ?c ?s)] =>
             let v := eval vm_compute in (toLowerCase (String c s)) in
             change (toLowerCase (String c s)) with v
         end.


Lemma blocked_lower (name : string) : blocked (toLowerCase name) <-> blocked name.
Proof. unfold blocked. now rewrite toLowerCase_idem. Qed.

Lemma free_of_blocked_has (h : gmap string string) (name : string) :
  free_of_blocked h -> blocked name -> Headers.has h name = false.
Proof.
  intros Hfree Hb. unfold Headers.has. apply bool_decide_eq_false.
  rewrite (Hfree (toLowerCase name)) by now apply blocked_lower.
  intros [? Hx]; discriminate.
Qed.

Lemma free_of_blocked_empty : free_of_blocked ∅.
Proof. intros name _. apply lookup_empty. Qed.

Lemma free_of_blocked_set (h : gmap string string) (name value : string) :
  ~ blocked name -> free_of_blocked h -> free_of_blocked (Headers.set h name value).
Proof.
  intros Hnb Hfree k Hk. unfold Headers.set.
  destruct (decide (toLowerCase name = k)) as [<-|Hne].
  - exfalso. apply Hnb. now apply blocked_lower.
  - rewrite lookup_insert_ne by exact Hne. now apply Hfree.
Qed.

Lemma free_of_blocked_delete (h : gmap string string) (name : string) :
  free_of_blocked h -> free_of_blocked (Headers.delete h name).
Proof.
  intros Hfree k Hk. unfold Headers.delete.
  destruct (decide (toLowerCase name = k)) as [<-|Hne].
  - apply lookup_delete_eq.
  - rewrite lookup_delete_ne by exact Hne. now apply Hfree.
Qed.

Lemma lowercase_keys_empty : lowercase_keys ∅.
Proof. intros name [? Hx]. rewrite lookup_empty in Hx. discriminate. Qed.

Lemma lowercase_keys_insert (h : gmap string string) (name value : string) :
  lowercase_keys h -> lowercase_keys (<[toLowerCase name := value]> h).
Proof.
  intros Hlow k Hk.
  destruct (decide (toLowerCase name = k)) as [<-|Hne].
  - apply toLowerCase_idem.
  - rewrite lookup_insert_ne in Hk by exact Hne. now apply Hlow.
Qed.

Lemma lowercase_keys_set (h : gmap string string) (name value : string) :
  lowercase_keys h -> lowercase_keys (Headers.set h name value).
Proof. apply lowercase_keys_insert. Qed.

Lemma lowercase_keys_append (h : gmap string string) (name value : string) :
  lowercase_keys h -> lowercase_keys (Headers.append h name value).
Proof.
  intros Hlow. unfold Headers.append.
  destruct (h !! toLowerCase name); now apply lowercase_keys_insert.
Qed.

Lemma lowercase_keys_delete (h : gmap string string) (name : string) :
  lowercase_keys h -> lowercase_keys (Headers.delete h name).
Proof.
  intros Hlow k Hk. unfold Headers.delete in Hk.
  destruct (decide (toLowerCase name = k)) as [<-|Hne].
  - rewrite lookup_delete_eq in Hk. destruct Hk; discriminate.
  - rewrite lookup_delete_ne in Hk by exact Hne. now apply Hlow.
Qed.

(** [new Headers(init)] stores lower-case names only. *)
Lemma lowercase_keys_copy (init : gmap string string) :
  lowercase_keys (Headers.copy init).
Proof.
  unfold Headers.copy.
  apply (map_fold_weak_ind (fun acc _ => lowercase_keys acc)).
  - apply lowercase_keys_empty.
  - intros name value m acc _ IH. now apply lowercase_keys_append.
Qed.

Lemma lowercase_keys_fold_delete (names : list string) (h : gmap string string) :
  lowercase_keys h -> lowercase_keys (fold_left Headers.delete names h).
Proof.
  revert h. induction names as [|n names IH]; intros h Hlow; [exact Hlow|].
  cbn [fold_left]. apply IH. now apply lowercase_keys_delete.
Qed.

Lemma fold_delete_lookup_other (names : list string) (h : gmap string string) (k : string) :
  (forall n, In n names -> toLowerCase n <> k) ->
  fold_left Headers.delete names h !! k = h !! k.
Proof.
  revert h. induction names as [|n names IH]; intros h Hne; [reflexivity|].
  cbn [fold_left]. rewrite IH by (intros n' Hn'; apply Hne; now right).
  unfold Headers.delete. apply lookup_delete_ne. apply Hne. now left.
Qed.

Lemma fold_delete_lookup_None (names : list string) (h : gmap string string) (k : string) :
  h !! k = None -> fold_left Headers.delete names h !! k = None.
Proof.
  revert h. induction names as [|n names IH]; intros h Hk; [exact Hk|].
  cbn [fold_left]. apply IH. unfold Headers.delete.
  apply lookup_delete_None. now right.
Qed.

Lemma fold_delete_lookup_deleted (names : list string) (h : gmap string string) (k : string) :
  (exists n, In n names /\ toLowerCase n = k) ->
  fold_left Headers.delete names h !! k = None.
Proof.
  revert h. induction names as [|n names IH]; intros h (n' & Hin & Hk); [destruct Hin|].
  cbn [fold_left]. destruct (decide (toLowerCase n = k)) as [Heq | Hne].
  - apply fold_delete_lookup_None. unfold Headers.delete. rewrite Heq.
    apply lookup_delete_eq.
  - apply IH. destruct Hin as [-> | Hin]; [contradiction|]. now exists n'.
Qed.

Lemma blocked_elim (name : string) :
  blocked name -> In (toLowerCase name) PURGE_BLOCKING_HEADERS.
Proof. unfold blocked. intros Hb. now apply list_elem_of_In. Qed.

Lemma purge_blocking_lowercase (n : string) :
  In n PURGE_BLOCKING_HEADERS -> toLowerCase n = n.
Proof.
  intros Hn. repeat (destruct Hn as [<- | Hn]; [reflexivity|]). destruct Hn.
Qed.

(** After the deletion loop over the purge-blocking names, a map with
    lower-case names has no blocked entry. *)
Lemma free_of_blocked_fold_delete (h : gmap string string) :
  lowercase_keys h ->
  free_of_blocked (fold_left Headers.delete PURGE_BLOCKING_HEADERS h).
Proof.
  intros Hlow name Hb.
  destruct (fold_left Headers.delete PURGE_BLOCKING_HEADERS h !! name) as [v|] eqn:Hv;
    [|reflexivity].
  exfalso.
  assert (Hname : toLowerCase name = name).
  { apply (lowercase_keys_fold_delete PURGE_BLOCKING_HEADERS Hlow). now exists v. }
  rewrite fold_delete_lookup_deleted in Hv; [discriminate|].
  exists name. split; [|exact Hname].
  rewrite <- Hname. now apply blocked_elim.
Qed.

(** The copy loop of the upstream request builder keeps blocked names
    out. *)
Lemma free_of_blocked_forward_loop (h : gmap string string) :
  free_of_blocked
    (map_fold
       (fun key value newHeaders =>
          let lowerKey := toLowerCase key in
          if bool_decide (lowerKey ∈ PURGE_BLOCKING_HEADERS) then newHeaders
          else Headers.set newHeaders key value)
       Headers.empty h).
Proof.
  apply (map_fold_weak_ind (fun acc _ => free_of_blocked acc)).
  - apply free_of_blocked_empty.
  - intros key value m acc _ IH. cbv zeta. case_bool_decide as Hin; [exact IH|].
    now apply free_of_blocked_set.
Qed.

Lemma not_blocked_literal (name : string) :
  bool_decide (toLowerCase name ∈ PURGE_BLOCKING_HEADERS) = false -> ~ blocked name.
Proof. intros Hdec. now apply bool_decide_eq_false in Hdec. Qed.

(** ** The routes of [fetch] *)

Section Routes.

Context `{Platform}.

Variable config : S3Config.

Lemma string_eqb_false (a b : string) : a <> b -> String.eqb a b = false.
Proof. apply String.eqb_neq. Qed.


Lemma fetch_redirected (req : Request) (env : Env) :
  redirected req env = true ->
  fetch config req env =
  Ret (Response_redirect (URL_toString (URL_set_protocol (req_url req) "https:")) 301).
Proof. unfold fetch, redirected. now intros ->. Qed.

Lemma fetch_preflight (req : Request) (env : Env) :
  redirected req env = false -> req_method req = "OPTIONS" ->
  fetch config req env =
  Ret {| status := 204;
         headers := preflight_cors_headers req (req_url req) (origin_of req)
                      (allowed_origins env);
         body := BodyNull |}.
Proof. unfold fetch, redirected. now intros -> ->. Qed.

Lemma fetch_purge (req : Request) (env : Env) :
  redirected req env = false -> purge_route req = true ->
  fetch config req env = handlePurgeRequest req env.
Proof.
  unfold fetch, redirected, purge_route. intros -> Hp.
  apply andb_prop in Hp as [Hm Hpath]. rewrite Hm, Hpath.
  apply String.eqb_eq in Hm. now rewrite Hm.
Qed.

Lemma fetch_proxied (req : Request) (env : Env) :
  proxied req env ->
  fetch config req env =
  proxy config req (req_url req) (origin_of req) (allowed_origins env).
Proof.
  unfold fetch, proxied, redirected, purge_route. intros (-> & Hm & ->).
  now rewrite (string_eqb_false Hm).
Qed.

(** The proxy pipeline parses the storage URL, reads the clock once, calls
    the storage origin once and answers from its response. *)
Lemma run_proxy (req : Request) (env : Env) (w : World) :
  run w (proxy config req (req_url req) (origin_of req) (allowed_origins env)) =
  match URL_parse (storage_url config (req_url req)) with
  | None => inr (TypeError "Invalid URL")
  | Some urlObj =>
      match storage w (storage_request config req urlObj (clock w)) with
      | Some originResp => inl (proxy_response req env originResp)
      | None => inr (FetchFailed "fetch failed")
      end
  end.
Proof.
  unfold proxy, signAwsRequest, storage_url.
  destruct (URL_parse _) as [urlObj|]; [|reflexivity].
  cbn [bind trigger await_fetch run answer].
  match goal with |- context [storage w ?rq] => destruct (storage w rq) eqn:Hst end;
    unfold storage_request, storage_url, payload_of; rewrite Hst; reflexivity.
Qed.

Lemma calls_proxy (req : Request) (env : Env) (w : World) :
  calls w (proxy config req (req_url req) (origin_of req) (allowed_origins env)) =
  match URL_parse (storage_url config (req_url req)) with
  | None => []
  | Some urlObj => [CallStorage (storage_request config req urlObj (clock w))]
  end.
Proof.
  unfold proxy, signAwsRequest, storage_url.
  destruct (URL_parse _) as [urlObj|]; [|reflexivity].
  cbn [bind trigger await_fetch calls call_of answer app].
  match goal with |- context [storage w ?rq] => destruct (storage w rq) end; reflexivity.
Qed.

Lemma run_proxied (req : Request) (env : Env) (w : World) (urlObj : URL) :
  proxied req env ->
  URL_parse (storage_url config (req_url req)) = Some urlObj ->
  run w (fetch config req env) =
  match storage w (storage_request config req urlObj (clock w)) with
  | Some originResp => inl (proxy_response req env originResp)
  | None => inr (FetchFailed "fetch failed")
  end.
Proof.
  intros Hp Hurl. rewrite fetch_proxied, run_proxy, Hurl by assumption. reflexivity.
Qed.

Lemma calls_proxied (req : Request) (env : Env) (w : World) (urlObj : URL) :
  proxied req env ->
  URL_parse (storage_url config (req_url req)) = Some urlObj ->
  calls w (fetch config req env) =
  [CallStorage (storage_request config req urlObj (clock w))].
Proof.
  intros Hp Hurl. rewrite fetch_proxied, calls_proxy, Hurl by assumption. reflexivity.
Qed.

End Routes.

(** ** C3: purge-blocking headers in both directions *)

Section PurgeBlocking.

Context `{Platform}.

Variable config : S3Config.

Ltac literal_not_blocked := apply not_blocked_literal; vm_compute; reflexivity.

Lemma free_of_blocked_forwarded_headers (req : Request) :
  free_of_blocked (forwarded_headers config req).
Proof.
  unfold forwarded_headers. apply free_of_blocked_set; [literal_not_blocked|].
  apply free_of_blocked_forward_loop.
Qed.

Lemma free_of_blocked_storage_request (req : Request) (urlObj : URL) (now : string) :
  free_of_blocked (sr_headers (storage_request config req urlObj now)).
Proof.
  unfold storage_request, SignedHeaders_entries. cbn [sr_headers fold_left fst snd].
  do 3 (apply free_of_blocked_set; [literal_not_blocked|]).
  apply free_of_blocked_forwarded_headers.
Qed.

Lemma lowercase_keys_response_cors (h : gmap string string) (req : Request) (url : URL)
    (origin : option string) (allowed : list RegExp) :
  lowercase_keys h -> lowercase_keys (response_cors_headers h req url origin allowed).
Proof.
  intros Hlow. unfold response_cors_headers.
  repeat match goal with
         | |- context [if ?b then _ else _] => destruct b
         end; repeat apply lowercase_keys_set; exact Hlow.
Qed.

Lemma free_of_blocked_response_headers (req : Request) (url : URL)
    (origin : option string) (allowed : list RegExp) (originResp : OriginResponse) :
  free_of_blocked (response_headers req url origin allowed originResp).
Proof.
  unfold response_headers. do 3 apply free_of_blocked_delete.
  apply free_of_blocked_fold_delete.
  assert (Hcache : forall h v, lowercase_keys h ->
                     lowercase_keys (if (or_status originResp =? 404)%nat ||
                                        (or_status originResp =? 403)%nat
                                     then Headers.set h "Cache-Control" v
                                     else Headers.set h "Cache-Control"
                                            "public, max-age=60, s-maxage=31536000, must-revalidate")).
  { intros h v Hlow. destruct (_ || _); now apply lowercase_keys_set. }
  apply Hcache. apply lowercase_keys_response_cors. apply lowercase_keys_set.
  destruct (getMimeType (pathname url)) as [mimeType|].
  - destruct (truthy mimeType); [apply lowercase_keys_set|]; apply lowercase_keys_copy.
  - apply lowercase_keys_copy.
Qed.

(** C3. For every proxied request and every origin response, the request
    sent to storage and the response returned to the client hold none of
    the seven purge-blocking header names, whatever the case of the name and
    whatever the inbound request or the origin response contained. *)
Theorem purge_blocking_headers_filtered_both_ways
    (req : Request) (env : Env) (w : World) (urlObj : URL) (originResp : OriginResponse) :
  proxied req env ->
  URL_parse (storage_url config (req_url req)) = Some urlObj ->
  storage w (storage_request config req urlObj (clock w)) = Some originResp ->
  exists rq resp,
    calls w (fetch config req env) = [CallStorage rq] /\
    run w (fetch config req env) = inl resp /\
    (forall name, blocked name ->
       sr_headers rq !! name = None /\ Headers.has (sr_headers rq) name = false /\
       headers resp !! name = None /\ Headers.has (headers resp) name = false).
Proof.
  intros Hp Hurl Hst.
  exists (storage_request config req urlObj (clock w)), (proxy_response req env originResp).
  split; [now apply calls_proxied|].
  split; [rewrite run_proxied with (urlObj := urlObj) by assumption; now rewrite Hst|].
  intros name Hb.
  pose proof (free_of_blocked_storage_request req urlObj (clock w)) as Hout.
  pose proof (free_of_blocked_response_headers req (req_url req) (origin_of req)
                (allowed_origins env) originResp) as Hin.
  repeat split.
  - now apply Hout.
  - now apply free_of_blocked_has.
  - now apply Hin.
  - now apply free_of_blocked_has.
Qed.

End PurgeBlocking.

Lemma purge_blocking_headers_filtered_both_ways_witness :
  let req := Sample.request "GET" "/video.mp4"
               [("Origin", "https://allowed.example"); ("X-Forwarded-Host", "evil.example");
                ("Forwarded", "for=10.0.0.1"); ("Accept", "*/*")] EmptyString in
  let w := Sample.world 200 [("Origin", "https://leak.example"); ("X-Host", "internal");
                             ("ETag", "abc")] in
  exists rq resp,
    calls w (fetch Sample.config req Sample.env) = [CallStorage rq] /\
    run w (fetch Sample.config req Sample.env) = inl resp /\
    (forall name, blocked name ->
       sr_headers rq !! name = None /\ Headers.has (sr_headers rq) name = false /\
       headers resp !! name = None /\ Headers.has (headers resp) name = false).
Proof.
  intros req w.
  refine (@purge_blocking_headers_filtered_both_ways Example.platform Sample.config req
            Sample.env w
            {| protocol := "https:"; host := "media.s3.eu-west-1.amazonaws.com";
               hostname := "media.s3.eu-west-1.amazonaws.com";
               pathname := "/video.mp4"; search := EmptyString |}
            (Build_OriginResponse 200
               (Headers.of_list [("Origin", "https://leak.example"); ("X-Host", "internal");
                                 ("ETag", "abc")])
               (BodyText "payload")) _ _ _).
  - repeat split; [discriminate].
  - reflexivity.
  - reflexivity.
Defined.

(** ** Reading one header of the client response *)

Section ResponseHeaders.

Context `{Platform}.

(** A name other than the purge-blocking ones passes the deletion loop. *)
Lemma fold_delete_blocking_other (h : gmap string string) (k : string) :
  ~ In k PURGE_BLOCKING_HEADERS ->
  fold_left Headers.delete PURGE_BLOCKING_HEADERS h !! k = h !! k.
Proof.
  intros Hk. apply fold_delete_lookup_other. intros n Hn Heq.
  apply Hk. rewrite <- Heq. now rewrite (purge_blocking_lowercase Hn).
Qed.

Ltac not_in_literal :=
  let Hin := fresh "Hin" in
  intros Hin; repeat (destruct Hin as [Hin | Hin]; [discriminate Hin|]); destruct Hin.

(** The headers of the response before the CORS block runs. *)
Lemma response_headers_cache_control (req : Request) (url : URL) (origin : option string)
    (allowed : list RegExp) (originResp : OriginResponse) :
  Headers.get (response_headers req url origin allowed originResp) "Cache-Control" =
  Some (if (or_status originResp =? 404)%nat || (or_status originResp =? 403)%nat
        then "public, max-age=300, s-maxage=31536000, immutable"
        else "public, max-age=60, s-maxage=31536000, must-revalidate").
Proof.
  unfold response_headers, Headers.get, Headers.delete. lower_names.
  rewrite !lookup_delete_ne by discriminate.
  rewrite fold_delete_blocking_other by not_in_literal.
  destruct (_ || _); unfold Headers.set; lower_names; apply lookup_insert_eq.
Qed.

End ResponseHeaders.

(** ** C9: synthesized Cache-Control *)

Section CacheControl.

Context `{Platform}.

Variable config : S3Config.

(** C9. For every proxied request and every origin response, the client
    response carries the origin's status, and its Cache-Control header is
    the long-edge, immutable value when that status is 404 or 403 and the
    must-revalidate value for every other status, whatever Cache-Control
    the origin sent. *)
Theorem cache_control_by_upstream_status
    (req : Request) (env : Env) (w : World) (urlObj : URL) (originResp : OriginResponse) :
  proxied req env ->
  URL_parse (storage_url config (req_url req)) = Some urlObj ->
  storage w (storage_request config req urlObj (clock w)) = Some originResp ->
  exists resp,
    run w (fetch config req env) = inl resp /\
    status resp = or_status originResp /\
    Headers.get (headers resp) "Cache-Control" =
    Some (if bool_decide (or_status originResp = 404 \/ or_status originResp = 403)
          then "public, max-age=300, s-maxage=31536000, immutable"
          else "public, max-age=60, s-maxage=31536000, must-revalidate").
Proof.
  intros Hp Hurl Hst. exists (proxy_response req env originResp).
  split; [rewrite run_proxied with (urlObj := urlObj) by assumption; now rewrite Hst|].
  split; [reflexivity|].
  cbn [proxy_response headers]. rewrite response_headers_cache_control.
  f_equal. case_bool_decide as Hs.
  - destruct Hs as [-> | ->]; reflexivity.
  - destruct (_ =? 404)%nat eqn:H404; [apply Nat.eqb_eq in H404; tauto|].
    destruct (_ =? 403)%nat eqn:H403; [apply Nat.eqb_eq in H403; tauto|].
    reflexivity.
Qed.

End CacheControl.

Lemma cache_control_by_upstream_status_witness :
  let req := Sample.request "GET" "/missing.png" [] EmptyString in
  let w := Sample.world 404 [("Cache-Control", "no-store")] in
  exists resp,
    run w (fetch Sample.config req Sample.env) = inl resp /\
    status resp = 404 /\
    Headers.get (headers resp) "Cache-Control" =
    Some "public, max-age=300, s-maxage=31536000, immutable".
Proof.
  intros req w.
  refine (@cache_control_by_upstream_status Example.platform Sample.config req
            Sample.env w
            {| protocol := "https:"; host := "media.s3.eu-west-1.amazonaws.com";
               hostname := "media.s3.eu-west-1.amazonaws.com";
               pathname := "/missing.png"; search := EmptyString |}
            (Build_OriginResponse 404 (Headers.of_list [("Cache-Control", "no-store")])
               (BodyText "payload")) _ _ _).
  - repeat split; [discriminate].
  - reflexivity.
  - reflexivity.
Defined.

(** ** C10: preflight requests *)

Section Preflight.

Context `{Platform}.

Variable config : S3Config.

(** C10. Every OPTIONS request that passes the HTTPS-redirect check is
    answered at once with status 204 and a null body, whether or not a CORS
    grant was made; the handler is a leaf of the effect tree, so neither the
    storage origin nor the purge API is called. *)
Theorem preflight_answers_204_without_calls (req : Request) (env : Env) :
  redirected req env = false ->
  req_method req = "OPTIONS" ->
  (exists cors, fetch config req env = Ret {| status := 204; headers := cors; body := BodyNull |}) /\
  (forall w, calls w (fetch config req env) = []) /\
  (forall w, exists resp, run w (fetch config req env) = inl resp /\
                          status resp = 204 /\ body resp = BodyNull).
Proof.
  intros Hr Hm. rewrite fetch_preflight by assumption.
  split; [eexists; reflexivity|]. split; [reflexivity|].
  intros w. eexists. split; [reflexivity|]. split; reflexivity.
Qed.

End Preflight.

Lemma preflight_answers_204_without_calls_witness :
  let req := Sample.request "OPTIONS" "/private/report.pdf"
               [("Origin", "https://stranger.example")] EmptyString in
  (exists cors, fetch Sample.config req Sample.env =
                Ret {| status := 204; headers := cors; body := BodyNull |}) /\
  (forall w, calls w (fetch Sample.config req Sample.env) = []) /\
  (forall w, exists resp, run w (fetch Sample.config req Sample.env) = inl resp /\
                          status resp = 204 /\ body resp = BodyNull).
Proof.
  intros req.
  apply (@preflight_answers_204_without_calls Example.platform Sample.config req Sample.env);
    reflexivity.
Defined.

(** ** The extension pattern *)

Lemma not_dot_set (c : ascii) :
  xorb true (existsb (in_range c) [("."%char, "."%char)]) = negb (Ascii.eqb c ".").
Proof. destruct c as [[] [] [] [] [] [] [] []]; reflexivity. Qed.

Lemma take_all (s : string) : JSString.take (String.length s - 0) s = s.
Proof.
  rewrite Nat.sub_0_r. induction s as [|c s IH]; [reflexivity|].
  cbn [String.length JSString.take]. now rewrite IH.
Qed.

(** Repeating a one-character matcher up to the end of the input succeeds
    exactly when every remaining character is accepted. *)
Lemma repeat_to_end (p : ascii -> bool) (accepts : string -> bool) :
  accepts EmptyString = true ->
  (forall c t, accepts (String c t) = p c && accepts t) ->
  forall (t : string) (fuel : nat) (b : bool),
    (String.length t <= fuel)%nat ->
    repeat_matcher fuel (char_matcher p) (State b t)
      (fun y => matcher Eol y (fun z => Some z)) =
    if accepts t
    then Some (State (match t with EmptyString => b | _ => false end) EmptyString)
    else None.
Proof.
  intros Hnil Hcons. induction t as [|c t IH]; intros fuel b Hfuel.
  - rewrite Hnil. destruct fuel; reflexivity.
  - destruct fuel as [|fuel]; [cbn in Hfuel; lia|].
    cbn [repeat_matcher]. rewrite char_matcher_cons, Hcons.
    destruct (p c); cbn [andb]; [|reflexivity].
    cbn [rest String.length].
    replace (String.length t <? S (String.length t))%nat with true
      by (symmetry; apply Nat.ltb_lt; lia).
    rewrite IH by (cbn in Hfuel; lia).
    destruct (accepts t); [|reflexivity]. now destruct t.
Qed.

Lemma extension_pattern_match_here (b : bool) (s : string) :
  match_here extension_pattern (State b s) =
  if is_extension s then Some (State false EmptyString) else None.
Proof.
  unfold match_here, extension_pattern. cbn [matcher].
  destruct s as [|c t]; [reflexivity|].
  rewrite char_matcher_cons. cbn [is_extension]. rewrite (Ascii.eqb_sym c ".").
  destruct (Ascii.eqb "." c); cbn [andb]; [|reflexivity].
  destruct t as [|c' t]; [reflexivity|].
  rewrite char_matcher_cons, not_dot_set. cbn [truthy String.eqb negb andb no_dot].
  destruct (Ascii.eqb c' "."); cbn [negb andb]; [reflexivity|].
  cbn [rest].
  rewrite (repeat_to_end (fun c => xorb true (existsb (in_range c) [("."%char, "."%char)]))
             no_dot).
  - destruct (no_dot t); [now destruct t | reflexivity].
  - reflexivity.
  - intros c0 t0. cbn [no_dot]. now rewrite not_dot_set.
  - lia.
Qed.

Lemma match0_extension_pattern (s : string) :
  match0 extension_pattern s = extension_of s.
Proof.
  unfold match0, exec. generalize true, EmptyString.
  induction s as [|c s IH]; intros b before.
  - reflexivity.
  - cbn [exec_from extension_of]. rewrite extension_pattern_match_here.
    destruct (is_extension (String c s)).
    + cbn [rest]. now rewrite take_all.
    + apply IH.
Qed.

Lemma no_dot_append_dot (x t : string) : no_dot (x +:+ String "." t) = false.
Proof.
  induction x as [|c x IH]; push_append; cbn [no_dot]; [reflexivity|].
  rewrite IH. apply andb_false_r.
Qed.

Lemma extension_of_Some (s m : string) :
  extension_of s = Some m <-> is_extension m = true /\ ends_with s m.
Proof.
  split.
  - induction s as [|c s IH]; cbn [extension_of].
    + cbn [is_extension]. discriminate.
    + destruct (is_extension (String c s)) eqn:Hext.
      * intros [= <-]. split; [exact Hext | apply ends_with_refl].
      * intros Hs. destruct (IH Hs) as [Hm [pre ->]]. split; [exact Hm|].
        exists (String c pre). reflexivity.
  - intros [Hm [pre ->]]. induction pre as [|c pre IH]; push_append.
    + destruct m; cbn [extension_of]; now rewrite Hm.
    + cbn [extension_of].
      assert (Hno : is_extension (String c (pre +:+ m)) = false).
      { destruct m as [|d t]; [discriminate|]. cbn [is_extension] in Hm.
        apply andb_prop in Hm as [Hm _]. apply andb_prop in Hm as [Hd _].
        apply Ascii.eqb_eq in Hd. subst d.
        cbn [is_extension]. rewrite no_dot_append_dot. apply andb_false_r. }
      rewrite Hno. exact IH.
Qed.

(** The worker's font test is the specification's: the lower-cased path
    ends with one of the five font extensions. *)
Lemma isFontRequest_iff (path : string) :
  isFontRequest path = true <-> has_font_extension path.
Proof.
  unfold isFontRequest, has_font_extension. rewrite match0_extension_pattern. split.
  - destruct (extension_of (toLowerCase path)) as [m|] eqn:Hm; [|discriminate].
    intros Hfont. apply andb_prop in Hfont as [_ Hin].
    apply bool_decide_eq_true in Hin. apply list_elem_of_In in Hin.
    apply extension_of_Some in Hm as [_ Hends]. now exists m.
  - intros (ext & Hin & Hends).
    assert (Hext : is_extension ext = true).
    { repeat (destruct Hin as [<- | Hin]; [reflexivity|]). destruct Hin. }
    rewrite (proj2 (extension_of_Some (toLowerCase path) ext) (conj Hext Hends)).
    apply andb_true_intro. split.
    + repeat (destruct Hin as [<- | Hin]; [reflexivity|]). destruct Hin.
    + apply bool_decide_eq_true. now apply list_elem_of_In.
Qed.

(** ** The CORS decision of the worker *)

Section CorsDecision.

Context `{Platform}.

Lemma origin_check_iff (origin : option string) (allowed : list RegExp) :
  truthy_opt origin && isOriginAllowed origin allowed = true <->
  origin_hostname_matches origin allowed.
Proof.
  unfold origin_hostname_matches, isOriginAllowed. split.
  - destruct origin as [o|]; [|discriminate]. cbn [truthy_opt].
    destruct (truthy o); [|discriminate]. cbn [andb negb].
    destruct (URL_parse o) as [url|] eqn:Hurl; [|discriminate].
    intros Hex. apply existsb_exists in Hex as (pattern & Hin & Htest).
    now exists o, url, pattern.
  - intros (o & url & pattern & -> & Hurl & Hin & Htest). cbn [truthy_opt].
    assert (Ho : truthy o = true).
    { apply truthy_true. intros ->. rewrite URL_parse_empty in Hurl. discriminate. }
    rewrite Ho, Hurl. cbn [andb negb]. apply existsb_exists. now exists pattern.
Qed.

Lemma isSafeNoCorsRequest_iff (req : Request) (origin : option string) :
  isSafeNoCorsRequest req origin = true <->
  origin_absent_or_null origin /\ get_head_or_options (req_method req).
Proof.
  unfold isSafeNoCorsRequest, origin_absent_or_null, get_head_or_options.
  repeat case_bool_decide; cbn [negb andb];
    destruct (String.eqb_spec (req_method req) "GET");
    destruct (String.eqb_spec (req_method req) "HEAD");
    destruct (String.eqb_spec (req_method req) "OPTIONS");
    cbn [negb andb]; split; intros; try discriminate; intuition congruence.
Qed.

Ltac header_lookups :=
  unfold cors_granted, Headers.get, Headers.set; lower_names;
  repeat first [ rewrite lookup_insert_eq | rewrite lookup_insert_ne by discriminate ].

Ltac each_cors_name Hin :=
  repeat (destruct Hin as [<- | Hin]; [|]); [..| destruct Hin].

(** What the CORS block of the response path does to a header map, row by
    row of the decision table. *)
Lemma response_cors_headers_table (h : gmap string string) (req : Request) (url : URL)
    (origin : option string) (allowed : list RegExp) :
  let h' := response_cors_headers h req url origin allowed in
  (has_font_extension (pathname url) -> cors_granted h' "*") /\
  (~ has_font_extension (pathname url) -> origin_hostname_matches origin allowed ->
   exists o, origin = Some o /\ cors_granted h' o) /\
  (~ has_font_extension (pathname url) -> ~ origin_hostname_matches origin allowed ->
   origin_absent_or_null origin -> get_head_or_options (req_method req) ->
   cors_granted h' "*") /\
  (~ has_font_extension (pathname url) -> ~ origin_hostname_matches origin allowed ->
   ~ (origin_absent_or_null origin /\ get_head_or_options (req_method req)) ->
   h' = h).
Proof.
  intros h'. subst h'. unfold response_cors_headers.
  pose proof (isSafeNoCorsRequest_iff req origin) as Hsafe_iff.
  rewrite <- isFontRequest_iff, <- origin_check_iff, <- isSafeNoCorsRequest_iff.
  destruct (isFontRequest (pathname url)).
  { split; [|split; [|split]].
    - intros _. header_lookups. repeat split; reflexivity.
    - intros Hno. exfalso. now apply Hno.
    - intros Hno. exfalso. now apply Hno.
    - intros Hno. exfalso. now apply Hno. }
  destruct (truthy_opt origin && isOriginAllowed origin allowed) eqn:Hallowed.
  { split; [|split; [|split]].
    - discriminate.
    - intros _ _. destruct origin as [o|]; [|discriminate]. exists o.
      split; [reflexivity|]. cbn [interpolate]. header_lookups. repeat split; reflexivity.
    - intros _ Hno. exfalso. now apply Hno.
    - intros _ Hno. exfalso. now apply Hno. }
  destruct (isSafeNoCorsRequest req origin).
  { split; [|split; [|split]].
    - discriminate.
    - discriminate.
    - intros _ _ _ _. header_lookups. repeat split; reflexivity.
    - intros _ _ Hno. exfalso. now apply Hno. }
  split; [|split; [|split]]; try discriminate.
  - intros _ _ Hnull Hmethod. exfalso.
    assert (Hcontra : false = true) by (apply Hsafe_iff; now split).
    discriminate.
  - reflexivity.
Qed.

(** The CORS headers of the client response are those the CORS block
    produced, and before that block they are the origin's. *)
Lemma response_headers_cors_names (req : Request) (url : URL) (origin : option string)
    (allowed : list RegExp) (originResp : OriginResponse) :
  exists base,
    cors_not_set base (Headers.copy (or_headers originResp)) /\
    cors_not_set (response_headers req url origin allowed originResp)
                 (response_cors_headers base req url origin allowed).
Proof.
  unfold response_headers.
  match goal with
  | |- context [response_cors_headers ?b req url origin allowed] => exists b
  end.
  split.
  - intros name Hin. unfold Headers.get, Headers.set.
    destruct (getMimeType (pathname url)) as [mimeType|]; [destruct (truthy mimeType)|];
      unfold Headers.set;
      repeat (destruct Hin as [<- | Hin];
              [lower_names; now rewrite ?lookup_insert_ne by discriminate|]);
      destruct Hin.
  - intros name Hin. unfold Headers.get, Headers.delete.
    repeat (destruct Hin as [<- | Hin];
            [lower_names; rewrite !lookup_delete_ne by discriminate;
             rewrite fold_delete_blocking_other
               by (let Hx := fresh in intros Hx;
                   repeat (destruct Hx as [Hx | Hx]; [discriminate Hx|]); destruct Hx);
             destruct (_ || _); unfold Headers.set; lower_names;
             now rewrite lookup_insert_ne by discriminate|]);
      destruct Hin.
Qed.

Lemma cors_granted_transfer (h h' : gmap string string) (v : string) :
  cors_not_set h h' -> cors_granted h' v -> cors_granted h v.
Proof.
  intros Hsame (Ho & Hm & Hh). unfold cors_granted.
  rewrite !Hsame by (cbn; tauto). now repeat split.
Qed.

End CorsDecision.

(** ** C1: the decision table on final responses *)

Section CorsOnResponses.

Context `{Platform}.

Variable config : S3Config.

Lemma cors_not_set_trans (h1 h2 h3 : gmap string string) :
  cors_not_set h1 h2 -> cors_not_set h2 h3 -> cors_not_set h1 h3.
Proof. intros H12 H23 name Hin. now rewrite H12, H23. Qed.

(** C1, as amended. For every request that passes the HTTPS-redirect
    check, is not a preflight and is not routed to the purge handler, and
    for every origin response, the CORS headers of the client response
    follow the four rows of the decision table in order: a font extension
    gives the wildcard; otherwise an Origin header whose host name matches
    an allowed pattern is echoed; otherwise an absent or [null] Origin with
    GET, HEAD or OPTIONS gives the wildcard; otherwise the worker sets no
    CORS header, and under each CORS name the client response holds what the
    origin response held. *)
Theorem cors_decision_table_on_final_response
    (req : Request) (env : Env) (w : World) (urlObj : URL) (originResp : OriginResponse) :
  proxied req env ->
  URL_parse (storage_url config (req_url req)) = Some urlObj ->
  storage w (storage_request config req urlObj (clock w)) = Some originResp ->
  exists resp,
    run w (fetch config req env) = inl resp /\
    (has_font_extension (pathname (req_url req)) -> cors_granted (headers resp) "*") /\
    (~ has_font_extension (pathname (req_url req)) ->
     origin_hostname_matches (origin_of req) (allowed_origins env) ->
     exists o, origin_of req = Some o /\ cors_granted (headers resp) o) /\
    (~ has_font_extension (pathname (req_url req)) ->
     ~ origin_hostname_matches (origin_of req) (allowed_origins env) ->
     origin_absent_or_null (origin_of req) -> get_head_or_options (req_method req) ->
     cors_granted (headers resp) "*") /\
    (~ has_font_extension (pathname (req_url req)) ->
     ~ origin_hostname_matches (origin_of req) (allowed_origins env) ->
     ~ (origin_absent_or_null (origin_of req) /\ get_head_or_options (req_method req)) ->
     cors_not_set (headers resp) (Headers.copy (or_headers originResp))).
Proof.
  intros Hp Hurl Hst. exists (proxy_response req env originResp).
  split; [rewrite run_proxied with (urlObj := urlObj) by assumption; now rewrite Hst|].
  cbn [proxy_response headers].
  destruct (response_headers_cors_names req (req_url req) (origin_of req)
              (allowed_origins env) originResp) as (base & Hbase & Hfinal).
  destruct (response_cors_headers_table base req (req_url req) (origin_of req)
              (allowed_origins env)) as (Hrow1 & Hrow2 & Hrow3 & Hrow4).
  split; [|split; [|split]].
  - intros Hfont. eapply cors_granted_transfer; [exact Hfinal | now apply Hrow1].
  - intros Hnf Hmatch. destruct (Hrow2 Hnf Hmatch) as (o & Ho & Hgrant).
    exists o. split; [exact Ho|]. eapply cors_granted_transfer; [exact Hfinal | exact Hgrant].
  - intros Hnf Hnm Hnull Hmethod.
    eapply cors_granted_transfer; [exact Hfinal | now apply Hrow3].
  - intros Hnf Hnm Hnone. eapply cors_not_set_trans; [exact Hfinal|].
    rewrite (Hrow4 Hnf Hnm Hnone). exact Hbase.
Qed.

End CorsOnResponses.

Lemma cors_decision_table_on_final_response_witness :
  let req := Sample.request "GET" "/video.mp4"
               [("Origin", "https://allowed.example")] EmptyString in
  let w := Sample.world 200 [("ETag", "abc")] in
  let originResp := Build_OriginResponse 200 (Headers.of_list [("ETag", "abc")])
                      (BodyText "payload") in
  exists resp,
    run w (fetch Sample.config req Sample.env) = inl resp /\
    (has_font_extension (pathname (req_url req)) -> cors_granted (headers resp) "*") /\
    (~ has_font_extension (pathname (req_url req)) ->
     origin_hostname_matches (origin_of req) (allowed_origins Sample.env) ->
     exists o, origin_of req = Some o /\ cors_granted (headers resp) o) /\
    (~ has_font_extension (pathname (req_url req)) ->
     ~ origin_hostname_matches (origin_of req) (allowed_origins Sample.env) ->
     origin_absent_or_null (origin_of req) -> get_head_or_options (req_method req) ->
     cors_granted (headers resp) "*") /\
    (~ has_font_extension (pathname (req_url req)) ->
     ~ origin_hostname_matches (origin_of req) (allowed_origins Sample.env) ->
     ~ (origin_absent_or_null (origin_of req) /\ get_head_or_options (req_method req)) ->
     cors_not_set (headers resp) (Headers.copy (or_headers originResp))).
Proof.
  intros req w originResp.
  refine (@cors_decision_table_on_final_response Example.platform Sample.config req
            Sample.env w
            {| protocol := "https:"; host := "media.s3.eu-west-1.amazonaws.com";
               hostname := "media.s3.eu-west-1.amazonaws.com";
               pathname := "/video.mp4"; search := EmptyString |}
            originResp _ _ _).
  - repeat split; [discriminate].
  - reflexivity.
  - reflexivity.
Defined.

(** C1 as stated fails in its fourth row: a GET with an Origin that no
    allowed domain matches, for a path that is not a font, falls in that
    row, yet when the origin response carries
    [Access-Control-Allow-Origin: *] the client response carries it too.
    The worker sets no CORS header there, and deletes none. *)
Lemma origin_cors_header_reaches_the_client :
  let req := Sample.request "GET" "/video.mp4" [("Origin", "https://stranger.example")]
               EmptyString in
  let w := Sample.world 200 [("Access-Control-Allow-Origin", "*")] in
  ~ has_font_extension (pathname (req_url req)) /\
  ~ origin_hostname_matches (origin_of req) (allowed_origins Sample.env) /\
  ~ origin_absent_or_null (origin_of req) /\
  exists resp,
    run w (fetch Sample.config req Sample.env) = inl resp /\
    Headers.get (headers resp) "Access-Control-Allow-Origin" = Some "*".
Proof.
  intros req w. split; [|split; [|split]].
  - rewrite <- isFontRequest_iff. discriminate.
  - rewrite <- origin_check_iff. discriminate.
  - intros [Habsent | Hnull]; discriminate.
  - eexists. split; reflexivity.
Qed.

(** The four rows are all inhabited: one sample request for each. *)
Example cors_rows_on_samples :
  let w := Sample.world 200 [] in
  let acao (req : Request) :=
    match run w (fetch Sample.config req Sample.env) with
    | inl resp => Headers.get (headers resp) "Access-Control-Allow-Origin"
    | inr _ => None
    end in
  acao (Sample.request "POST" "/fonts/Inter.WOFF2" [("Origin", "https://stranger.example")]
          EmptyString) = Some "*" /\
  acao (Sample.request "GET" "/video.mp4" [("Origin", "https://img.allowed.example")]
          EmptyString) = Some "https://img.allowed.example" /\
  acao (Sample.request "GET" "/video.mp4" [("Origin", "null")] EmptyString) = Some "*" /\
  acao (Sample.request "HEAD" "/video.mp4" [] EmptyString) = Some "*" /\
  acao (Sample.request "GET" "/video.mp4" [("Origin", "https://evilallowed.example")]
          EmptyString) = None /\
  acao (Sample.request "DELETE" "/video.mp4" [] EmptyString) = None.
Proof. vm_compute. repeat split. Qed.

(** ** C4: the two CORS call sites *)

Section CorsCallSites.

Context `{Platform}.

Variable config : S3Config.

Lemma isSafeNoCorsRequest_method (req req' : Request) (origin : option string) :
  get_head_or_options (req_method req) -> get_head_or_options (req_method req') ->
  isSafeNoCorsRequest req origin = isSafeNoCorsRequest req' origin.
Proof.
  intros Hm Hm'.
  destruct (isSafeNoCorsRequest req origin) eqn:Hs;
    destruct (isSafeNoCorsRequest req' origin) eqn:Hs'; try reflexivity.
  - apply isSafeNoCorsRequest_iff in Hs as [Hnull _].
    assert (Hcontra : isSafeNoCorsRequest req' origin = true)
      by (apply isSafeNoCorsRequest_iff; now split).
    congruence.
  - apply isSafeNoCorsRequest_iff in Hs' as [Hnull _].
    assert (Hcontra : isSafeNoCorsRequest req origin = true)
      by (apply isSafeNoCorsRequest_iff; now split).
    congruence.
Qed.

Ltac header_lookups :=
  unfold cors_granted, Headers.get, Headers.set; lower_names;
  repeat first [ rewrite lookup_insert_eq | rewrite lookup_insert_ne by discriminate ].

(** The preflight block and the response block, side by side, for a
    preflight and a request of any other method. *)
Lemma cors_blocks_compare (h : gmap string string) (pre fin : Request) (url : URL)
    (origin : option string) (allowed : list RegExp) :
  req_method pre = "OPTIONS" ->
  req_method fin <> "OPTIONS" ->
  let p := preflight_cors_headers pre url origin allowed in
  let f := response_cors_headers h fin url origin allowed in
  let parted :=
    ~ has_font_extension (pathname url) /\ ~ origin_hostname_matches origin allowed /\
    origin_absent_or_null origin /\ req_method fin <> "GET" /\ req_method fin <> "HEAD" in
  (parted ->
   cors_granted p "*" /\ Headers.get p "Access-Control-Max-Age" = Some "86400" /\ f = h) /\
  (~ parted ->
   (exists v, cors_granted p v /\ cors_granted f v /\
              Headers.get p "Access-Control-Max-Age" = Some "86400" /\
              Headers.get f "Access-Control-Max-Age" = Headers.get h "Access-Control-Max-Age") \/
   (p = Headers.empty /\ f = h)).
Proof.
  intros Hpre Hfin p f parted. subst p f parted.
  unfold preflight_cors_headers, response_cors_headers.
  pose proof (isSafeNoCorsRequest_iff pre origin) as Hsafe_pre.
  pose proof (isSafeNoCorsRequest_iff fin origin) as Hsafe_fin.
  rewrite <- isFontRequest_iff, <- origin_check_iff.
  destruct (isFontRequest (pathname url)).
  { split.
    - intros (Hnf & _). exfalso. now apply Hnf.
    - intros _. left. exists "*". header_lookups. repeat split; reflexivity. }
  destruct (truthy_opt origin && isOriginAllowed origin allowed).
  { split.
    - intros (_ & Hnm & _). exfalso. now apply Hnm.
    - intros _. left. exists (interpolate origin). header_lookups.
      repeat split; reflexivity. }
  destruct (isSafeNoCorsRequest pre origin) eqn:Hp;
    destruct (isSafeNoCorsRequest fin origin) eqn:Hf.
  - split.
    + intros (_ & _ & _ & Hg & Hh). exfalso.
      destruct (proj1 Hsafe_fin eq_refl) as [_ [Hm | [Hm | Hm]]]; congruence.
    + intros _. left. exists "*". header_lookups. repeat split; reflexivity.
  - split.
    + intros _. header_lookups. repeat split; reflexivity.
    + intros Hnot. exfalso. apply Hnot.
      destruct (proj1 Hsafe_pre eq_refl) as [Hnull _].
      split; [discriminate|]. split; [discriminate|]. split; [exact Hnull|].
      split; intros Hm; (assert (Hcontra : false = true);
        [apply Hsafe_fin; split; [exact Hnull | unfold get_head_or_options; tauto]
        | discriminate Hcontra]).
  - exfalso. destruct (proj1 Hsafe_fin eq_refl) as [Hnull _].
    assert (Hcontra : false = true).
    { apply Hsafe_pre. split; [exact Hnull|]. unfold get_head_or_options. tauto. }
    discriminate.
  - split.
    + intros (_ & _ & Hnull & _). exfalso.
      assert (Hcontra : false = true).
      { apply Hsafe_pre. split; [exact Hnull|]. unfold get_head_or_options. tauto. }
      discriminate.
    + intros _. right. split; reflexivity.
Qed.

(** C4, as amended. For every request that reaches the proxy pipeline,
    whatever its method, and every origin response, compare the final
    response with the response to the preflight for the same URL and
    headers.  In one case the two part: when the path is not a font, no
    allowed domain matches, the Origin header is absent or [null] and the
    method is neither GET nor HEAD, the preflight grants the wildcard and
    the worker sets no CORS header on the final response.  In every other
    case the decision is the same: either the preflight grants access with
    some allow-origin value, and then the final response carries the same
    allow-origin, allow-methods [GET, HEAD, OPTIONS] and allow-headers
    [Content-Type, Range]; or the preflight carries no header at all and
    the worker sets no CORS header on the final response.  In every grant
    [Access-Control-Max-Age: 86400] is on the preflight only, and the final
    response keeps whatever the origin sent under that name. *)
Theorem preflight_and_final_take_same_cors_decision
    (req : Request) (env : Env) (w : World) (urlObj : URL) (originResp : OriginResponse) :
  proxied req env ->
  URL_parse (storage_url config (req_url req)) = Some urlObj ->
  storage w (storage_request config req urlObj (clock w)) = Some originResp ->
  exists preflight final,
    fetch config (with_method req "OPTIONS") env = Ret preflight /\
    status preflight = 204 /\
    run w (fetch config req env) = inl final /\
    (unsafe_method_without_origin req env ->
     cors_granted (headers preflight) "*" /\
     Headers.get (headers preflight) "Access-Control-Max-Age" = Some "86400" /\
     cors_not_set (headers final) (Headers.copy (or_headers originResp))) /\
    (~ unsafe_method_without_origin req env ->
     (exists v,
        cors_granted (headers preflight) v /\ cors_granted (headers final) v /\
        Headers.get (headers preflight) "Access-Control-Max-Age" = Some "86400" /\
        Headers.get (headers final) "Access-Control-Max-Age" =
        Headers.get (Headers.copy (or_headers originResp)) "Access-Control-Max-Age") \/
     (headers preflight = Headers.empty /\
      cors_not_set (headers final) (Headers.copy (or_headers originResp)))).
Proof.
  intros Hp Hurl Hst.
  eexists. exists (proxy_response req env originResp).
  split.
  { apply fetch_preflight; [|reflexivity]. destruct Hp as (Hr & _). exact Hr. }
  split; [reflexivity|].
  split; [rewrite run_proxied with (urlObj := urlObj) by assumption; now rewrite Hst|].
  cbn [headers proxy_response with_method req_url].
  destruct (response_headers_cors_names req (req_url req) (origin_of req)
              (allowed_origins env) originResp) as (base & Hbase & Hfinal).
  destruct Hp as (_ & Hopt & _).
  destruct (cors_blocks_compare base (with_method req "OPTIONS") req (req_url req)
              (origin_of req) (allowed_origins env) eq_refl Hopt) as [Hparted Hsame].
  split.
  - intros Hcase. destruct (Hparted Hcase) as (Hgrant & Hage & Hnone).
    split; [exact Hgrant|]. split; [exact Hage|].
    eapply cors_not_set_trans; [exact Hfinal|]. rewrite Hnone. exact Hbase.
  - intros Hcase. destruct (Hsame Hcase) as [(v & Hpre & Hfin & Hage & Hage') | [Hempty Hnone]].
    + left. exists v. split; [exact Hpre|].
      split; [eapply cors_granted_transfer; [exact Hfinal | exact Hfin]|].
      split; [exact Hage|].
      rewrite Hfinal, Hage' by (cbn; tauto). apply Hbase. cbn; tauto.
    + right. split; [exact Hempty|].
      eapply cors_not_set_trans; [exact Hfinal|]. rewrite Hnone. exact Hbase.
Qed.

End CorsCallSites.

Lemma preflight_and_final_take_same_cors_decision_witness :
  let req := Sample.request "POST" "/upload.bin" [("Origin", "https://allowed.example")]
               "data" in
  let w := Sample.world 200 [] in
  let originResp := Build_OriginResponse 200 (Headers.of_list []) (BodyText "payload") in
  exists preflight final,
    fetch Sample.config (with_method req "OPTIONS") Sample.env = Ret preflight /\
    status preflight = 204 /\
    run w (fetch Sample.config req Sample.env) = inl final /\
    (unsafe_method_without_origin req Sample.env ->
     cors_granted (headers preflight) "*" /\
     Headers.get (headers preflight) "Access-Control-Max-Age" = Some "86400" /\
     cors_not_set (headers final) (Headers.copy (or_headers originResp))) /\
    (~ unsafe_method_without_origin req Sample.env ->
     (exists v,
        cors_granted (headers preflight) v /\ cors_granted (headers final) v /\
        Headers.get (headers preflight) "Access-Control-Max-Age" = Some "86400" /\
        Headers.get (headers final) "Access-Control-Max-Age" =
        Headers.get (Headers.copy (or_headers originResp)) "Access-Control-Max-Age") \/
     (headers preflight = Headers.empty /\
      cors_not_set (headers final) (Headers.copy (or_headers originResp)))).
Proof.
  intros req w originResp.
  refine (@preflight_and_final_take_same_cors_decision Example.platform Sample.config req
            Sample.env w
            {| protocol := "https:"; host := "media.s3.eu-west-1.amazonaws.com";
               hostname := "media.s3.eu-west-1.amazonaws.com";
               pathname := "/upload.bin"; search := EmptyString |}
            originResp _ _ _).
  - repeat split; discriminate.
  - reflexivity.
  - reflexivity.
Defined.

(** C4 as stated fails, in two ways.  For a font path and no Origin
    header, the preflight response carries [Access-Control-Max-Age: 86400]
    and the final response to the GET does not, so the two CORS header sets
    differ.  And for a path that is not a font and no Origin header, the
    preflight grants the wildcard while the final response to a POST
    carries no CORS header. *)
Lemma preflight_and_final_cors_header_sets_differ :
  let w := Sample.world 200 [] in
  (let req := Sample.request "GET" "/fonts/inter.woff2" [] EmptyString in
   exists preflight final,
     fetch Sample.config (with_method req "OPTIONS") Sample.env = Ret preflight /\
     run w (fetch Sample.config req Sample.env) = inl final /\
     cors_granted (headers preflight) "*" /\ cors_granted (headers final) "*" /\
     Headers.get (headers preflight) "Access-Control-Max-Age" = Some "86400" /\
     Headers.get (headers final) "Access-Control-Max-Age" = None /\
     cors_header_set (headers preflight) <> cors_header_set (headers final)) /\
  (let req := Sample.request "POST" "/upload.bin" [] "data" in
   exists preflight final,
     fetch Sample.config (with_method req "OPTIONS") Sample.env = Ret preflight /\
     run w (fetch Sample.config req Sample.env) = inl final /\
     cors_granted (headers preflight) "*" /\
     cors_header_set (headers final) = [None; None; None; None]).
Proof.
  intros w. split.
  - intros req. eexists. eexists.
    split; [reflexivity|]. split; [reflexivity|].
    vm_compute. repeat split; discriminate.
  - intros req. eexists. eexists.
    split; [reflexivity|]. split; [reflexivity|].
    vm_compute. repeat split.
Qed.

(** The rows also part for other methods: without an Origin header the
    preflight grants the wildcard, the final response to a POST does not. *)
Example preflight_grants_where_post_does_not :
  let req := Sample.request "POST" "/upload.bin" [] "data" in
  let w := Sample.world 200 [] in
  exists preflight final,
    fetch Sample.config (with_method req "OPTIONS") Sample.env = Ret preflight /\
    run w (fetch Sample.config req Sample.env) = inl final /\
    Headers.get (headers preflight) "Access-Control-Allow-Origin" = Some "*" /\
    Headers.get (headers final) "Access-Control-Allow-Origin" = None.
Proof.
  intros req w. eexists. eexists.
  split; [reflexivity|]. split; [reflexivity|]. vm_compute. split; reflexivity.
Qed.

(** ** The request signer *)

Lemma byte_of_hex_of_byte (b : byte) : byte_of_hex (hex_of_byte b) = Some b.
Proof. destruct b; vm_compute; reflexivity. Qed.

Lemma hex_of_byte_inj (b1 b2 : byte) : hex_of_byte b1 = hex_of_byte b2 -> b1 = b2.
Proof.
  intros Heq. apply (f_equal byte_of_hex) in Heq.
  rewrite !byte_of_hex_of_byte in Heq. now injection Heq.
Qed.

Lemma hex_of_byte_length (b : byte) : String.length (hex_of_byte b) = 2%nat.
Proof. reflexivity. Qed.

Lemma toHex_inj (x y : list byte) : toHex x = toHex y -> x = y.
Proof.
  revert y. induction x as [|b x IH]; intros [|c y]; cbn [toHex]; intros Heq.
  - reflexivity.
  - unfold hex_of_byte in Heq. rewrite !append_cons in Heq. discriminate.
  - unfold hex_of_byte in Heq. rewrite !append_cons in Heq. discriminate.
  - apply append_inj_same_length in Heq as [Hb Hrest];
      [|now rewrite !hex_of_byte_length].
    apply hex_of_byte_inj in Hb. apply IH in Hrest. now subst.
Qed.

Lemma TextEncoder_encode_inj (s t : string) :
  TextEncoder_encode s = TextEncoder_encode t -> s = t.
Proof.
  unfold TextEncoder_encode. intros Heq.
  apply (f_equal string_of_list_byte) in Heq.
  now rewrite !string_of_list_byte_of_string in Heq.
Qed.

Section Signer.

Context `{Platform}.

Lemma payload_hash (now method : string) (urlObj : URL) (payload : string)
    (config : S3Config) :
  x_amz_content_sha256 (sign_at now method urlObj payload config) = toHex (sha256 payload).
Proof.
  cbn [sign_at x_amz_content_sha256]. unfold truthy.
  destruct (String.eqb_spec payload EmptyString) as [-> | _]; reflexivity.
Qed.

(** The signer reads the clock once; the three header values are a
    function of that reading and of the arguments. *)
Lemma signAwsRequest_tree (method url : string) (headers : gmap string string)
    (payload : string) (config : S3Config) (urlObj : URL) :
  URL_parse url = Some urlObj ->
  signAwsRequest method url headers payload config =
  Vis Clock (fun now => Ret (sign_at now method urlObj payload config)).
Proof. intros Hurl. unfold signAwsRequest. now rewrite Hurl. Qed.

Lemma run_signAwsRequest (w : World) (method url : string) (headers : gmap string string)
    (payload : string) (config : S3Config) :
  run w (signAwsRequest method url headers payload config) =
  match URL_parse url with
  | Some urlObj => inl (sign_at (clock w) method urlObj payload config)
  | None => inr (TypeError "Invalid URL")
  end.
Proof. unfold signAwsRequest. now destruct (URL_parse url). Qed.

(** With collision-free digests, two payloads that differ give different
    content hashes and different signatures. *)
Lemma sign_at_body_sensitive (now method : string) (urlObj : URL) (config : S3Config)
    (p1 p2 : string) :
  (forall a b, sha256_digest a = sha256_digest b -> a = b) ->
  (forall k a b, hmac_sha256 k a = hmac_sha256 k b -> a = b) ->
  p1 <> p2 ->
  x_amz_content_sha256 (sign_at now method urlObj p1 config) <>
  x_amz_content_sha256 (sign_at now method urlObj p2 config) /\
  Authorization (sign_at now method urlObj p1 config) <>
  Authorization (sign_at now method urlObj p2 config).
Proof.
  intros Hsha Hhmac Hne.
  assert (Hhash : toHex (sha256 p1) <> toHex (sha256 p2)).
  { intros Heq. apply toHex_inj, Hsha, TextEncoder_encode_inj in Heq. contradiction. }
  split; [now rewrite !payload_hash|].
  intros Hauth. apply Hhash.
  pose proof (payload_hash now method urlObj p1 config) as Hp1.
  pose proof (payload_hash now method urlObj p2 config) as Hp2.
  cbn [sign_at x_amz_content_sha256] in Hp1, Hp2.
  cbn [sign_at Authorization] in Hauth. rewrite Hp1, Hp2 in Hauth.
  repeat apply append_inv_head in Hauth.
  apply toHex_inj in Hauth. unfold hmacSha256 in Hauth.
  apply Hhmac, TextEncoder_encode_inj in Hauth.
  repeat apply append_inv_head in Hauth.
  apply toHex_inj in Hauth. unfold sha256 in Hauth.
  apply Hsha, TextEncoder_encode_inj in Hauth.
  repeat apply append_inv_head in Hauth.
  rewrite !append_assoc in Hauth.
  repeat apply append_inv_head in Hauth.
  assert (Hlen : String.length (toHex (sha256 p1)) = String.length (toHex (sha256 p2))).
  { apply (f_equal String.length) in Hauth. rewrite !append_length in Hauth.
    unfold sha256. lia. }
  now destruct (append_inj_same_length _ _ _ _ Hlen Hauth).
Qed.

End Signer.

Section SignerClaims.

Context `{Platform}.

(** Without any assumption on the digests: two payloads that differ and
    receive the same content hash exhibit a SHA-256 collision, and two that
    receive the same signature exhibit a SHA-256 or an HMAC collision. *)
Lemma equal_signatures_exhibit_collision (now method : string) (urlObj : URL)
    (config : S3Config) (p1 p2 : string) :
  p1 <> p2 ->
  (x_amz_content_sha256 (sign_at now method urlObj p1 config) =
   x_amz_content_sha256 (sign_at now method urlObj p2 config) ->
   collision sha256_digest) /\
  (Authorization (sign_at now method urlObj p1 config) =
   Authorization (sign_at now method urlObj p2 config) ->
   collision sha256_digest \/ exists key, collision (hmac_sha256 key)).
Proof.
  intros Hne.
  assert (Hbody : toHex (sha256 p1) = toHex (sha256 p2) -> collision sha256_digest).
  { intros Heq. apply toHex_inj in Heq.
    exists (TextEncoder_encode p1), (TextEncoder_encode p2). split; [|exact Heq].
    intros Henc. apply TextEncoder_encode_inj in Henc. contradiction. }
  split; [rewrite !payload_hash; exact Hbody|].
  intros Hauth.
  pose proof (payload_hash now method urlObj p1 config) as Hp1.
  pose proof (payload_hash now method urlObj p2 config) as Hp2.
  cbn [sign_at x_amz_content_sha256] in Hp1, Hp2.
  cbn [sign_at Authorization] in Hauth. rewrite Hp1, Hp2 in Hauth.
  repeat apply append_inv_head in Hauth.
  apply toHex_inj in Hauth. unfold hmacSha256 in Hauth.
  match type of Hauth with
  | hmac_sha256 ?k (TextEncoder_encode ?m1) = hmac_sha256 ?k (TextEncoder_encode ?m2) =>
      destruct (decide (m1 = m2)) as [Hsts | Hsts];
      [| right; exists k, (TextEncoder_encode m1), (TextEncoder_encode m2);
         split; [intros Henc; apply TextEncoder_encode_inj in Henc; contradiction
                | exact Hauth]]
  end.
  repeat apply append_inv_head in Hsts.
  apply toHex_inj in Hsts. unfold sha256 in Hsts.
  match type of Hsts with
  | sha256_digest (TextEncoder_encode ?c1) = sha256_digest (TextEncoder_encode ?c2) =>
      destruct (decide (c1 = c2)) as [Hcanon | Hcanon];
      [| left; exists (TextEncoder_encode c1), (TextEncoder_encode c2);
         split; [intros Henc; apply TextEncoder_encode_inj in Henc; contradiction
                | exact Hsts]]
  end.
  left. apply Hbody.
  repeat apply append_inv_head in Hcanon.
  rewrite !append_assoc in Hcanon.
  repeat apply append_inv_head in Hcanon.
  assert (Hlen : String.length (toHex (sha256 p1)) = String.length (toHex (sha256 p2))).
  { apply (f_equal String.length) in Hcanon. rewrite !append_length in Hcanon.
    unfold sha256. lia. }
  now destruct (append_inj_same_length _ _ _ _ Hlen Hcanon).
Qed.

(** C2. The signer is deterministic: it reads the clock once and the three
    header values are a function of that reading and of (method, URL, body,
    credentials), so two runs that capture the same timestamp return the
    same x-amz-date, x-amz-content-sha256 and Authorization.  With
    collision-free SHA-256 and HMAC, two bodies whose bytes differ receive
    different content hashes and different signatures; and with no
    assumption on the digests, two such bodies that receive the same content
    hash or the same signature exhibit a collision of SHA-256 or of HMAC. *)
Theorem signer_deterministic_and_body_sensitive
    (method url : string) (headers : gmap string string) (config : S3Config) :
  (forall payload w1 w2,
     clock w1 = clock w2 ->
     run w1 (signAwsRequest method url headers payload config) =
     run w2 (signAwsRequest method url headers payload config)) /\
  (forall urlObj payload,
     URL_parse url = Some urlObj ->
     signAwsRequest method url headers payload config =
     Vis Clock (fun now => Ret (sign_at now method urlObj payload config))) /\
  ((forall a b, sha256_digest a = sha256_digest b -> a = b) ->
   (forall key a b, hmac_sha256 key a = hmac_sha256 key b -> a = b) ->
   forall urlObj w p1 p2,
     URL_parse url = Some urlObj ->
     TextEncoder_encode p1 <> TextEncoder_encode p2 ->
     exists s1 s2,
       run w (signAwsRequest method url headers p1 config) = inl s1 /\
       run w (signAwsRequest method url headers p2 config) = inl s2 /\
       x_amz_date s1 = x_amz_date s2 /\
       x_amz_content_sha256 s1 <> x_amz_content_sha256 s2 /\
       Authorization s1 <> Authorization s2) /\
  (forall urlObj w p1 p2,
     URL_parse url = Some urlObj ->
     TextEncoder_encode p1 <> TextEncoder_encode p2 ->
     exists s1 s2,
       run w (signAwsRequest method url headers p1 config) = inl s1 /\
       run w (signAwsRequest method url headers p2 config) = inl s2 /\
       (x_amz_content_sha256 s1 = x_amz_content_sha256 s2 -> collision sha256_digest) /\
       (Authorization s1 = Authorization s2 ->
        collision sha256_digest \/ exists key, collision (hmac_sha256 key))).
Proof.
  split; [|split; [|split]].
  - intros payload w1 w2 Hclock. rewrite !run_signAwsRequest, Hclock. reflexivity.
  - intros urlObj payload Hurl. now apply signAwsRequest_tree.
  - intros Hsha Hhmac urlObj w p1 p2 Hurl Hne.
    exists (sign_at (clock w) method urlObj p1 config),
           (sign_at (clock w) method urlObj p2 config).
    rewrite !run_signAwsRequest, Hurl.
    split; [reflexivity|]. split; [reflexivity|]. split; [reflexivity|].
    apply sign_at_body_sensitive; try assumption. congruence.
  - intros urlObj w p1 p2 Hurl Hne.
    exists (sign_at (clock w) method urlObj p1 config),
           (sign_at (clock w) method urlObj p2 config).
    rewrite !run_signAwsRequest, Hurl.
    split; [reflexivity|]. split; [reflexivity|].
    apply equal_signatures_exhibit_collision. congruence.
Qed.

End SignerClaims.

Lemma signer_deterministic_and_body_sensitive_witness :
  let url := "https://media.s3.eu-west-1.amazonaws.com/video.mp4?x=1" in
  let urlObj := {| protocol := "https:"; host := "media.s3.eu-west-1.amazonaws.com";
                   hostname := "media.s3.eu-west-1.amazonaws.com";
                   pathname := "/video.mp4"; search := "?x=1" |} in
  let w := Sample.world 200 [] in
  run w (signAwsRequest "PUT" url Headers.empty "body-a" Sample.config) =
  run (Sample.world 404 []) (signAwsRequest "PUT" url Headers.empty "body-a" Sample.config) /\
  signAwsRequest "PUT" url Headers.empty "body-a" Sample.config =
  Vis Clock (fun now => Ret (sign_at now "PUT" urlObj "body-a" Sample.config)) /\
  exists s1 s2,
    run w (signAwsRequest "PUT" url Headers.empty "body-a" Sample.config) = inl s1 /\
    run w (signAwsRequest "PUT" url Headers.empty "body-b" Sample.config) = inl s2 /\
    x_amz_date s1 = x_amz_date s2 /\
    x_amz_content_sha256 s1 <> x_amz_content_sha256 s2 /\
    Authorization s1 <> Authorization s2.
Proof.
  intros url urlObj w.
  destruct (@signer_deterministic_and_body_sensitive Example.platform "PUT" url
              Headers.empty Sample.config) as (Hdet & Honce & Hbody & _).
  split; [apply Hdet; reflexivity|].
  split; [apply Honce; reflexivity|].
  apply Hbody with (urlObj := urlObj).
  - intros a b Hab. exact Hab.
  - intros key a b Hab. exact (app_inv_head key a b Hab).
  - reflexivity.
  - discriminate.
Defined.

(** ** C5: requests to the purge path with another method *)

Section PurgeRouting.

Context `{Platform}.

Variable config : S3Config.

(** The purge handler itself refuses a method other than POST with 405. *)
Lemma handlePurgeRequest_wrong_method (req : Request) (env : Env) :
  req_method req <> "POST" ->
  handlePurgeRequest req env = Ret (error_response 405 "Method not allowed. Use POST.").
Proof.
  intros Hm. unfold handlePurgeRequest.
  now rewrite (proj2 (String.eqb_neq _ _) Hm).
Qed.

(** The entry point only hands POST requests to the purge handler: any
    other method on [/.purge] goes down the proxy pipeline, so the 405
    branch above is never reached from [fetch]. *)
Lemma fetch_purge_path_other_method (req : Request) (env : Env) :
  redirected req env = false ->
  pathname (req_url req) = "/.purge" ->
  req_method req <> "POST" -> req_method req <> "OPTIONS" ->
  fetch config req env =
  proxy config req (req_url req) (origin_of req) (allowed_origins env).
Proof.
  intros Hr Hpath Hpost Hopt. apply fetch_proxied. repeat split; try assumption.
  unfold purge_route. now rewrite (proj2 (String.eqb_neq _ _) Hpost).
Qed.

End PurgeRouting.

(** C5 fails on the code: a GET on [/.purge] is signed and sent to the
    storage origin, and the client receives the origin's answer, not 405. *)
Theorem get_on_purge_path_reaches_storage :
  let req := Sample.request "GET" "/.purge" [] EmptyString in
  let w := Sample.world 200 [] in
  exists rq resp,
    calls w (fetch Sample.config req Sample.env) = [CallStorage rq] /\
    sr_url rq = "https://media.s3.eu-west-1.amazonaws.com/.purge" /\
    sr_method rq = "GET" /\
    run w (fetch Sample.config req Sample.env) = inl resp /\
    status resp = 200 /\ body resp = BodyText "payload" /\
    handlePurgeRequest req Sample.env =
    Ret (error_response 405 "Method not allowed. Use POST.").
Proof.
  intros req w. eexists. eexists.
  split; [reflexivity|]. repeat split.
Qed.

(** ** C6: missing credential fields *)

Section PartialCredentials.

Context `{Platform}.

Lemma storage_request_authorization (config : S3Config) (req : Request) (urlObj : URL)
    (now : string) :
  Headers.get (sr_headers (storage_request config req urlObj now)) "Authorization" =
  Some (Authorization (sign_at now (req_method req) urlObj (payload_of req) config)).
Proof.
  unfold storage_request, SignedHeaders_entries. cbn [sr_headers fold_left fst snd].
  unfold Headers.get, Headers.set. lower_names. apply lookup_insert_eq.
Qed.

(** C6, as amended. The storage configuration is never validated: whatever
    fields it lacks, start-up reaches the listening state, and every request
    that reaches the proxy pipeline and whose storage URL parses is signed
    and sent.  A missing field is rendered as the text [undefined] in the
    storage URL, in the credential scope, in the Credential value and in the
    seed of the signing key. *)
Theorem partial_credentials_are_not_refused
    (config : S3Config) (req : Request) (env : Env) (w : World) (urlObj : URL) :
  proxied req env ->
  URL_parse (storage_url config (req_url req)) = Some urlObj ->
  start_server (Some config) = Listening config /\
  exists rq signed,
    calls w (fetch config req env) = [CallStorage rq] /\
    signed = sign_at (clock w) (req_method req) urlObj (payload_of req) config /\
    Headers.get (sr_headers rq) "Authorization" = Some (Authorization signed) /\
    sr_url rq =
      "https://" +:+ interpolate (bucket config) +:+ "." +:+
      interpolate (endpoint config) +:+ pathname (req_url req) +:+ search (req_url req) /\
    (exists signature,
       Authorization signed =
         "AWS4-HMAC-SHA256 Credential=" +:+ interpolate (accessKeyId config) +:+ "/" +:+
         (JSString.take 8 (x_amz_date signed) +:+ "/" +:+ interpolate (region config) +:+
          "/s3/aws4_request") +:+
         ", SignedHeaders=host;x-amz-content-sha256;x-amz-date, Signature=" +:+ signature) /\
    getSignatureKey (secretAccessKey config) (JSString.take 8 (x_amz_date signed))
      (region config) "s3" =
      hmacSha256
        (KeyBuffer
           (hmacSha256
              (KeyBuffer
                 (hmacSha256
                    (KeyBuffer
                       (hmacSha256
                          (KeyString ("AWS4" +:+ interpolate (secretAccessKey config)))
                          (Some (JSString.take 8 (x_amz_date signed)))))
                    (region config)))
              (Some "s3")))
        (Some "aws4_request").
Proof.
  intros Hp Hurl. split; [reflexivity|].
  exists (storage_request config req urlObj (clock w)).
  eexists. split; [now apply calls_proxied|]. split; [reflexivity|].
  split; [apply storage_request_authorization|]. split; [reflexivity|].
  split; [eexists; reflexivity | reflexivity].
Qed.

End PartialCredentials.

Lemma partial_credentials_are_not_refused_witness :
  let req := Sample.request "GET" "/video.mp4" [] EmptyString in
  let w := Sample.world 200 [] in
  start_server (Some partial_config) = Listening partial_config /\
  exists rq,
    calls w (fetch partial_config req Sample.env) = [CallStorage rq] /\
    is_Some (Headers.get (sr_headers rq) "Authorization") /\
    sr_url rq = "https://media.s3.eu-west-1.amazonaws.com/video.mp4".
Proof.
  intros req w.
  destruct (@partial_credentials_are_not_refused Example.platform partial_config req
              Sample.env w
              {| protocol := "https:"; host := "media.s3.eu-west-1.amazonaws.com";
                 hostname := "media.s3.eu-west-1.amazonaws.com";
                 pathname := "/video.mp4"; search := EmptyString |})
    as (Hstart & rq & signed & Hcalls & _ & Hauth & Hsent & _).
  - repeat split; [discriminate].
  - reflexivity.
  - split; [exact Hstart|]. exists rq. split; [exact Hcalls|].
    split; [rewrite Hauth; eexists; reflexivity | exact Hsent].
Defined.

(** C6 as stated fails: with the region and the secret key missing the
    server starts and a GET is signed and sent; the Authorization header
    names the scope [20240102/undefined/s3/aws4_request]. *)
Lemma request_signed_with_partial_credentials :
  let req := Sample.request "GET" "/video.mp4" [] EmptyString in
  let w := Sample.world 200 [] in
  secretAccessKey partial_config = None /\ region partial_config = None /\
  start_server (Some partial_config) = Listening partial_config /\
  exists rq authorization,
    calls w (fetch partial_config req Sample.env) = [CallStorage rq] /\
    Headers.get (sr_headers rq) "Authorization" = Some authorization /\
    String.prefix
      "AWS4-HMAC-SHA256 Credential=AKIDEXAMPLE/20240102/undefined/s3/aws4_request, "
      authorization = true /\
    Headers.get (sr_headers rq) "x-amz-date" = Some "20240102T030405Z".
Proof.
  intros req w. split; [reflexivity|]. split; [reflexivity|]. split; [reflexivity|].
  eexists. eexists. split; [reflexivity|]. vm_compute. repeat split.
Qed.

(** ** C7: validation of purge requests *)

Section PurgeValidation.

Context `{Platform}.

Variable config : S3Config.

Lemma token_check_iff (env : Env) (token : jsval) :
  truthy_opt (CF_PURGE_TOKEN env) &&
  negb (JS.strict_eq_string token (interpolate (CF_PURGE_TOKEN env))) = true <->
  token_rejected env token.
Proof.
  unfold token_rejected. destruct (CF_PURGE_TOKEN env) as [secret|]; cbn [truthy_opt interpolate].
  - split.
    + intros Hcheck. apply andb_prop in Hcheck as [Hs Hneq].
      exists secret. split; [reflexivity|]. split; [now apply truthy_true|].
      intros ->. cbn [JS.strict_eq_string] in Hneq. now rewrite String.eqb_refl in Hneq.
    + intros (s & [= <-] & Hs & Hneq). apply andb_true_intro. split.
      * now apply truthy_true.
      * apply negb_true_iff. destruct token as [[| | |t| |]|]; try reflexivity.
        cbn [JS.strict_eq_string]. apply String.eqb_neq. congruence.
  - split; [discriminate|]. intros (s & Hs & _). discriminate.
Qed.

Lemma no_purge_secret_accepts (env : Env) (token : jsval) :
  no_purge_secret env -> ~ token_rejected env token.
Proof.
  intros [Hnone | Hempty] (s & Hs & Hne & _).
  - congruence.
  - rewrite Hempty in Hs. injection Hs as <-. now apply Hne.
Qed.

Ltac enter_purge Hwf :=
  let Hr := fresh "Hr" in
  let Hroute := fresh "Hroute" in
  let ct := fresh "ct" in
  let Hct := fresh "Hct" in
  let Hjson := fresh "Hjson" in
  let Htext := fresh "Htext" in
  let Hparse := fresh "Hparse" in
  let Hzone := fresh "Hzone" in
  let Hapi := fresh "Hapi" in
  let Hpost := fresh "Hpost" in
  destruct Hwf as (Hr & Hroute & (ct & Hct & Hjson) & Htext & Hparse & Hzone & Hapi);
  rewrite fetch_purge by assumption;
  unfold purge_route in Hroute; apply andb_prop in Hroute as [Hpost _];
  apply truthy_true in Htext;
  unfold handlePurgeRequest, read_purge_body;
  rewrite Hpost, Hct, Hjson, Htext, Hparse; cbn [negb].

Lemma leaf_fails_before_any_call (status : nat) (message : string) :
  fails_before_any_call (Ret (error_response status message)) status message.
Proof. split; reflexivity. Qed.

(** C7, as amended. For a POST on the purge path that declares JSON, whose
    body parses to a value other than [null], with zone id and API token
    configured, the checks run in this order.  First the token: when a
    secret is configured and the token is not exactly that string, the
    answer is 401.  Otherwise the url: when the field is absent or falsy
    (null, false, 0, the empty string) the answer is 400, and when the text
    [String(url)] does not parse as a URL the answer is 400.  Without a
    configured secret no token is rejected.  Each of these answers is given
    before any outbound call.  Once every check has passed, the purge API
    is called exactly once, unless the headers field of the body is [null]:
    reading its origin then throws, and the answer is 500 without any
    call. *)
Theorem purge_validation_order (req : Request) (env : Env) (body : json) :
  well_formed_purge req env body -> body <> JNull ->
  (token_rejected env (prop body "token") ->
   fails_before_any_call (fetch config req env) 401 "Unauthorized") /\
  (no_purge_secret env -> ~ token_rejected env (prop body "token")) /\
  (~ token_rejected env (prop body "token") ->
   JS.truthy (prop body "url") = false ->
   fails_before_any_call (fetch config req env) 400 "Missing 'url' parameter") /\
  (~ token_rejected env (prop body "token") ->
   forall urlv, prop body "url" = Some urlv -> JS.truthy (Some urlv) = true ->
                URL_parse (JS.to_string urlv) = None ->
                fails_before_any_call (fetch config req env) 400 "Invalid URL format") /\
  (~ token_rejected env (prop body "token") ->
   forall urlv urlObj,
     prop body "url" = Some urlv -> JS.truthy (Some urlv) = true ->
     URL_parse (JS.to_string urlv) = Some urlObj ->
     (prop body "headers" = Some JNull ->
      fetch config req env =
        Ret (internal_error
               (TypeError "Cannot read properties of null (reading 'origin')")) /\
      forall w, calls w (fetch config req env) = []) /\
     (prop body "headers" <> Some JNull ->
      forall w, exists call,
        calls w (fetch config req env) = [CallPurge call] /\
        pc_url call = "https://api.cloudflare.com/client/v4/zones/" +:+
                      interpolate (CF_ZONE_ID env) +:+ "/purge_cache" /\
        pc_authorization call = "Bearer " +:+ interpolate (CF_API_TOKEN env))).
Proof.
  intros Hwf Hbody.
  split; [|split; [|split; [|split]]].
  - intros Htoken. apply token_check_iff in Htoken.
    enter_purge Hwf. destruct body; [contradiction|..];
      rewrite Hzone, Hapi, Htoken; apply leaf_fails_before_any_call.
  - apply no_purge_secret_accepts.
  - intros Htoken Hurl.
    assert (Hcheck : truthy_opt (CF_PURGE_TOKEN env) &&
                     negb (JS.strict_eq_string (prop body "token")
                             (interpolate (CF_PURGE_TOKEN env))) = false).
    { apply not_true_iff_false. now rewrite token_check_iff. }
    enter_purge Hwf. destruct body; [contradiction|..];
      rewrite Hzone, Hapi, Hcheck; cbn [negb];
      (destruct (prop _ "url") as [urlv|]; [rewrite Hurl|]);
      apply leaf_fails_before_any_call.
  - intros Htoken urlv Hv Htruthy Hparse_url.
    assert (Hcheck : truthy_opt (CF_PURGE_TOKEN env) &&
                     negb (JS.strict_eq_string (prop body "token")
                             (interpolate (CF_PURGE_TOKEN env))) = false).
    { apply not_true_iff_false. now rewrite token_check_iff. }
    enter_purge Hwf. destruct body; [contradiction|..];
      rewrite Hzone, Hapi, Hcheck, Hv, Htruthy, Hparse_url;
      apply leaf_fails_before_any_call.
  - intros Htoken urlv urlObj Hv Htruthy Hparse_url.
    assert (Hcheck : truthy_opt (CF_PURGE_TOKEN env) &&
                     negb (JS.strict_eq_string (prop body "token")
                             (interpolate (CF_PURGE_TOKEN env))) = false).
    { apply not_true_iff_false. now rewrite token_check_iff. }
    enter_purge Hwf.
    destruct body as [| | | | |fields]; try discriminate Hv.
    rewrite Hzone, Hapi, Hcheck, Hv, Htruthy, Hparse_url. cbn [negb].
    split.
    + intros ->. split; reflexivity.
    + intros Hheaders w.
      destruct (prop (JObj fields) "headers") as [[]|]; [contradiction|..];
        cbn [bind await_fetch try_catch calls call_of answer app];
        (eexists; split;
         [ match goal with
           | |- context [purge_api w ?c] => destruct (purge_api w c) as [reply|]
           end; cbn [bind try_catch calls]; try reflexivity;
           destruct (pr_json reply); [destruct (pr_ok reply)|]; reflexivity
         | split; reflexivity ]).
Qed.

End PurgeValidation.

Lemma purge_validation_order_witness :
  let req := json_purge_request numeric_url_body in
  let body := JObj [("url", JNum 42)] in
  well_formed_purge req Sample.env body /\
  fails_before_any_call (fetch Sample.config req Sample.env) 400 "Invalid URL format".
Proof.
  intros req body.
  assert (Hwf : well_formed_purge req Sample.env body).
  { repeat split; try reflexivity; try discriminate.
    exists "application/json". split; reflexivity. }
  split; [exact Hwf|].
  destruct (@purge_validation_order Example.platform Sample.config req Sample.env body Hwf)
    as (_ & Hnone & _ & Hinvalid & _).
  - discriminate.
  - apply Hinvalid with (urlv := JNum 42).
    + apply Hnone. left. reflexivity.
    + reflexivity.
    + reflexivity.
    + reflexivity.
Defined.

(** C7 as stated fails: a url field holding an array with one URL string
    is wrong-typed, yet no check rejects it; the purge API is called and the
    client receives 200. *)
Lemma array_valued_url_is_accepted :
  let req := json_purge_request array_url_body in
  let w := Sample.world 200 [] in
  JSON_parse (trim (req_text req)) =
    Some (JObj [("url", JArr [JStr "https://cdn.example/a.js"])]) /\
  no_purge_secret Sample.env /\
  exists call resp,
    calls w (fetch Sample.config req Sample.env) = [CallPurge call] /\
    pc_body call =
      JObj [("files",
             JArr [JObj [("url", JArr [JStr "https://cdn.example/a.js"]);
                         ("headers", JObj [("origin", JStr "https://cdn.example")])]])] /\
    run w (fetch Sample.config req Sample.env) = inl resp /\
    status resp = 200.
Proof.
  intros req w. split; [reflexivity|]. split; [now left|].
  eexists. eexists. split; [reflexivity|]. split; [reflexivity|].
  split; reflexivity.
Qed.

(** A body that is the JSON value [null] is well formed, has no url field,
    and is answered with 500: reading a property of [null] throws and the
    handler's catch turns the exception into the internal-error response. *)
Example null_body_is_an_internal_error :
  exists resp,
    fetch Sample.config (json_purge_request "null") Sample.env = Ret resp /\
    status resp = 500.
Proof. eexists. split; reflexivity. Qed.

(** The token is checked before the url: with a secret configured, a
    request with neither token nor url is answered 401, not 400. *)
Example missing_token_and_url_is_unauthorized :
  let env := {| CF_ZONE_ID := Some "zone-1"; CF_API_TOKEN := Some "api-token";
                CF_PURGE_TOKEN := Some "s3cret"; DISABLE_HTTPS_REDIRECT := None;
                ALLOWED_ORIGINS := None |} in
  fetch Sample.config (json_purge_request "{}") env =
  Ret (error_response 401 "Unauthorized").
Proof. reflexivity. Qed.

(** ** Scenarios of the specification, run on the example platform *)

(** The pattern compiled for [example.com] and what it accepts. *)
Example domain_pattern_samples :
  RegExp_new (domain_pattern_source "example.com") =
    Some (Modelled (domain_regex "example.com")) /\
  map (Regex.test (domain_regex "example.com"))
    [ "example.com"; "cdn.example.com"; "a.b.example.com";
      "evilexample.com"; "example.com.evil.org"; "exampleXcom"; "example.co" ] =
    [ true; true; true; false; false; false; false ].
Proof. split; reflexivity. Qed.

(** GET [/video.mp4] with an allowed Origin: the origin is echoed, the
    content type follows the extension, the cache policy is the long one. *)
Example scenario_allowed_origin_video :
  let req := Sample.request "GET" "/video.mp4" [("Origin", "https://allowed.example")]
               EmptyString in
  exists resp,
    run (Sample.world 200 [("Content-Type", "binary/octet-stream")])
        (fetch Sample.config req Sample.env) = inl resp /\
    Headers.get (headers resp) "Access-Control-Allow-Origin" = Some "https://allowed.example" /\
    Headers.get (headers resp) "Content-Type" = Some "video/mp4" /\
    Headers.get (headers resp) "Accept-Ranges" = Some "bytes" /\
    Headers.get (headers resp) "Cache-Control" =
      Some "public, max-age=60, s-maxage=31536000, must-revalidate".
Proof. intros req. eexists. split; [reflexivity|]. vm_compute. repeat split. Qed.

(** A purge of [https://cdn.example/a.js] without a configured secret: the
    origin header of the outbound payload is derived from the URL. *)
Example scenario_purge_origin_derived :
  exists call,
    calls (Sample.world 200 []) (fetch Sample.config (json_purge_request plain_url_body)
                                   Sample.env) = [CallPurge call] /\
    pc_url call = "https://api.cloudflare.com/client/v4/zones/zone-1/purge_cache" /\
    pc_authorization call = "Bearer api-token" /\
    pc_body call =
      JObj [("files",
             JArr [JObj [("url", JStr "https://cdn.example/a.js");
                         ("headers", JObj [("origin", JStr "https://cdn.example")])]])].
Proof. eexists. split; [reflexivity|]. repeat split. Qed.

(** A request over plain HTTP with the redirect enabled: 301 to the same
    URL over HTTPS, and nothing is sent to storage. *)
Example scenario_https_redirect :
  let req := {| req_method := "GET";
                req_url := {| protocol := "http:"; host := "cdn.example";
                              hostname := "cdn.example"; pathname := "/video.mp4";
                              search := "?v=2" |};
                req_headers := Headers.empty; req_text := EmptyString |} in
  exists resp,
    fetch Sample.config req Sample.env = Ret resp /\
    status resp = 301 /\
    Headers.get (headers resp) "Location" = Some "https://cdn.example/video.mp4?v=2" /\
    forall w, calls w (fetch Sample.config req Sample.env) = [].
Proof. intros req. eexists. split; [reflexivity|]. repeat split. Qed.

(** The signing-key chain on the example platform, where a keyed digest is
    the key followed by the message: the seed is [AWS4] and the secret. *)
Example signing_key_chain_sample :
  string_of_list_byte (getSignatureKey (Some "secret") "20240102" (Some "eu-west-1") "s3") =
  "AWS4secret20240102eu-west-1s3aws4_request".
Proof. reflexivity. Qed.

(** ** The request sent to storage *)

(** The copy loop of the upstream request builder, read at one name: a
    blocked name is absent, every other name holds what the request held. *)
Lemma forward_loop_lookup (h : gmap string string) :
  lowercase_keys h ->
  forall k,
    map_fold
      (fun key value newHeaders =>
         let lowerKey := toLowerCase key in
         if bool_decide (lowerKey ∈ PURGE_BLOCKING_HEADERS) then newHeaders
         else Headers.set newHeaders key value)
      Headers.empty h !! k =
    if bool_decide (toLowerCase k ∈ PURGE_BLOCKING_HEADERS) then None else h !! k.
Proof.
  apply (map_fold_weak_ind
           (fun acc m => lowercase_keys m ->
              forall k, acc !! k =
                        if bool_decide (toLowerCase k ∈ PURGE_BLOCKING_HEADERS)
                        then None else m !! k)).
  - intros _ k. unfold Headers.empty. rewrite !lookup_empty. now case_bool_decide.
  - intros key value m acc Hfresh IH Hlow k. cbv zeta.
    assert (Hkey : toLowerCase key = key).
    { apply Hlow. rewrite lookup_insert_eq. now eexists. }
    assert (Hlow' : lowercase_keys m).
    { intros n Hn. apply Hlow. destruct (decide (key = n)) as [<- | Hne].
      - rewrite lookup_insert_eq. now eexists.
      - now rewrite lookup_insert_ne by exact Hne. }
    specialize (IH Hlow'). rewrite Hkey.
    destruct (decide (key = k)) as [<- | Hne].
    + rewrite Hkey. case_bool_decide as Hb.
      * rewrite IH, Hkey. now rewrite bool_decide_eq_true_2 by exact Hb.
      * unfold Headers.set. rewrite Hkey. now rewrite !lookup_insert_eq.
    + rewrite lookup_insert_ne by exact Hne.
      case_bool_decide as Hb; [apply IH|].
      unfold Headers.set. rewrite Hkey, lookup_insert_ne by exact Hne. apply IH.
Qed.

Section UpstreamRequest.

Context `{Platform}.

Variable config : S3Config.

Lemma storage_request_lookup (req : Request) (urlObj : URL) (now : string) (k : string) :
  sr_headers (storage_request config req urlObj now) !! k =
  let signed := sign_at now (req_method req) urlObj (payload_of req) config in
  if String.eqb k "authorization" then Some (Authorization signed)
  else if String.eqb k "x-amz-content-sha256" then Some (x_amz_content_sha256 signed)
  else if String.eqb k "x-amz-date" then Some (x_amz_date signed)
  else if String.eqb k "host" then Some (storage_host config)
  else map_fold
         (fun key value newHeaders =>
            let lowerKey := toLowerCase key in
            if bool_decide (lowerKey ∈ PURGE_BLOCKING_HEADERS) then newHeaders
            else Headers.set newHeaders key value)
         Headers.empty (req_headers req) !! k.
Proof.
  cbv zeta. unfold storage_request, SignedHeaders_entries, forwarded_headers, storage_host.
  cbn [sr_headers fold_left fst snd]. unfold Headers.set. lower_names.
  destruct (String.eqb_spec k "authorization") as [-> | Ha]; [apply lookup_insert_eq|].
  rewrite lookup_insert_ne by congruence.
  destruct (String.eqb_spec k "x-amz-content-sha256") as [-> | Hc]; [apply lookup_insert_eq|].
  rewrite lookup_insert_ne by congruence.
  destruct (String.eqb_spec k "x-amz-date") as [-> | Hd]; [apply lookup_insert_eq|].
  rewrite lookup_insert_ne by congruence.
  destruct (String.eqb_spec k "host") as [-> | Hh]; [apply lookup_insert_eq|].
  now rewrite lookup_insert_ne by congruence.
Qed.

(** X1. On every proxied request the four headers Host, Authorization,
    x-amz-date and x-amz-content-sha256 of the request sent to storage hold
    the values the worker computed: the bucket host and the three outputs of
    the signer.  Whatever the client sent under these names, in any case, is
    replaced. *)
Theorem client_cannot_set_host_or_signature
    (req : Request) (env : Env) (w : World) (urlObj : URL) :
  proxied req env ->
  URL_parse (storage_url config (req_url req)) = Some urlObj ->
  exists rq,
    calls w (fetch config req env) = [CallStorage rq] /\
    let signed := sign_at (clock w) (req_method req) urlObj (payload_of req) config in
    Headers.get (sr_headers rq) "Host" = Some (storage_host config) /\
    Headers.get (sr_headers rq) "Authorization" = Some (Authorization signed) /\
    Headers.get (sr_headers rq) "X-Amz-Date" = Some (x_amz_date signed) /\
    Headers.get (sr_headers rq) "X-Amz-Content-Sha256" = Some (x_amz_content_sha256 signed).
Proof.
  intros Hp Hurl. exists (storage_request config req urlObj (clock w)).
  split; [now apply calls_proxied|].
  cbv zeta. unfold Headers.get. lower_names.
  rewrite !storage_request_lookup. repeat split; reflexivity.
Qed.

(** X2. Every other request header reaches storage unchanged: for a name
    that is not purge-blocking, not one of the four the worker writes and
    not Set-Cookie, the request sent to storage holds exactly what the
    client request held under that name, absent when it was absent.
    Set-Cookie is left aside: the copy loop receives the values of that
    header one by one, and each [set] replaces the value before. *)
Theorem other_request_headers_are_forwarded
    (req : Request) (env : Env) (w : World) (urlObj : URL) :
  proxied req env ->
  URL_parse (storage_url config (req_url req)) = Some urlObj ->
  lowercase_keys (req_headers req) ->
  exists rq,
    calls w (fetch config req env) = [CallStorage rq] /\
    forall name,
      ~ blocked name -> ~ In (toLowerCase name) WORKER_REQUEST_HEADERS ->
      toLowerCase name <> "set-cookie" ->
      Headers.get (sr_headers rq) name = Headers.get (req_headers req) name.
Proof.
  intros Hp Hurl Hlow. exists (storage_request config req urlObj (clock w)).
  split; [now apply calls_proxied|].
  intros name Hnb Hnw _. unfold Headers.get. rewrite storage_request_lookup. cbv zeta.
  destruct (String.eqb_spec (toLowerCase name) "authorization") as [Heq | _];
    [exfalso; apply Hnw; rewrite Heq; cbn; tauto|].
  destruct (String.eqb_spec (toLowerCase name) "x-amz-content-sha256") as [Heq | _];
    [exfalso; apply Hnw; rewrite Heq; cbn; tauto|].
  destruct (String.eqb_spec (toLowerCase name) "x-amz-date") as [Heq | _];
    [exfalso; apply Hnw; rewrite Heq; cbn; tauto|].
  destruct (String.eqb_spec (toLowerCase name) "host") as [Heq | _];
    [exfalso; apply Hnw; rewrite Heq; cbn; tauto|].
  rewrite forward_loop_lookup by exact Hlow.
  rewrite toLowerCase_idem. now rewrite bool_decide_eq_false_2 by exact Hnb.
Qed.

(** X3. The request line and the body sent to storage.  The target is the
    bucket host followed by the path and the query of the client URL, the
    method is the client's.  A GET or HEAD sends no body and signs the hash
    of the empty payload, even when the client request carried text; every
    other method sends the request text and signs the hash of that same
    text. *)
Theorem forwarded_body_is_the_signed_body
    (req : Request) (env : Env) (w : World) (urlObj : URL) :
  proxied req env ->
  URL_parse (storage_url config (req_url req)) = Some urlObj ->
  exists rq,
    calls w (fetch config req env) = [CallStorage rq] /\
    sr_url rq = "https://" +:+ storage_host config +:+
                pathname (req_url req) +:+ search (req_url req) /\
    sr_method rq = req_method req /\
    (req_method req = "GET" \/ req_method req = "HEAD" ->
     sr_body rq = None /\
     Headers.get (sr_headers rq) "x-amz-content-sha256" = Some (toHex (sha256 EmptyString))) /\
    (req_method req <> "GET" -> req_method req <> "HEAD" ->
     sr_body rq = Some (req_text req) /\
     Headers.get (sr_headers rq) "x-amz-content-sha256" = Some (toHex (sha256 (req_text req)))).
Proof.
  intros Hp Hurl. exists (storage_request config req urlObj (clock w)).
  split; [now apply calls_proxied|].
  split.
  { cbn [storage_request sr_url]. unfold storage_url, storage_host.
    now rewrite !append_assoc. }
  split; [reflexivity|].
  unfold Headers.get. lower_names. rewrite storage_request_lookup. cbv zeta.
  cbn [String.eqb Ascii.eqb Bool.eqb]. rewrite payload_hash.
  cbn [storage_request sr_body]. unfold payload_of, is_get_or_head.
  split.
  - intros [-> | ->]; split; reflexivity.
  - intros Hg Hh. rewrite (string_eqb_false Hg), (string_eqb_false Hh). split; reflexivity.
Qed.

End UpstreamRequest.

Lemma client_cannot_set_host_or_signature_witness :
  let req := Sample.request "PUT" "/upload.bin"
               [("Host", "cdn.example"); ("Authorization", "Bearer client-token");
                ("X-Amz-Date", "19700101T000000Z")] "data" in
  let w := Sample.world 200 [] in
  let urlObj := {| protocol := "https:"; host := "media.s3.eu-west-1.amazonaws.com";
                   hostname := "media.s3.eu-west-1.amazonaws.com";
                   pathname := "/upload.bin"; search := EmptyString |} in
  exists rq,
    calls w (fetch Sample.config req Sample.env) = [CallStorage rq] /\
    Headers.get (sr_headers rq) "Host" = Some "media.s3.eu-west-1.amazonaws.com" /\
    Headers.get (sr_headers rq) "Authorization" =
      Some (Authorization (sign_at (clock w) "PUT" urlObj "data" Sample.config)) /\
    Headers.get (sr_headers rq) "X-Amz-Date" = Some "20240102T030405Z" /\
    Headers.get (sr_headers rq) "X-Amz-Content-Sha256" = Some (toHex (sha256 "data")).
Proof.
  intros req w urlObj.
  refine (@client_cannot_set_host_or_signature Example.platform Sample.config req
            Sample.env w urlObj _ _).
  - repeat split; discriminate.
  - reflexivity.
Defined.

Lemma other_request_headers_are_forwarded_witness :
  let req := Sample.request "GET" "/video.mp4"
               [("Range", "bytes=0-99"); ("Origin", "https://allowed.example")]
               EmptyString in
  let w := Sample.world 206 [] in
  exists rq,
    calls w (fetch Sample.config req Sample.env) = [CallStorage rq] /\
    forall name,
      ~ blocked name -> ~ In (toLowerCase name) WORKER_REQUEST_HEADERS ->
      toLowerCase name <> "set-cookie" ->
      Headers.get (sr_headers rq) name = Headers.get (req_headers req) name.
Proof.
  intros req w.
  refine (@other_request_headers_are_forwarded Example.platform Sample.config req
            Sample.env w
            {| protocol := "https:"; host := "media.s3.eu-west-1.amazonaws.com";
               hostname := "media.s3.eu-west-1.amazonaws.com";
               pathname := "/video.mp4"; search := EmptyString |} _ _ _).
  - repeat split; discriminate.
  - reflexivity.
  - unfold req, Sample.request, Headers.of_list. cbn [req_headers fold_left fst snd].
    do 2 apply lowercase_keys_set. apply lowercase_keys_empty.
Defined.

Lemma forwarded_body_is_the_signed_body_witness :
  let req := Sample.request "GET" "/video.mp4" [] "ignored text" in
  let w := Sample.world 200 [] in
  exists rq,
    calls w (fetch Sample.config req Sample.env) = [CallStorage rq] /\
    sr_url rq = "https://media.s3.eu-west-1.amazonaws.com/video.mp4" /\
    sr_method rq = "GET" /\
    (req_method req = "GET" \/ req_method req = "HEAD" ->
     sr_body rq = None /\
     Headers.get (sr_headers rq) "x-amz-content-sha256" = Some (toHex (sha256 EmptyString))) /\
    (req_method req <> "GET" -> req_method req <> "HEAD" ->
     sr_body rq = Some (req_text req) /\
     Headers.get (sr_headers rq) "x-amz-content-sha256" = Some (toHex (sha256 (req_text req)))).
Proof.
  intros req w.
  refine (@forwarded_body_is_the_signed_body Example.platform Sample.config req
            Sample.env w
            {| protocol := "https:"; host := "media.s3.eu-west-1.amazonaws.com";
               hostname := "media.s3.eu-west-1.amazonaws.com";
               pathname := "/video.mp4"; search := EmptyString |} _ _).
  - repeat split; discriminate.
  - reflexivity.
Defined.

(** ** The response returned to the client *)

Lemma toLowerCase_append (a b : string) :
  toLowerCase (a +:+ b) = toLowerCase a +:+ toLowerCase b.
Proof. induction a as [|c a IH]; push_append; cbn [toLowerCase]; push_append; now f_equal. Qed.

Lemma lower_ascii_dot (c : ascii) : Ascii.eqb (lower_ascii c) "." = Ascii.eqb c ".".
Proof. destruct c as [[] [] [] [] [] [] [] []]; reflexivity. Qed.

Lemma no_dot_toLowerCase (t : string) : no_dot (toLowerCase t) = no_dot t.
Proof.
  induction t as [|c t IH]; [reflexivity|].
  cbn [toLowerCase no_dot]. now rewrite lower_ascii_dot, IH.
Qed.

Lemma toLowerCase_empty (t : string) : toLowerCase t = EmptyString -> t = EmptyString.
Proof. now destruct t. Qed.

(** Every media type of the table is a non-empty string. *)
Lemma MIME_TYPES_truthy (ext mime : string) :
  object_get ext MIME_TYPES = Some mime -> truthy mime = true.
Proof.
  unfold MIME_TYPES. cbn [object_get].
  repeat (destruct (String.eqb ext _); [intros [= <-]; reflexivity|]).
  discriminate.
Qed.

Lemma getMimeType_extension_of (path : string) :
  getMimeType path =
  match extension_of (toLowerCase path) with
  | Some ext => object_get ext MIME_TYPES
  | None => None
  end.
Proof.
  unfold getMimeType. rewrite match0_extension_pattern.
  destruct (extension_of (toLowerCase path)) as [ext|] eqn:Hext; [|reflexivity].
  apply extension_of_Some in Hext as [Hext _].
  destruct ext as [|c t]; [discriminate|]. reflexivity.
Qed.

Lemma isFontRequest_extension_of (path : string) :
  isFontRequest path =
  match extension_of (toLowerCase path) with
  | Some ext => bool_decide (ext ∈ FONT_EXTENSIONS)
  | None => false
  end.
Proof.
  unfold isFontRequest. rewrite match0_extension_pattern.
  destruct (extension_of (toLowerCase path)) as [ext|] eqn:Hext; [|reflexivity].
  apply extension_of_Some in Hext as [Hext _].
  destruct ext as [|c t]; [discriminate|]. reflexivity.
Qed.

Lemma extension_of_last_dot (stem t : string) :
  t <> EmptyString -> no_dot t = true ->
  extension_of (toLowerCase (stem +:+ "." +:+ t)) = Some ("." +:+ toLowerCase t).
Proof.
  intros Ht Hno. apply extension_of_Some. split.
  - change ("." +:+ toLowerCase t) with (String "." (toLowerCase t)).
    cbn [is_extension Ascii.eqb Bool.eqb andb]. rewrite no_dot_toLowerCase, Hno.
    rewrite andb_true_r. apply truthy_true. intros He. apply Ht.
    now apply toLowerCase_empty.
  - exists (toLowerCase stem). now rewrite !toLowerCase_append.
Qed.

Lemma extension_of_no_dot (path : string) :
  no_dot path = true -> extension_of path = None.
Proof.
  intros Hno. destruct (extension_of path) as [ext|] eqn:Hext; [|reflexivity].
  apply extension_of_Some in Hext as [Hext [pre ->]].
  destruct ext as [|c t]; [discriminate|]. cbn [is_extension] in Hext.
  apply andb_prop in Hext as [Hext _]. apply andb_prop in Hext as [Hc _].
  apply Ascii.eqb_eq in Hc. subst c. now rewrite no_dot_append_dot in Hno.
Qed.

(** X4. The media type and the font test read the text from the last dot
    of the path, in lower case: for a path that ends with a dot followed by
    a non-empty text [t] without a dot, the media type is the table entry of
    [.t] lower-cased, and the request is a font request exactly when that
    lower-cased extension is one of the five font extensions.  Earlier dots
    of the path play no part. *)
Theorem mime_type_is_looked_up_by_last_extension (stem t : string) :
  t <> EmptyString -> no_dot t = true ->
  getMimeType (stem +:+ "." +:+ t) = object_get ("." +:+ toLowerCase t) MIME_TYPES /\
  isFontRequest (stem +:+ "." +:+ t) = bool_decide ("." +:+ toLowerCase t ∈ FONT_EXTENSIONS).
Proof.
  intros Ht Hno.
  rewrite getMimeType_extension_of, isFontRequest_extension_of.
  rewrite (extension_of_last_dot stem Ht Hno). split; reflexivity.
Qed.

Lemma no_dot_not_after_dot (t : string) :
  t <> EmptyString -> no_dot t = true -> forall x y, x +:+ "." <> y +:+ t.
Proof.
  intros Ht Hno x y. revert x. induction y as [|c y IH]; intros x; push_append.
  - intros <-. now rewrite no_dot_append_dot in Hno.
  - destruct x as [|c' x]; push_append.
    + intros [= _ Hnil]. destruct y; [|discriminate]. now apply Ht.
    + intros [= _ Heq]. now apply (IH x).
Qed.

Lemma extension_of_trailing_dot (stem : string) : extension_of (stem +:+ ".") = None.
Proof.
  destruct (extension_of (stem +:+ ".")) as [ext|] eqn:Hext; [|reflexivity].
  apply extension_of_Some in Hext as [Hext [pre Hpre]].
  destruct ext as [|c t]; [discriminate|]. cbn [is_extension] in Hext.
  apply andb_prop in Hext as [Hext Hno]. apply andb_prop in Hext as [_ Ht].
  apply truthy_true in Ht.
  change (String c t) with (String c EmptyString +:+ t) in Hpre.
  rewrite <- append_assoc in Hpre. now apply no_dot_not_after_dot in Hpre.
Qed.

(** X5. A path without any dot, or whose last character is a dot, has no
    extension: it has no media type and is not a font request. *)
Theorem path_without_extension_has_no_media_type (path : string) :
  no_dot path = true \/ ends_with path "." ->
  getMimeType path = None /\ isFontRequest path = false.
Proof.
  intros Hpath. rewrite getMimeType_extension_of, isFontRequest_extension_of.
  assert (Hnone : extension_of (toLowerCase path) = None).
  { destruct Hpath as [Hno | [stem ->]].
    - apply extension_of_no_dot. now rewrite no_dot_toLowerCase.
    - rewrite toLowerCase_append. apply extension_of_trailing_dot. }
  rewrite Hnone. split; reflexivity.
Qed.

Lemma font_extension_media_type (path : string) :
  isFontRequest path = true ->
  exists mime, getMimeType path = Some mime /\ In mime FONT_MIME_TYPES.
Proof.
  rewrite getMimeType_extension_of, isFontRequest_extension_of.
  destruct (extension_of (toLowerCase path)) as [ext|]; [|discriminate].
  intros Hfont. apply bool_decide_eq_true in Hfont. apply list_elem_of_In in Hfont.
  repeat (destruct Hfont as [<- | Hfont];
          [eexists; split; [reflexivity | cbn; tauto]|]).
  destruct Hfont.
Qed.

(** X6. Every font extension has a media type: a font request always
    receives a Content-Type from the table, one of the five font media
    types. *)
Theorem font_request_has_font_media_type (path : string) :
  isFontRequest path = true ->
  exists mime, getMimeType path = Some mime /\ In mime FONT_MIME_TYPES.
Proof. apply font_extension_media_type. Qed.

Lemma mime_type_is_looked_up_by_last_extension_witness :
  getMimeType "/Archive.2024/Clip.MP4" = Some "video/mp4" /\
  isFontRequest "/Archive.2024/Clip.MP4" = false.
Proof.
  destruct (@mime_type_is_looked_up_by_last_extension "/Archive.2024/Clip" "MP4")
    as [Hmime Hfont].
  - discriminate.
  - reflexivity.
  - split; [exact Hmime | exact Hfont].
Defined.

Lemma path_without_extension_has_no_media_type_witness :
  getMimeType "/downloads/README" = None /\ isFontRequest "/downloads/README" = false.
Proof.
  apply (@path_without_extension_has_no_media_type "/downloads/README"). left. reflexivity.
Defined.

Lemma font_request_has_font_media_type_witness :
  exists mime, getMimeType "/fonts/Inter.WOFF2" = Some mime /\ In mime FONT_MIME_TYPES.
Proof. apply (@font_request_has_font_media_type "/fonts/Inter.WOFF2"). reflexivity. Defined.

(** [new Headers(init)] of a header map with lower-case names is that
    map. *)
Lemma copy_lowercase (h : gmap string string) : lowercase_keys h -> Headers.copy h = h.
Proof.
  unfold Headers.copy.
  apply (map_fold_weak_ind (fun acc m => lowercase_keys m -> acc = m)).
  - reflexivity.
  - intros key value m acc Hfresh IH Hlow.
    assert (Hkey : toLowerCase key = key).
    { apply Hlow. rewrite lookup_insert_eq. now eexists. }
    assert (Hlow' : lowercase_keys m).
    { intros n Hn. apply Hlow. destruct (decide (key = n)) as [<- | Hne].
      - rewrite lookup_insert_eq. now eexists.
      - now rewrite lookup_insert_ne by exact Hne. }
    rewrite (IH Hlow'). unfold Headers.append. now rewrite Hkey, Hfresh.
Qed.

Section ResponsePolicy.

Context `{Platform}.

Variable config : S3Config.

Lemma response_cors_headers_other (h : gmap string string) (req : Request) (url : URL)
    (origin : option string) (allowed : list RegExp) (k : string) :
  k <> "access-control-allow-origin" -> k <> "access-control-allow-methods" ->
  k <> "access-control-allow-headers" ->
  response_cors_headers h req url origin allowed !! k = h !! k.
Proof.
  intros Ho Hm Hh. unfold response_cors_headers, Headers.set. lower_names.
  repeat match goal with
         | |- context [if ?b then _ else _] => destruct b
         end; rewrite ?lookup_insert_ne by congruence; reflexivity.
Qed.

(** The response headers read at a name the later steps leave alone: the
    value is the one held after the Content-Type and Accept-Ranges steps. *)
Lemma response_headers_lookup (req : Request) (url : URL) (origin : option string)
    (allowed : list RegExp) (originResp : OriginResponse) (k : string) :
  ~ In k PURGE_BLOCKING_HEADERS ->
  k <> "access-control-allow-origin" -> k <> "access-control-allow-methods" ->
  k <> "access-control-allow-headers" -> k <> "cache-control" ->
  k <> "vary" -> k <> "pragma" -> k <> "expires" ->
  response_headers req url origin allowed originResp !! k =
  if String.eqb k "accept-ranges" then Some "bytes"
  else if String.eqb k "content-type" then
    match getMimeType (pathname url) with
    | Some mime => Some mime
    | None => Headers.copy (or_headers originResp) !! k
    end
  else Headers.copy (or_headers originResp) !! k.
Proof.
  intros Hb Ho Hm Hh Hc Hv Hp He.
  unfold response_headers, Headers.delete. lower_names.
  rewrite !lookup_delete_ne by congruence.
  rewrite fold_delete_blocking_other by exact Hb.
  assert (Hcache : forall h : gmap string string,
             (if (or_status originResp =? 404)%nat || (or_status originResp =? 403)%nat
              then Headers.set h "Cache-Control"
                     "public, max-age=300, s-maxage=31536000, immutable"
              else Headers.set h "Cache-Control"
                     "public, max-age=60, s-maxage=31536000, must-revalidate") !! k = h !! k).
  { intros h. destruct (_ || _); unfold Headers.set; lower_names;
      now rewrite lookup_insert_ne by congruence. }
  rewrite Hcache, response_cors_headers_other by assumption.
  unfold Headers.set at 1. lower_names.
  destruct (String.eqb_spec k "accept-ranges") as [-> | Har]; [apply lookup_insert_eq|].
  rewrite lookup_insert_ne by congruence.
  destruct (getMimeType (pathname url)) as [mime|] eqn:Hmime.
  - rewrite getMimeType_extension_of in Hmime.
    destruct (extension_of _) as [ext|]; [|discriminate].
    rewrite (MIME_TYPES_truthy _ Hmime). unfold Headers.set. lower_names.
    destruct (String.eqb_spec k "content-type") as [-> | Hct]; [apply lookup_insert_eq|].
    now rewrite lookup_insert_ne by congruence.
  - now destruct (String.eqb k "content-type").
Qed.

Lemma response_headers_deleted (req : Request) (url : URL) (origin : option string)
    (allowed : list RegExp) (originResp : OriginResponse) (k : string) :
  k = "vary" \/ k = "pragma" \/ k = "expires" ->
  response_headers req url origin allowed originResp !! k = None.
Proof.
  unfold response_headers, Headers.delete. lower_names.
  intros [-> | [-> | ->]].
  - rewrite !lookup_delete_ne by discriminate. apply lookup_delete_eq.
  - rewrite lookup_delete_ne by discriminate. apply lookup_delete_eq.
  - apply lookup_delete_eq.
Qed.

Ltac not_in_literal :=
  let Hin := fresh "Hin" in
  intros Hin; repeat (destruct Hin as [Hin | Hin]; [discriminate Hin|]); destruct Hin.

(** X7. The fixed part of every proxied response, for an origin status
    from 200 to 599: the status and the body are the origin's;
    Accept-Ranges is [bytes]; Content-Type is the media type of the path's
    extension when the table has one and the origin's value otherwise; Vary,
    Pragma and Expires are absent, whatever the origin sent. *)
Theorem response_fixed_headers
    (req : Request) (env : Env) (w : World) (urlObj : URL) (originResp : OriginResponse) :
  proxied req env ->
  URL_parse (storage_url config (req_url req)) = Some urlObj ->
  storage w (storage_request config req urlObj (clock w)) = Some originResp ->
  constructible_status (or_status originResp) ->
  exists resp,
    run w (fetch config req env) = inl resp /\
    status resp = or_status originResp /\
    body resp = or_body originResp /\
    Headers.get (headers resp) "Accept-Ranges" = Some "bytes" /\
    Headers.get (headers resp) "Content-Type" =
      match getMimeType (pathname (req_url req)) with
      | Some mime => Some mime
      | None => Headers.get (Headers.copy (or_headers originResp)) "Content-Type"
      end /\
    Headers.has (headers resp) "Vary" = false /\
    Headers.has (headers resp) "Pragma" = false /\
    Headers.has (headers resp) "Expires" = false.
Proof.
  intros Hp Hurl Hst _. exists (proxy_response req env originResp).
  split; [rewrite run_proxied with (urlObj := urlObj) by assumption; now rewrite Hst|].
  split; [reflexivity|]. split; [reflexivity|].
  cbn [proxy_response headers]. unfold Headers.get, Headers.has. lower_names.
  rewrite !response_headers_lookup by first [discriminate | not_in_literal].
  rewrite !response_headers_deleted by tauto.
  cbn [String.eqb Ascii.eqb Bool.eqb].
  split; [reflexivity|]. split; [reflexivity|].
  split; [|split]; apply bool_decide_eq_false; intros [? Hx]; discriminate.
Qed.

(** X8. Every other header of the origin response reaches the client
    unchanged: for an origin status from 200 to 599 and a name that is not
    purge-blocking and not one the response path writes or deletes, the
    client response holds exactly what the origin response held, absent when
    it was absent.  Among them are ETag, Content-Length, Content-Range,
    Last-Modified and Access-Control-Max-Age. *)
Theorem other_origin_headers_pass_through
    (req : Request) (env : Env) (w : World) (urlObj : URL) (originResp : OriginResponse) :
  proxied req env ->
  URL_parse (storage_url config (req_url req)) = Some urlObj ->
  storage w (storage_request config req urlObj (clock w)) = Some originResp ->
  constructible_status (or_status originResp) ->
  lowercase_keys (or_headers originResp) ->
  exists resp,
    run w (fetch config req env) = inl resp /\
    forall name,
      ~ blocked name -> ~ In (toLowerCase name) WORKER_RESPONSE_HEADERS ->
      Headers.get (headers resp) name = Headers.get (or_headers originResp) name.
Proof.
  intros Hp Hurl Hst _ Hlow. exists (proxy_response req env originResp).
  split; [rewrite run_proxied with (urlObj := urlObj) by assumption; now rewrite Hst|].
  intros name Hnb Hnw. cbn [proxy_response headers]. unfold Headers.get.
  assert (Hne : forall n, In n WORKER_RESPONSE_HEADERS -> toLowerCase name <> n).
  { intros n Hn Heq. apply Hnw. now rewrite Heq. }
  rewrite response_headers_lookup;
    try (apply Hne; cbn; tauto).
  - rewrite (string_eqb_false (Hne "accept-ranges" ltac:(cbn; tauto))).
    rewrite (string_eqb_false (Hne "content-type" ltac:(cbn; tauto))).
    now rewrite copy_lowercase by exact Hlow.
  - intros Hin. apply Hnb. unfold blocked. now apply list_elem_of_In.
Qed.

(** X9. A font request that reaches the proxy pipeline is answered, for
    an origin status from 200 to 599, with a font media type as Content-Type
    and with the wildcard CORS grant, whatever the Origin header, the method
    and the headers of the origin response. *)
Theorem font_response_is_typed_and_open
    (req : Request) (env : Env) (w : World) (urlObj : URL) (originResp : OriginResponse) :
  proxied req env ->
  URL_parse (storage_url config (req_url req)) = Some urlObj ->
  storage w (storage_request config req urlObj (clock w)) = Some originResp ->
  constructible_status (or_status originResp) ->
  isFontRequest (pathname (req_url req)) = true ->
  exists resp mime,
    run w (fetch config req env) = inl resp /\
    Headers.get (headers resp) "Content-Type" = Some mime /\ In mime FONT_MIME_TYPES /\
    cors_granted (headers resp) "*".
Proof.
  intros Hp Hurl Hst _ Hfont.
  destruct (font_extension_media_type _ Hfont) as (mime & Hmime & Hin).
  exists (proxy_response req env originResp), mime.
  split; [rewrite run_proxied with (urlObj := urlObj) by assumption; now rewrite Hst|].
  split.
  { cbn [proxy_response headers]. unfold Headers.get. lower_names.
    rewrite response_headers_lookup by first [discriminate | not_in_literal].
    cbn [String.eqb Ascii.eqb Bool.eqb]. now rewrite Hmime. }
  split; [exact Hin|].
  cbn [proxy_response headers].
  destruct (response_headers_cors_names req (req_url req) (origin_of req)
              (allowed_origins env) originResp) as (base & _ & Hsame).
  apply (cors_granted_transfer Hsame).
  destruct (response_cors_headers_table base req (req_url req) (origin_of req)
              (allowed_origins env)) as [Hrow _].
  apply Hrow. now apply isFontRequest_iff.
Qed.

End ResponsePolicy.

Lemma response_fixed_headers_witness :
  let req := Sample.request "GET" "/movies/trailer.MP4" [] EmptyString in
  let hs := [("Content-Type", "binary/octet-stream"); ("Vary", "Origin");
             ("Pragma", "no-cache"); ("Expires", "0"); ("Accept-Ranges", "none")] in
  let w := Sample.world 206 hs in
  exists resp,
    run w (fetch Sample.config req Sample.env) = inl resp /\
    status resp = 206 /\
    body resp = BodyText "payload" /\
    Headers.get (headers resp) "Accept-Ranges" = Some "bytes" /\
    Headers.get (headers resp) "Content-Type" = Some "video/mp4" /\
    Headers.has (headers resp) "Vary" = false /\
    Headers.has (headers resp) "Pragma" = false /\
    Headers.has (headers resp) "Expires" = false.
Proof.
  intros req hs w.
  refine (@response_fixed_headers Example.platform Sample.config req Sample.env w
            {| protocol := "https:"; host := "media.s3.eu-west-1.amazonaws.com";
               hostname := "media.s3.eu-west-1.amazonaws.com";
               pathname := "/movies/trailer.MP4"; search := EmptyString |}
            (Build_OriginResponse 206 (Headers.of_list hs) (BodyText "payload")) _ _ _ _).
  - repeat split; discriminate.
  - reflexivity.
  - reflexivity.
  - unfold constructible_status. cbn [or_status]. lia.
Defined.

Lemma other_origin_headers_pass_through_witness :
  let req := Sample.request "GET" "/video.mp4" [] EmptyString in
  let hs := [("ETag", "abc"); ("Content-Length", "7"); ("Vary", "Origin")] in
  let w := Sample.world 200 hs in
  exists resp,
    run w (fetch Sample.config req Sample.env) = inl resp /\
    forall name,
      ~ blocked name -> ~ In (toLowerCase name) WORKER_RESPONSE_HEADERS ->
      Headers.get (headers resp) name = Headers.get (Headers.of_list hs) name.
Proof.
  intros req hs w.
  refine (@other_origin_headers_pass_through Example.platform Sample.config req
            Sample.env w
            {| protocol := "https:"; host := "media.s3.eu-west-1.amazonaws.com";
               hostname := "media.s3.eu-west-1.amazonaws.com";
               pathname := "/video.mp4"; search := EmptyString |}
            (Build_OriginResponse 200 (Headers.of_list hs) (BodyText "payload")) _ _ _ _ _).
  - repeat split; discriminate.
  - reflexivity.
  - reflexivity.
  - unfold constructible_status. cbn [or_status]. lia.
  - unfold hs, Headers.of_list. cbn [or_headers fold_left fst snd].
    do 3 apply lowercase_keys_set. apply lowercase_keys_empty.
Defined.

Lemma font_response_is_typed_and_open_witness :
  let req := Sample.request "POST" "/fonts/Inter.woff2"
               [("Origin", "https://stranger.example")] EmptyString in
  let w := Sample.world 200 [("Content-Type", "binary/octet-stream")] in
  exists resp mime,
    run w (fetch Sample.config req Sample.env) = inl resp /\
    Headers.get (headers resp) "Content-Type" = Some mime /\ In mime FONT_MIME_TYPES /\
    cors_granted (headers resp) "*".
Proof.
  intros req w.
  refine (@font_response_is_typed_and_open Example.platform Sample.config req
            Sample.env w
            {| protocol := "https:"; host := "media.s3.eu-west-1.amazonaws.com";
               hostname := "media.s3.eu-west-1.amazonaws.com";
               pathname := "/fonts/Inter.woff2"; search := EmptyString |}
            (Build_OriginResponse 200
               (Headers.of_list [("Content-Type", "binary/octet-stream")])
               (BodyText "payload")) _ _ _ _ _).
  - repeat split; discriminate.
  - reflexivity.
  - reflexivity.
  - unfold constructible_status. cbn [or_status]. lia.
  - reflexivity.
Defined.

(** ** The HTTPS redirect *)

Section Redirect.

Context `{Platform}.

Variable config : S3Config.


(** X11. The decision table of the preflight branch.  For an OPTIONS
    request that passes the redirect check the answer is 204 with exactly
    these headers: for a font path, the wildcard grant; otherwise, for an
    Origin whose host name matches the allowed set, the grant echoing that
    Origin; otherwise, for an absent Origin or the text [null], the wildcard
    grant; each grant with [Access-Control-Max-Age: 86400].  In every other
    case the answer carries no header at all. *)
Theorem preflight_decision_table (req : Request) (env : Env) :
  redirected req env = false ->
  req_method req = "OPTIONS" ->
  exists cors,
    fetch config req env = Ret {| status := 204; headers := cors; body := BodyNull |} /\
    let path := pathname (req_url req) in
    let origin := origin_of req in
    let allowed := allowed_origins env in
    (has_font_extension path ->
     cors_granted cors "*" /\ Headers.get cors "Access-Control-Max-Age" = Some "86400") /\
    (~ has_font_extension path -> origin_hostname_matches origin allowed ->
     exists o, origin = Some o /\ cors_granted cors o /\
               Headers.get cors "Access-Control-Max-Age" = Some "86400") /\
    (~ has_font_extension path -> ~ origin_hostname_matches origin allowed ->
     origin_absent_or_null origin ->
     cors_granted cors "*" /\ Headers.get cors "Access-Control-Max-Age" = Some "86400") /\
    (~ has_font_extension path -> ~ origin_hostname_matches origin allowed ->
     ~ origin_absent_or_null origin ->
     cors = ∅).
Proof.
  intros Hr Hm. rewrite fetch_preflight by assumption.
  eexists. split; [reflexivity|]. cbv zeta.
  unfold preflight_cors_headers.
  pose proof (isSafeNoCorsRequest_iff req (origin_of req)) as Hsafe.
  rewrite <- isFontRequest_iff, <- origin_check_iff.
  destruct (isFontRequest (pathname (req_url req))).
  { split; [|split; [|split]].
    - intros _. unfold cors_granted, Headers.get, Headers.set. lower_names.
      repeat first [ rewrite lookup_insert_eq | rewrite lookup_insert_ne by discriminate ].
      repeat split; reflexivity.
    - intros Hno. exfalso. now apply Hno.
    - intros Hno. exfalso. now apply Hno.
    - intros Hno. exfalso. now apply Hno. }
  destruct (truthy_opt (origin_of req) && isOriginAllowed (origin_of req) (allowed_origins env))
    eqn:Hallowed.
  { split; [|split; [|split]].
    - discriminate.
    - intros _ _. destruct (origin_of req) as [o|]; [|discriminate]. exists o.
      split; [reflexivity|]. cbn [interpolate].
      unfold cors_granted, Headers.get, Headers.set. lower_names.
      repeat first [ rewrite lookup_insert_eq | rewrite lookup_insert_ne by discriminate ].
      repeat split; reflexivity.
    - intros _ Hno. exfalso. now apply Hno.
    - intros _ Hno. exfalso. now apply Hno. }
  destruct (isSafeNoCorsRequest req (origin_of req)).
  { split; [|split; [|split]].
    - discriminate.
    - discriminate.
    - intros _ _ _. unfold cors_granted, Headers.get, Headers.set. lower_names.
      repeat first [ rewrite lookup_insert_eq | rewrite lookup_insert_ne by discriminate ].
      repeat split; reflexivity.
    - intros _ _ Hno. exfalso. apply Hno. now apply Hsafe. }
  split; [|split; [|split]]; try discriminate.
  - intros _ _ Hnull. exfalso.
    assert (Hcontra : false = true).
    { apply Hsafe. split; [exact Hnull|]. unfold get_head_or_options. tauto. }
    discriminate.
  - reflexivity.
Qed.

End Redirect.


Lemma preflight_decision_table_witness :
  let req := Sample.request "OPTIONS" "/private/report.pdf"
               [("Origin", "https://stranger.example")] EmptyString in
  exists cors,
    fetch Sample.config req Sample.env =
      Ret {| status := 204; headers := cors; body := BodyNull |} /\
    cors = ∅.
Proof.
  intros req.
  destruct (@preflight_decision_table Example.platform Sample.config req Sample.env)
    as (cors & Hfetch & _ & _ & _ & Hnone); [reflexivity | reflexivity |].
  exists cors. split; [exact Hfetch|]. apply Hnone.
  - rewrite <- isFontRequest_iff. discriminate.
  - rewrite <- origin_check_iff. discriminate.
  - intros [Habs | Hnull]; discriminate.
Defined.

(** ** The allowed-origin list of the environment *)

Section AllowList.

Context `{Platform}.

Lemma isOriginAllowed_nil (origin : option string) : isOriginAllowed origin [] = false.
Proof.
  unfold isOriginAllowed. destruct origin as [o|]; [|reflexivity].
  destruct (negb (truthy o)); [reflexivity|]. now destruct (URL_parse o).
Qed.

Lemma compile_domains_failure (ds : list string) (d : string) :
  In d ds -> RegExp_new (domain_pattern_source d) = None -> compile_domains ds = None.
Proof.
  induction ds as [|d' ds IH]; intros Hin Hbad; [destruct Hin|].
  cbn [compile_domains]. destruct Hin as [-> | Hin].
  - now rewrite Hbad.
  - destruct (RegExp_new (domain_pattern_source d')); [|reflexivity].
    now rewrite (IH Hin Hbad).
Qed.

(** X12. Without configured domains no Origin is allowed: when
    ALLOWED_ORIGINS is unset, empty, or holds only commas and white space,
    the allowed set is empty and the origin test fails for every Origin
    header. *)
Theorem no_configured_domain_allows_no_origin (env : Env) (origin : option string) :
  ALLOWED_ORIGINS env = None \/
  (exists text, ALLOWED_ORIGINS env = Some text /\ configured_domains text = []) ->
  allowed_origins env = [] /\
  isOriginAllowed origin (allowed_origins env) = false /\
  ~ origin_hostname_matches origin (allowed_origins env).
Proof.
  intros Hcfg.
  assert (Hnil : allowed_origins env = []).
  { unfold allowed_origins. destruct Hcfg as [-> | (text & -> & Hds)]; [reflexivity|].
    rewrite Hds. now destruct (truthy text). }
  split; [exact Hnil|]. rewrite Hnil. split; [apply isOriginAllowed_nil|].
  intros (o & url & pattern & _ & _ & Hin & _). destruct Hin.
Qed.

(** X13. One entry that does not compile disables the whole list: when
    the pattern of some configured domain is rejected by the RegExp
    constructor, the exception is caught, the allowed set stays empty, and
    the origin test fails for every Origin header, the origins of the valid
    entries included. *)
Theorem one_invalid_entry_disables_the_list
    (env : Env) (text d : string) (origin : option string) :
  ALLOWED_ORIGINS env = Some text ->
  In d (configured_domains text) ->
  RegExp_new (domain_pattern_source d) = None ->
  allowed_origins env = [] /\
  isOriginAllowed origin (allowed_origins env) = false.
Proof.
  intros Htext Hin Hbad.
  assert (Hnil : allowed_origins env = []).
  { unfold allowed_origins. rewrite Htext, (compile_domains_failure _ _ Hin Hbad).
    now destruct (truthy text). }
  split; [exact Hnil|]. rewrite Hnil. apply isOriginAllowed_nil.
Qed.

(** X14. Domain entries are matched with regard to case: the pattern of a
    plain entry that contains an upper-case letter accepts no lower-case
    host name, and host names of parsed URLs are in lower case. *)
Theorem domain_entry_is_case_sensitive (d h : string) :
  plain_domain d = true ->
  toLowerCase d <> d ->
  toLowerCase h = h ->
  exists p, RegExp_new (domain_pattern_source d) = Some p /\ RegExp_test p h = false.
Proof.
  intros Hplain Hd Hh. exists (Modelled (domain_regex d)).
  split; [now apply RegExp_new_plain_domain|].
  cbn [RegExp_test]. apply not_true_iff_false. rewrite test_domain_regex.
  intros [-> | [pre Heq]]; [contradiction|].
  apply Hd. rewrite Heq in Hh. rewrite !toLowerCase_append in Hh.
  change (toLowerCase ".") with "." in Hh.
  rewrite <- !append_assoc in Hh.
  assert (Hlen : String.length (toLowerCase pre +:+ ".") = String.length (pre +:+ ".")).
  { rewrite !append_length. f_equal. clear. induction pre as [|c pre IH]; [reflexivity|].
    cbn [toLowerCase String.length]. now f_equal. }
  now destruct (append_inj_same_length _ _ _ _ Hlen Hh).
Qed.

End AllowList.

Lemma no_configured_domain_allows_no_origin_witness :
  let env := {| CF_ZONE_ID := None; CF_API_TOKEN := None; CF_PURGE_TOKEN := None;
                DISABLE_HTTPS_REDIRECT := None; ALLOWED_ORIGINS := Some " , ," |} in
  allowed_origins env = [] /\
  isOriginAllowed (Some "https://allowed.example") (allowed_origins env) = false /\
  ~ origin_hostname_matches (Some "https://allowed.example") (allowed_origins env).
Proof.
  intros env.
  apply (@no_configured_domain_allows_no_origin Example.platform env
           (Some "https://allowed.example")).
  right. exists " , ,". split; reflexivity.
Defined.

Lemma one_invalid_entry_disables_the_list_witness :
  let env := {| CF_ZONE_ID := None; CF_API_TOKEN := None; CF_PURGE_TOKEN := None;
                DISABLE_HTTPS_REDIRECT := None;
                ALLOWED_ORIGINS := Some "allowed.example, (cdn.example" |} in
  allowed_origins env = [] /\
  isOriginAllowed (Some "https://allowed.example") (allowed_origins env) = false.
Proof.
  intros env.
  apply (@one_invalid_entry_disables_the_list Example.platform env
           "allowed.example, (cdn.example" "(cdn.example" (Some "https://allowed.example")).
  - reflexivity.
  - right. left. reflexivity.
  - reflexivity.
Defined.

Lemma domain_entry_is_case_sensitive_witness :
  exists p, RegExp_new (domain_pattern_source "Example.com") = Some p /\
            RegExp_test p "example.com" = false.
Proof.
  apply (@domain_entry_is_case_sensitive Example.platform "Example.com" "example.com").
  - reflexivity.
  - discriminate.
  - reflexivity.
Defined.

(** ** Running handlers: sequencing and catching *)

Lemma run_bind {A B : Type} (w : World) (m : Eff A) (f : A -> Eff B) :
  run w (bind m f) = match run w m with inl a => run w (f a) | inr e => inr e end.
Proof. induction m as [a | e | X ev k IH]; cbn [bind run]; [reflexivity | reflexivity | apply IH]. Qed.

Lemma calls_bind {A B : Type} (w : World) (m : Eff A) (f : A -> Eff B) :
  calls w (bind m f) =
  calls w m ++ match run w m with inl a => calls w (f a) | inr _ => [] end.
Proof.
  induction m as [a | e | X ev k IH]; cbn [bind run calls]; [reflexivity | reflexivity |].
  rewrite IH. now rewrite app_assoc.
Qed.

Lemma run_try_catch {A : Type} (w : World) (m : Eff A) (h : exn -> Eff A) :
  run w (try_catch m h) = match run w m with inl a => inl a | inr e => run w (h e) end.
Proof.
  induction m as [a | e | X ev k IH]; cbn [try_catch run]; [reflexivity | reflexivity | apply IH].
Qed.

Lemma calls_try_catch {A : Type} (w : World) (m : Eff A) (h : exn -> Eff A) :
  calls w (try_catch m h) =
  calls w m ++ match run w m with inl _ => [] | inr e => calls w (h e) end.
Proof.
  induction m as [a | e | X ev k IH]; cbn [try_catch run calls].
  - reflexivity.
  - reflexivity.
  - rewrite IH. now rewrite app_assoc.
Qed.

(** ** Objects under construction *)

Lemma field_assign (k k' : string) (v : json) (fs : list (string * json)) :
  JS.field k' (JS.assign k v fs) = if String.eqb k' k then Some v else JS.field k' fs.
Proof.
  induction fs as [|[k0 v0] fs IH]; cbn [JS.assign JS.field].
  - reflexivity.
  - destruct (String.eqb_spec k k0) as [<- | Hne]; cbn [JS.field].
    + now destruct (String.eqb k' k).
    + rewrite IH. destruct (String.eqb_spec k' k0) as [-> | Hne']; [|reflexivity].
      now rewrite (proj2 (String.eqb_neq k0 k)) by congruence.
Qed.

Lemma field_not_in (k : string) (fs : list (string * json)) :
  ~ In k (map fst fs) -> JS.field k fs = None.
Proof.
  induction fs as [|[k0 v0] fs IH]; cbn [map fst JS.field In]; intros Hk; [reflexivity|].
  destruct (String.eqb_spec k k0) as [-> | _]; [tauto|]. apply IH. tauto.
Qed.

(** Spreading an object with distinct keys over an object under
    construction: the spread fields win, the others are kept. *)
Lemma field_fold_assign (fs : list (string * json)) :
  NoDup (map fst fs) ->
  forall (init : list (string * json)) (k : string),
    JS.field k (fold_left (fun o kv => JS.assign (fst kv) (snd kv) o) fs init) =
    match JS.field k fs with
    | Some v => Some v
    | None => JS.field k init
    end.
Proof.
  induction fs as [|[k0 v0] fs IH]; intros Hnd init k; [reflexivity|].
  cbn [map fst] in Hnd. apply NoDup_cons in Hnd as [Hk0 Hnd].
  rewrite list_elem_of_In in Hk0.
  cbn [fold_left fst snd JS.field]. rewrite (IH Hnd), field_assign.
  destruct (String.eqb_spec k k0) as [-> | _]; [|reflexivity].
  now rewrite (field_not_in _ _ Hk0).
Qed.

(** ** The purge handler *)

Section PurgeHandler.

Context `{Platform}.

Variable config : S3Config.

Lemma purge_shape_outcome (m : Eff Response) (details : exn -> json) (w : World) :
  purge_shape m ->
  let handled := try_catch m (fun error => Ret (json_response 500 (details error))) in
  exists resp j,
    run w handled = inl resp /\
    headers resp = Headers.of_list [("Content-Type", "application/json")] /\
    body resp = BodyJson j /\
    (calls w handled = [] \/ exists c, calls w handled = [CallPurge c]).
Proof.
  intros Hshape handled. subst handled.
  destruct Hshape as [m [status j | e] | c k Hk].
  - eexists. eexists. repeat split. now left.
  - eexists. eexists. repeat split. now left.
  - cbn [try_catch run calls call_of answer app].
    destruct (Hk (purge_api w c)) as [status j | e];
      (eexists; eexists; repeat split; right; now eexists).
Qed.

Ltac shape_leaf := apply ps_leaf; constructor.

Lemma handlePurgeRequest_shape (req : Request) (env : Env) :
  exists m details,
    handlePurgeRequest req env =
      try_catch m (fun error => Ret (json_response 500 (details error))) /\
    purge_shape m.
Proof.
  unfold handlePurgeRequest. eexists. eexists. split; [reflexivity|].
  unfold read_purge_body, error_response.
  destruct (negb (String.eqb (req_method req) "POST")); [shape_leaf|].
  destruct (negb (includes _ "application/json")); [shape_leaf|].
  destruct (negb (truthy (trim (req_text req)))); [shape_leaf|].
  destruct (JSON_parse (trim (req_text req))) as [parsed|]; [|shape_leaf].
  destruct (negb (truthy_opt (CF_ZONE_ID env)));
    [destruct parsed; shape_leaf|].
  destruct (negb (truthy_opt (CF_API_TOKEN env)));
    [destruct parsed; shape_leaf|].
  destruct (truthy_opt (CF_PURGE_TOKEN env) && _);
    [destruct parsed; shape_leaf|].
  destruct (prop parsed "url") as [urlv|]; [|destruct parsed; shape_leaf].
  destruct (negb (JS.truthy (Some urlv))); [destruct parsed; shape_leaf|].
  destruct (URL_parse (JS.to_string urlv)) as [urlObj|]; [|destruct parsed; shape_leaf].
  assert (Hcall : forall (c : PurgeCall) (url : json),
             purge_shape
               (bind (await_fetch (PurgeFetch c))
                  (fun purgeResp =>
                     match pr_json purgeResp with
                     | None => Throw (TypeError "Unexpected end of JSON input")
                     | Some result =>
                         if negb (pr_ok purgeResp) then
                           Ret (json_response (pr_status purgeResp) result)
                         else
                           Ret (json_response 200
                                  (JObj [ ("success", JBool true);
                                          ("message", JStr "Cache purge initiated successfully");
                                          ("url", url);
                                          ("result", result) ]))
                     end))).
  { intros c url. cbn [bind await_fetch]. apply ps_call. intros [reply|]; cbn [bind].
    - destruct (pr_json reply); [destruct (negb (pr_ok reply))|]; constructor.
    - constructor. }
  destruct (prop parsed "headers") as [supplied|].
  - destruct supplied; [destruct parsed; shape_leaf|..];
      (destruct parsed; [shape_leaf|..]; apply Hcall).
  - destruct parsed; [shape_leaf|..]; apply Hcall.
Qed.

Lemma handlePurgeRequest_outcome (req : Request) (env : Env) (w : World) :
  exists resp j,
    run w (handlePurgeRequest req env) = inl resp /\
    headers resp = Headers.of_list [("Content-Type", "application/json")] /\
    body resp = BodyJson j /\
    (calls w (handlePurgeRequest req env) = [] \/
     exists c, calls w (handlePurgeRequest req env) = [CallPurge c]).
Proof.
  destruct (handlePurgeRequest_shape req env) as (m & details & -> & Hshape).
  now apply purge_shape_outcome.
Qed.

(** X15. The purge handler never throws and always answers JSON: in every
    world, for every request and environment, it returns a response whose
    only header is [Content-Type: application/json] and whose body is a JSON
    text; exceptions raised on the way, the failure of the API call
    included, are answered by the handler itself.  It makes no call or
    exactly one call to the purge API, and never calls the storage
    origin. *)
Theorem purge_handler_always_answers_json (req : Request) (env : Env) (w : World) :
  exists resp j,
    run w (handlePurgeRequest req env) = inl resp /\
    headers resp = Headers.of_list [("Content-Type", "application/json")] /\
    body resp = BodyJson j /\
    (calls w (handlePurgeRequest req env) = [] \/
     exists c, calls w (handlePurgeRequest req env) = [CallPurge c]).
Proof. apply handlePurgeRequest_outcome. Qed.

Ltac enter_parsed Hp :=
  let Hr := fresh "Hr" in
  let Hroute := fresh "Hroute" in
  let Hjson := fresh "Hjson" in
  let Htext := fresh "Htext" in
  let Hparse := fresh "Hparse" in
  let Hpost := fresh "Hpost" in
  destruct Hp as (Hr & Hroute & Hjson & Htext & Hparse);
  rewrite fetch_purge by assumption;
  unfold purge_route in Hroute; apply andb_prop in Hroute as [Hpost _];
  apply truthy_true in Htext; unfold declares_json in Hjson;
  unfold handlePurgeRequest, read_purge_body;
  rewrite Hpost, Hjson, Htext, Hparse; cbn [negb].

(** X16. The client errors of the purge handler come before any look at
    the configuration or the token.  For a request routed to the handler:
    a Content-Type that is absent or does not contain the text
    [application/json], in that exact case, is answered 400; otherwise a body
    that is empty once trimmed is answered 400; otherwise a text that is not
    JSON is answered 400 with the parser's message and the first 200
    characters of the trimmed text.  Each answer is given at once, without
    any outbound call. *)
Theorem purge_client_errors_come_first (req : Request) (env : Env) :
  redirected req env = false -> purge_route req = true ->
  (declares_json req = false ->
   answers_json (fetch config req env) 400
     [("error", JStr "Invalid Content-Type. Use application/json.")]) /\
  (declares_json req = true -> trim (req_text req) = EmptyString ->
   exists fields,
     answers_json (fetch config req env) 400 fields /\
     JS.field "error" fields = Some (JStr "Empty request body")) /\
  (declares_json req = true -> trim (req_text req) <> EmptyString ->
   JSON_parse (trim (req_text req)) = None ->
   exists fields,
     answers_json (fetch config req env) 400 fields /\
     JS.field "error" fields = Some (JStr "Invalid JSON in request body") /\
     JS.field "details" fields = Some (JStr (JSON_parse_error (trim (req_text req)))) /\
     JS.field "receivedText" fields = Some (JStr (JSString.take 200 (trim (req_text req))))).
Proof.
  intros Hr Hroute. rewrite fetch_purge by assumption.
  unfold purge_route in Hroute. apply andb_prop in Hroute as [Hpost _].
  unfold answers_json, declares_json, handlePurgeRequest, read_purge_body.
  rewrite Hpost. cbn [negb].
  split; [|split].
  - intros ->. reflexivity.
  - intros -> ->. eexists. split; [reflexivity|]. reflexivity.
  - intros -> Htext Hparse. apply truthy_true in Htext. rewrite Htext, Hparse.
    eexists. split; [reflexivity|]. repeat split; reflexivity.
Qed.

(** X17. A body that parses is answered 500 before the token is looked
    at, in three cases: the body is the JSON value [null] (reading its
    fields throws, and the catch block answers); the zone id is unset or
    empty; the zone id is set and the API token is unset or empty.  The
    answer does not depend on the token or the url of the body, and no
    outbound call is made. *)
Theorem purge_misconfiguration_answers_500 (req : Request) (env : Env) (body : json) :
  parsed_purge req env body ->
  (body = JNull ->
   fetch config req env =
   Ret (internal_error
          (TypeError "Cannot destructure property 'url' of 'body' as it is null."))) /\
  (body <> JNull -> truthy_opt (CF_ZONE_ID env) = false ->
   fails_before_any_call (fetch config req env) 500
     "Missing CF_ZONE_ID environment variable") /\
  (body <> JNull -> truthy_opt (CF_ZONE_ID env) = true ->
   truthy_opt (CF_API_TOKEN env) = false ->
   fails_before_any_call (fetch config req env) 500
     "Missing CF_API_TOKEN environment variable").
Proof.
  intros Hp. split; [|split].
  - intros ->. enter_parsed Hp. reflexivity.
  - intros Hbody Hzone. enter_parsed Hp.
    destruct body; [contradiction|..]; rewrite Hzone; apply leaf_fails_before_any_call.
  - intros Hbody Hzone Hapi. enter_parsed Hp.
    destruct body; [contradiction|..]; rewrite Hzone, Hapi; apply leaf_fails_before_any_call.
Qed.

Ltac enter_accepted Hacc :=
  let Hwf := fresh "Hwf" in
  let Htoken := fresh "Htoken" in
  let Hv := fresh "Hv" in
  let Htruthy := fresh "Htruthy" in
  let Hurl := fresh "Hurl" in
  let Hheaders := fresh "Hheaders" in
  let Hr := fresh "Hr" in
  let Hroute := fresh "Hroute" in
  let ct := fresh "ct" in
  let Hct := fresh "Hct" in
  let Hjson := fresh "Hjson" in
  let Htext := fresh "Htext" in
  let Hparse := fresh "Hparse" in
  let Hzone := fresh "Hzone" in
  let Hapi := fresh "Hapi" in
  let Hpost := fresh "Hpost" in
  let Hcheck := fresh "Hcheck" in
  destruct Hacc as (Hwf & Htoken & Hv & Htruthy & Hurl & Hheaders);
  assert (Hcheck : truthy_opt (CF_PURGE_TOKEN _) &&
                   negb (JS.strict_eq_string (prop _ "token")
                           (interpolate (CF_PURGE_TOKEN _))) = false)
    by (apply not_true_iff_false; rewrite token_check_iff; exact Htoken);
  destruct Hwf as (Hr & Hroute & (ct & Hct & Hjson) & Htext & Hparse & Hzone & Hapi);
  rewrite ?fetch_purge by assumption;
  unfold purge_route in Hroute; apply andb_prop in Hroute as [Hpost _];
  apply truthy_true in Htext;
  unfold handlePurgeRequest, read_purge_body;
  rewrite ?Hpost, ?Hct, ?Hjson, ?Htext, ?Hparse; cbn [negb].


(** X19. The headers object of the purge payload.  When the body supplies
    no headers, or an object, the payload's headers are the supplied fields
    unchanged, together with an [origin]: the supplied [origin] field when
    the object has one, whatever its value, the empty string and [null]
    included; and the scheme and host of the purged url only when the object
    has no such field. *)
Theorem purge_payload_headers
    (req : Request) (env : Env) (body urlv : json) (urlObj : URL) (w : World) :
  accepted_purge req env body urlv urlObj ->
  headers_absent_or_object body ->
  exists c hs,
    calls w (fetch config req env) = [CallPurge c] /\
    pc_body c = JObj [("files", JArr [JObj [("url", urlv); ("headers", JObj hs)]])] /\
    JS.field "origin" hs =
      Some (match supplied_header body "origin" with
            | Some v => v
            | None => JStr (protocol urlObj +:+ "//" +:+ host urlObj)
            end) /\
    forall k, k <> "origin" -> JS.field k hs = supplied_header body k.
Proof.
  intros Hacc Hobj. enter_accepted Hacc. unfold supplied_header.
  destruct body as [| | | | |fields]; try discriminate Hv.
  rewrite Hzone, Hapi, Hcheck, Hv, Htruthy, Hurl. cbn [negb].
  destruct Hobj as [Hnone | (fs & Hfs & Hnd)].
  - rewrite Hnone. cbn [bind await_fetch try_catch calls call_of answer app].
    eexists. eexists. split.
    { match goal with
      | |- context [purge_api w ?c] => destruct (purge_api w c) as [reply|]
      end; cbn [bind try_catch calls]; try reflexivity;
      destruct (pr_json reply); [destruct (pr_ok reply)|]; reflexivity. }
    cbn [pc_body purge_payload JS.spread fold_left prop JS.field].
    split; [reflexivity|]. split; [reflexivity|].
    intros k Hk. cbn [JS.spread fold_left JS.field].
    now rewrite (proj2 (String.eqb_neq k "origin")).
  - rewrite Hfs. cbn [bind await_fetch try_catch calls call_of answer app].
    eexists. eexists. split.
    { match goal with
      | |- context [purge_api w ?c] => destruct (purge_api w c) as [reply|]
      end; cbn [bind try_catch calls]; try reflexivity;
      destruct (pr_json reply); [destruct (pr_ok reply)|]; reflexivity. }
    cbn [pc_body purge_payload JS.spread prop].
    split; [reflexivity|]. split.
    + rewrite (field_fold_assign fs Hnd). cbn [JS.field String.eqb Ascii.eqb Bool.eqb].
      destruct (JS.field "origin" fs) as [o|]; [|reflexivity]. reflexivity.
    + intros k Hk. rewrite (field_fold_assign fs Hnd). cbn [JS.field].
      rewrite (proj2 (String.eqb_neq k "origin")) by exact Hk.
      now destruct (JS.field k fs).
Qed.

(** X20. One request, at most one outbound call, and never one of each
    kind: in every world the entry point makes no call, or exactly one call
    to the storage origin on the proxy route, or exactly one call to the
    purge API on the purge route.  Nothing is retried. *)
Theorem fetch_makes_at_most_one_call (req : Request) (env : Env) (w : World) :
  calls w (fetch config req env) = [] \/
  (exists rq, calls w (fetch config req env) = [CallStorage rq] /\ proxied req env) \/
  (exists c, calls w (fetch config req env) = [CallPurge c] /\
             redirected req env = false /\ purge_route req = true).
Proof.
  destruct (redirected req env) eqn:Hr.
  { left. now rewrite fetch_redirected. }
  destruct (String.eqb_spec (req_method req) "OPTIONS") as [Hm | Hm].
  { left. now rewrite fetch_preflight. }
  destruct (purge_route req) eqn:Hroute.
  { rewrite fetch_purge by assumption.
    destruct (handlePurgeRequest_outcome req env w) as (_ & _ & _ & _ & _ & [Hnone | [c Hc]]).
    - now left.
    - right. right. exists c. now repeat split. }
  assert (Hp : proxied req env) by now repeat split.
  rewrite fetch_proxied, calls_proxy by assumption.
  destruct (URL_parse _) as [urlObj|]; [|now left].
  right. left. eexists. split; [reflexivity | exact Hp].
Qed.

End PurgeHandler.

Lemma purge_client_errors_come_first_witness :
  let req := Sample.request "POST" "/.purge" [("Content-Type", "Application/JSON")]
               plain_url_body in
  answers_json (fetch Sample.config req Sample.env) 400
    [("error", JStr "Invalid Content-Type. Use application/json.")].
Proof.
  intros req.
  destruct (@purge_client_errors_come_first Example.platform Sample.config req Sample.env)
    as (Hct & _ & _); [reflexivity | reflexivity |].
  apply Hct. reflexivity.
Defined.

Lemma purge_misconfiguration_answers_500_witness :
  let env := {| CF_ZONE_ID := None; CF_API_TOKEN := Some "api-token";
                CF_PURGE_TOKEN := Some "s3cret"; DISABLE_HTTPS_REDIRECT := None;
                ALLOWED_ORIGINS := None |} in
  let req := json_purge_request plain_url_body in
  fails_before_any_call (fetch Sample.config req env) 500
    "Missing CF_ZONE_ID environment variable".
Proof.
  intros env req.
  destruct (@purge_misconfiguration_answers_500 Example.platform Sample.config req env
              (JObj [("url", JStr "https://cdn.example/a.js")]))
    as (_ & Hzone & _).
  - repeat split; try reflexivity; discriminate.
  - apply Hzone; [discriminate | reflexivity].
Defined.


Lemma purge_payload_headers_witness :
  let text := "{" +:+ dq +:+ "url" +:+ dq +:+ ":" +:+ dq +:+ "https://cdn.example/a.js" +:+
              dq +:+ "," +:+ dq +:+ "headers" +:+ dq +:+ ":{" +:+ dq +:+ "origin" +:+ dq +:+
              ":null}}" in
  let req := json_purge_request text in
  exists c hs,
    calls (Sample.world 200 []) (fetch Sample.config req Sample.env) = [CallPurge c] /\
    pc_body c = JObj [("files", JArr [JObj [("url", JStr "https://cdn.example/a.js");
                                            ("headers", JObj hs)]])] /\
    JS.field "origin" hs = Some JNull.
Proof.
  intros text req.
  destruct (@purge_payload_headers Example.platform Sample.config req Sample.env
              (JObj [("url", JStr "https://cdn.example/a.js");
                     ("headers", JObj [("origin", JNull)])])
              (JStr "https://cdn.example/a.js")
              {| protocol := "https:"; host := "cdn.example"; hostname := "cdn.example";
                 pathname := "/a.js"; search := EmptyString |} (Sample.world 200 []))
    as (c & hs & Hcalls & Hbody & Horigin & _).
  - split.
    + repeat split; try reflexivity; try discriminate.
      exists "application/json". split; reflexivity.
    + split; [|repeat split; try reflexivity; discriminate].
      apply no_purge_secret_accepts. now left.
  - right. exists [("origin", JNull)]. split; [reflexivity|].
    apply NoDup_cons_2; [apply not_elem_of_nil | apply NoDup_nil_2].
  - exists c, hs. split; [exact Hcalls|]. split; [exact Hbody | exact Horigin].
Defined.

(** ** The signer's text formats *)

Lemma hex_of_byte_lower_hex (b : byte) :
  forallb is_lower_hex (list_ascii_of_string (hex_of_byte b)) = true.
Proof. destruct b; vm_compute; reflexivity. Qed.

Lemma list_ascii_of_string_append (a b : string) :
  list_ascii_of_string (a +:+ b) = list_ascii_of_string a ++ list_ascii_of_string b.
Proof.
  induction a as [|c a IH]; push_append; cbn [list_ascii_of_string app]; [reflexivity|].
  now rewrite IH.
Qed.

(** X21. The hexadecimal text of a buffer: two characters per byte, all
    of them digits or the lower-case letters a to f, and the bytes can be
    read back from it, so that distinct buffers have distinct texts. *)
Theorem toHex_round_trip (buffer : list byte) :
  fromHex (toHex buffer) = Some buffer /\
  String.length (toHex buffer) = (2 * length buffer)%nat /\
  forallb is_lower_hex (list_ascii_of_string (toHex buffer)) = true.
Proof.
  induction buffer as [|b bs (IHr & IHl & IHc)]; [repeat split|].
  cbn [toHex]. split; [|split].
  - unfold hex_of_byte at 1. push_append. cbn [fromHex].
    change (String ?hi (String ?lo EmptyString)) with (hex_of_byte b).
    now rewrite byte_of_hex_of_byte, IHr.
  - rewrite append_length, hex_of_byte_length, IHl. cbn [length]. lia.
  - rewrite list_ascii_of_string_append, forallb_app, hex_of_byte_lower_hex, IHc.
    reflexivity.
Qed.

Lemma delete_step_keep (c : ascii) (fuel : nat) (b : bool) (s : string) :
  Ascii.eqb c ":" || Ascii.eqb c "-" || Ascii.eqb c "." = false ->
  delete_all_from (S fuel) iso_punctuation_pattern b (String c s) =
  String c (delete_all_from fuel iso_punctuation_pattern false s).
Proof.
  intros Hc. destruct c as [[] [] [] [] [] [] [] []]; try discriminate Hc; reflexivity.
Qed.

Lemma digit_is_kept (c : ascii) :
  in_range c ("0"%char, "9"%char) = true ->
  Ascii.eqb c ":" || Ascii.eqb c "-" || Ascii.eqb c "." = false.
Proof.
  intros Hc. destruct c as [[] [] [] [] [] [] [] []]; try discriminate Hc; reflexivity.
Qed.

Lemma delete_step_digit (c : ascii) (fuel : nat) (b : bool) (s : string) :
  in_range c ("0"%char, "9"%char) = true ->
  delete_all_from (S fuel) iso_punctuation_pattern b (String c s) =
  String c (delete_all_from fuel iso_punctuation_pattern false s).
Proof. intros Hc. apply delete_step_keep. now apply digit_is_kept. Qed.

Lemma delete_step_punctuation (c : ascii) (fuel : nat) (b : bool) (s : string) :
  c = ":"%char \/ c = "-"%char ->
  delete_all_from (S fuel) iso_punctuation_pattern b (String c s) =
  delete_all_from fuel iso_punctuation_pattern false s.
Proof.
  intros [-> | ->]; cbn [delete_all_from];
    unfold match_here, iso_punctuation_pattern; cbn [matcher];
    rewrite char_matcher_cons; cbn [existsb xorb orb];
    repeat match goal with
           | |- context [in_range ?c ?rg] =>
               let v := eval vm_compute in (in_range c rg) in
               change (in_range c rg) with v
           end;
    cbn [existsb xorb orb rest];
    now rewrite (proj2 (Nat.ltb_lt _ _)) by (cbn [String.length]; lia).
Qed.

Lemma delete_step_millis (d1 d2 d3 : ascii) (fuel : nat) (b : bool) (s : string) :
  in_range d1 ("0"%char, "9"%char) = true ->
  in_range d2 ("0"%char, "9"%char) = true ->
  in_range d3 ("0"%char, "9"%char) = true ->
  delete_all_from (S fuel) iso_punctuation_pattern b
    (String "." (String d1 (String d2 (String d3 s)))) =
  delete_all_from fuel iso_punctuation_pattern false s.
Proof.
  intros H1 H2 H3. cbn [delete_all_from].
  unfold match_here, iso_punctuation_pattern, digit_set. cbn [matcher].
  rewrite !char_matcher_cons. cbn [existsb xorb orb].
  repeat match goal with
         | |- context [in_range "."%char ?rg] =>
             let v := eval vm_compute in (in_range "."%char rg) in
             change (in_range "."%char rg) with v
         end.
  cbn [existsb xorb orb Ascii.eqb Bool.eqb].
  rewrite H1, H2, H3. cbn [orb rest].
  now rewrite (proj2 (Nat.ltb_lt _ _)) by (cbn [String.length]; lia).
Qed.

Lemma digits_2 (s : string) :
  digits 2 s ->
  exists a b, s = String a (String b EmptyString) /\
              in_range a ("0"%char, "9"%char) = true /\
              in_range b ("0"%char, "9"%char) = true.
Proof.
  intros [Hlen Hd]. destruct s as [|a [|b [|c s]]]; try discriminate Hlen.
  cbn [list_ascii_of_string forallb] in Hd.
  apply andb_prop in Hd as [Ha Hd]. apply andb_prop in Hd as [Hb _].
  now exists a, b.
Qed.

Lemma digits_3 (s : string) :
  digits 3 s ->
  exists a b c, s = String a (String b (String c EmptyString)) /\
                in_range a ("0"%char, "9"%char) = true /\
                in_range b ("0"%char, "9"%char) = true /\
                in_range c ("0"%char, "9"%char) = true.
Proof.
  intros [Hlen Hd]. destruct s as [|a [|b [|c [|d s]]]]; try discriminate Hlen.
  cbn [list_ascii_of_string forallb] in Hd.
  apply andb_prop in Hd as [Ha Hd]. apply andb_prop in Hd as [Hb Hd].
  apply andb_prop in Hd as [Hc _].
  now exists a, b, c.
Qed.

Lemma digits_4 (s : string) :
  digits 4 s ->
  exists a b c d, s = String a (String b (String c (String d EmptyString))) /\
                  in_range a ("0"%char, "9"%char) = true /\
                  in_range b ("0"%char, "9"%char) = true /\
                  in_range c ("0"%char, "9"%char) = true /\
                  in_range d ("0"%char, "9"%char) = true.
Proof.
  intros [Hlen Hd]. destruct s as [|a [|b [|c [|d [|e s]]]]]; try discriminate Hlen.
  cbn [list_ascii_of_string forallb] in Hd.
  apply andb_prop in Hd as [Ha Hd]. apply andb_prop in Hd as [Hb Hd].
  apply andb_prop in Hd as [Hc Hd]. apply andb_prop in Hd as [Hd' _].
  now exists a, b, c, d.
Qed.

(** The replace of the signer on an ISO timestamp. *)
Lemma delete_all_iso_timestamp (YYYY MM DD hh mm ss mmm : string) :
  digits 4 YYYY -> digits 2 MM -> digits 2 DD ->
  digits 2 hh -> digits 2 mm -> digits 2 ss -> digits 3 mmm ->
  delete_all iso_punctuation_pattern (iso_timestamp YYYY MM DD hh mm ss mmm) =
  YYYY +:+ MM +:+ DD +:+ "T" +:+ hh +:+ mm +:+ ss +:+ "Z" /\
  JSString.take 8 (YYYY +:+ MM +:+ DD +:+ "T" +:+ hh +:+ mm +:+ ss +:+ "Z") =
  YYYY +:+ MM +:+ DD.
Proof.
  intros HY HM HD Hh Hm Hs Hf.
  apply digits_4 in HY as (y1 & y2 & y3 & y4 & -> & Hy1 & Hy2 & Hy3 & Hy4).
  apply digits_2 in HM as (m1 & m2 & -> & Hm1 & Hm2).
  apply digits_2 in HD as (d1 & d2 & -> & Hd1 & Hd2).
  apply digits_2 in Hh as (h1 & h2 & -> & Hh1 & Hh2).
  apply digits_2 in Hm as (n1 & n2 & -> & Hn1 & Hn2).
  apply digits_2 in Hs as (s1 & s2 & -> & Hs1 & Hs2).
  apply digits_3 in Hf as (f1 & f2 & f3 & -> & Hf1 & Hf2 & Hf3).
  split; [|reflexivity].
  unfold delete_all, iso_timestamp. push_append. cbn [String.length].
  rewrite !delete_step_digit by assumption.
  rewrite delete_step_punctuation by tauto.
  rewrite !delete_step_digit by assumption.
  rewrite delete_step_punctuation by tauto.
  rewrite !delete_step_digit by assumption.
  rewrite delete_step_keep by reflexivity.
  rewrite !delete_step_digit by assumption.
  rewrite delete_step_punctuation by tauto.
  rewrite !delete_step_digit by assumption.
  rewrite delete_step_punctuation by tauto.
  rewrite !delete_step_digit by assumption.
  rewrite delete_step_millis by assumption.
  rewrite delete_step_keep by reflexivity.
  reflexivity.
Qed.

Section SignerFormats.

Context `{Platform}.

(** X22. The date texts of the signer.  When the clock reads an ISO
    timestamp [YYYY-MM-DDThh:mm:ss.mmmZ], the header x-amz-date is
    [YYYYMMDDThhmmssZ], and the Authorization header is the algorithm name,
    the credential [key/YYYYMMDD/region/s3/aws4_request], the three signed
    header names and a signature that is the hexadecimal text of a keyed
    digest. *)
Theorem signer_date_formats
    (YYYY MM DD hh mm ss mmm method payload : string) (urlObj : URL) (config : S3Config) :
  digits 4 YYYY -> digits 2 MM -> digits 2 DD ->
  digits 2 hh -> digits 2 mm -> digits 2 ss -> digits 3 mmm ->
  let signed := sign_at (iso_timestamp YYYY MM DD hh mm ss mmm) method urlObj payload config in
  x_amz_date signed = YYYY +:+ MM +:+ DD +:+ "T" +:+ hh +:+ mm +:+ ss +:+ "Z" /\
  exists signature : list byte,
    Authorization signed =
    "AWS4-HMAC-SHA256 Credential=" +:+ interpolate (accessKeyId config) +:+ "/" +:+
    (YYYY +:+ MM +:+ DD) +:+ "/" +:+ interpolate (region config) +:+
    "/s3/aws4_request, SignedHeaders=host;x-amz-content-sha256;x-amz-date, Signature=" +:+
    toHex signature.
Proof.
  intros HY HM HD Hh Hm Hs Hf signed. subst signed.
  destruct (delete_all_iso_timestamp HY HM HD Hh Hm Hs Hf) as [Hdate Hstamp].
  cbn [sign_at x_amz_date Authorization]. rewrite Hdate, Hstamp.
  split; [reflexivity|].
  eexists. rewrite !append_assoc. push_append. reflexivity.
Qed.

End SignerFormats.

Lemma signer_date_formats_witness :
  let urlObj := {| protocol := "https:"; host := "media.s3.eu-west-1.amazonaws.com";
                   hostname := "media.s3.eu-west-1.amazonaws.com";
                   pathname := "/video.mp4"; search := EmptyString |} in
  let signed := sign_at "2024-01-02T03:04:05.678Z" "GET" urlObj EmptyString Sample.config in
  x_amz_date signed = "20240102T030405Z" /\
  exists signature : list byte,
    Authorization signed =
    "AWS4-HMAC-SHA256 Credential=AKIDEXAMPLE/20240102/eu-west-1/s3/aws4_request, SignedHeaders=host;x-amz-content-sha256;x-amz-date, Signature=" +:+
    toHex signature.
Proof.
  intros urlObj signed.
  apply (@signer_date_formats Example.platform "2024" "01" "02" "03" "04" "05" "678"
           "GET" EmptyString urlObj Sample.config); split; reflexivity.
Defined.

(** ** The Node server *)

Lemma join_snoc_head (sep a x : string) (l : list string) :
  JS.join sep ((a +:+ sep +:+ x) :: l) = a +:+ sep +:+ JS.join sep (x :: l).
Proof. destruct l as [|y l]; cbn [JS.join]; [reflexivity|]. now rewrite !append_assoc. Qed.

Lemma fold_append_join (k : string) (values : list string) (h : gmap string string) (v : string) :
  h !! toLowerCase k = Some v ->
  fold_left (fun h v => Headers.append h k v) values h =
  <[toLowerCase k := JS.join ", " (v :: values)]> h.
Proof.
  revert h v. induction values as [|x values IH]; intros h v Hv.
  - cbn [fold_left JS.join]. symmetry. now apply insert_id.
  - cbn [fold_left]. unfold Headers.append at 2. rewrite Hv.
    rewrite IH with (v := v +:+ ", " +:+ x) by apply lookup_insert_eq.
    rewrite insert_insert_eq. now rewrite join_snoc_head.
Qed.

Lemma fold_append_fresh (k : string) (values : list string) (h : gmap string string) :
  h !! toLowerCase k = None ->
  fold_left (fun h v => Headers.append h k v) values h =
  match values with
  | [] => h
  | _ => <[toLowerCase k := JS.join ", " values]> h
  end.
Proof.
  intros Hk. destruct values as [|v values]; [reflexivity|].
  cbn [fold_left]. unfold Headers.append at 2. rewrite Hk.
  rewrite fold_append_join with (v := v) by apply lookup_insert_eq.
  now rewrite insert_insert_eq.
Qed.

Lemma node_get_not_in (k : string) (entries : list (string * node_header)) :
  ~ In k (map fst entries) -> node_get k entries = None.
Proof.
  induction entries as [|[k0 v0] entries IH]; cbn [map fst node_get In]; intros Hk;
    [reflexivity|].
  destruct (String.eqb_spec k k0) as [-> | _]; [tauto|]. apply IH. tauto.
Qed.

Lemma web_headers_lookup (entries : list (string * node_header)) :
  node_header_names entries ->
  forall (acc : gmap string string) (k : string),
    (forall k', In k' (map fst entries) -> acc !! k' = None) ->
    fold_left
      (fun headers kv =>
         match snd kv with
         | HArray values => fold_left (fun h v => Headers.append h (fst kv) v) values headers
         | HString value => if truthy value then Headers.set headers (fst kv) value else headers
         end)
      entries acc !! k =
    match node_get k entries with
    | Some v => web_header_value (Some v)
    | None => acc !! k
    end.
Proof.
  induction entries as [|[k0 v0] entries IH]; intros [Hnd Hlow] acc k Hfresh; [reflexivity|].
  cbn [map fst] in Hnd. apply NoDup_cons in Hnd as [Hk0 Hnd].
  rewrite list_elem_of_In in Hk0.
  assert (Hlow0 : toLowerCase k0 = k0) by (apply Hlow; now left).
  assert (Hacc0 : acc !! k0 = None) by (apply Hfresh; now left).
  cbn [fold_left fst snd node_get].
  set (acc' := match v0 with
               | HString value => if truthy value then Headers.set acc k0 value else acc
               | HArray values => fold_left (fun h v => Headers.append h k0 v) values acc
               end).
  assert (Hother : forall k', k' <> k0 -> acc' !! k' = acc !! k').
  { intros k' Hne. subst acc'. destruct v0 as [value | values].
    - destruct (truthy value); [|reflexivity]. unfold Headers.set.
      rewrite Hlow0. now rewrite lookup_insert_ne by congruence.
    - rewrite fold_append_fresh by now rewrite Hlow0.
      destruct values; [reflexivity|]. rewrite Hlow0.
      now rewrite lookup_insert_ne by congruence. }
  assert (Hself : acc' !! k0 = web_header_value (Some v0)).
  { subst acc'. destruct v0 as [value | values]; cbn [web_header_value].
    - destruct (truthy value); [|exact Hacc0]. unfold Headers.set.
      rewrite Hlow0. apply lookup_insert_eq.
    - rewrite fold_append_fresh by now rewrite Hlow0.
      destruct values; [exact Hacc0|]. rewrite Hlow0. apply lookup_insert_eq. }
  rewrite IH.
  - destruct (String.eqb_spec k k0) as [-> | Hne].
    + now rewrite (node_get_not_in _ _ Hk0).
    + destruct (node_get k entries); [reflexivity|]. now apply Hother.
  - split; [exact Hnd|]. intros k' Hk'. apply Hlow. now right.
  - intros k' Hk'. rewrite Hother; [apply Hfresh; now right|].
    intros ->. contradiction.
Qed.

Section ServerProperties.

Context `{Platform} `{NodePlatform}.

Variable config : S3Config.

(** X23. The headers the worker sees.  For the header entries Node
    delivers, with distinct lower-case names, the Request passed to the
    worker holds under each name, in any case: the string of the entry when
    it is not empty; the values of an array entry joined with a comma and a
    space; and nothing when the entry is absent, is the empty string or is
    an empty array. *)
Theorem node_headers_reach_the_worker (req : IncomingMessage) (webRequest : Request) :
  node_header_names (im_headers req) ->
  nodeRequestToWebRequest req = Ret webRequest ->
  forall name,
    Headers.get (req_headers webRequest) name =
    web_header_value (node_get (toLowerCase name) (im_headers req)).
Proof.
  intros Hnames Hreq name. unfold nodeRequestToWebRequest in Hreq.
  destruct (Request_new _ _) as [[parsed method]|]; [|discriminate].
  injection Hreq as <-. cbn [req_headers]. unfold Headers.get, web_headers.
  rewrite web_headers_lookup; [|exact Hnames|intros k' _; apply lookup_empty].
  destruct (node_get (toLowerCase name) (im_headers req)); [reflexivity|].
  apply lookup_empty.
Qed.

Lemma run_handleRequest (req : IncomingMessage) (env : Env) (w : World) :
  run w (handleRequest config req env) =
  match Request_new (request_protocol req +:+ "://" +:+ request_host req +:+ im_url req)
                    (im_method req) with
  | None => inl (server_error (TypeError "Failed to construct 'Request'"))
  | Some _ =>
      match nodeRequestToWebRequest req with
      | Ret webRequest =>
          match run w (fetch config webRequest env) with
          | inl webResponse => inl (webResponseToNodeResponse webResponse)
          | inr error => inl (server_error error)
          end
      | _ => inl (server_error (TypeError "Failed to construct 'Request'"))
      end
  end.
Proof.
  unfold handleRequest. rewrite run_try_catch. unfold nodeRequestToWebRequest.
  destruct (Request_new _ _) as [[parsed method]|]; [|reflexivity].
  cbn [bind]. rewrite run_bind.
  destruct (run w (fetch config _ env)); reflexivity.
Qed.

Lemma calls_handleRequest (req : IncomingMessage) (env : Env) (w : World) :
  calls w (handleRequest config req env) =
  match nodeRequestToWebRequest req with
  | Ret webRequest => calls w (fetch config webRequest env)
  | _ => []
  end.
Proof.
  unfold handleRequest. rewrite calls_try_catch. unfold nodeRequestToWebRequest.
  destruct (Request_new _ _) as [[parsed method]|]; [|reflexivity].
  cbn [bind]. rewrite calls_bind, run_bind.
  destruct (run w (fetch config _ env)); cbn [calls run]; now rewrite !app_nil_r.
Qed.

(** X24. The request handler of the server catches what the conversion
    and the worker throw: in every world and for every incoming message it
    ends with a response.  When the Request constructor throws, the answer
    is 500 with the JSON body of the catch block and no outbound call is
    made; when the worker throws, the answer is that same 500 with the
    message of the exception; otherwise the status and the body are those
    of the worker's response. *)
Theorem server_always_answers (req : IncomingMessage) (env : Env) (w : World) :
  (exists res, run w (handleRequest config req env) = inl res) /\
  (forall e, nodeRequestToWebRequest req = Throw e ->
     run w (handleRequest config req env) = inl (server_error e) /\
     calls w (handleRequest config req env) = []) /\
  (forall webRequest,
     nodeRequestToWebRequest req = Ret webRequest ->
     (forall e, run w (fetch config webRequest env) = inr e ->
        run w (handleRequest config req env) = inl (server_error e)) /\
     (forall webResponse, run w (fetch config webRequest env) = inl webResponse ->
        exists res, run w (handleRequest config req env) = inl res /\
                    statusCode res = status webResponse /\
                    sent_body res = body webResponse)).
Proof.
  split; [|split].
  - rewrite run_handleRequest. destruct (Request_new _ _); [|now eexists].
    destruct (nodeRequestToWebRequest req); try now eexists.
    destruct (run w (fetch config a env)); now eexists.
  - intros e He. rewrite run_handleRequest, calls_handleRequest, He.
    unfold nodeRequestToWebRequest in He.
    destruct (Request_new _ _) as [[parsed method]|]; [discriminate|].
    injection He as <-. split; reflexivity.
  - intros webRequest Hreq. rewrite run_handleRequest, Hreq.
    unfold nodeRequestToWebRequest in Hreq.
    destruct (Request_new _ _) as [[parsed method]|]; [|discriminate].
    split.
    + intros e ->. reflexivity.
    + intros webResponse ->. eexists. split; [reflexivity|]. split; reflexivity.
Qed.

(** X25. A failure of the storage origin reaches the client as a 500 of
    the server: when the call to storage fails on a proxied request, the
    worker throws, and the server answers 500 with the JSON error body;
    the one call to storage has been made, and it is not repeated. *)
Theorem storage_failure_is_answered_500
    (req : IncomingMessage) (webRequest : Request) (env : Env) (w : World) (urlObj : URL) :
  nodeRequestToWebRequest req = Ret webRequest ->
  proxied webRequest env ->
  URL_parse (storage_url config (req_url webRequest)) = Some urlObj ->
  storage w (storage_request config webRequest urlObj (clock w)) = None ->
  run w (handleRequest config req env) = inl (server_error (FetchFailed "fetch failed")) /\
  calls w (handleRequest config req env) =
    [CallStorage (storage_request config webRequest urlObj (clock w))].
Proof.
  intros Hreq Hp Hurl Hst. rewrite run_handleRequest, calls_handleRequest, Hreq.
  rewrite run_proxied with (urlObj := urlObj) by assumption. rewrite Hst.
  rewrite calls_proxied with (urlObj := urlObj) by assumption.
  unfold nodeRequestToWebRequest in Hreq.
  destruct (Request_new _ _) as [[parsed method]|]; [|discriminate].
  split; reflexivity.
Qed.


End ServerProperties.

Import ExampleNode.

Lemma node_headers_reach_the_worker_witness :
  let req := {| im_method := "GET"; im_url := "/video.mp4";
                im_headers := [ ("host", HString "cdn.example");
                                ("x-forwarded-proto", HString "https");
                                ("origin", HString EmptyString);
                                ("set-cookie", HArray ["a=1"; "b=2"]) ];
                im_body := EmptyString |} in
  exists webRequest,
    nodeRequestToWebRequest req = Ret webRequest /\
    Headers.get (req_headers webRequest) "Host" = Some "cdn.example" /\
    Headers.get (req_headers webRequest) "Origin" = None /\
    Headers.get (req_headers webRequest) "Set-Cookie" = Some "a=1, b=2".
Proof.
  intros req. eexists. split; [reflexivity|].
  assert (Hnames : node_header_names (im_headers req)).
  { split.
    - repeat (apply NoDup_cons_2; [rewrite list_elem_of_In; cbn; intuition discriminate|]).
      apply NoDup_nil_2.
    - intros k Hk. repeat (destruct Hk as [<- | Hk]; [reflexivity|]). destruct Hk. }
  rewrite !(@node_headers_reach_the_worker ExampleNode.node_platform req _ Hnames eq_refl).
  repeat split.
Defined.

Lemma storage_failure_is_answered_500_witness :
  let req := {| im_method := "GET"; im_url := "/video.mp4";
                im_headers := [ ("host", HString "cdn.example");
                                ("x-forwarded-proto", HString "https") ];
                im_body := EmptyString |} in
  let w := {| clock := "2024-01-02T03:04:05.678Z";
              storage := fun _ => None;
              purge_api := fun _ => None |} in
  exists rq,
    run w (handleRequest Sample.config req Sample.env) =
      inl (server_error (FetchFailed "fetch failed")) /\
    calls w (handleRequest Sample.config req Sample.env) = [CallStorage rq].
Proof.
  intros req w. eexists.
  refine (@storage_failure_is_answered_500 Example.platform ExampleNode.node_platform
            Sample.config req _ Sample.env w
            {| protocol := "https:"; host := "media.s3.eu-west-1.amazonaws.com";
               hostname := "media.s3.eu-west-1.amazonaws.com";
               pathname := "/video.mp4"; search := EmptyString |} eq_refl _ _ _).
  - repeat split; discriminate.
  - reflexivity.
  - reflexivity.
Defined.


(** ** Entries written with a leading wildcard *)

Lemma parse_wildcard_pattern (d : string) :
  plain_domain d = true ->
  parse (domain_pattern_source ("*." +:+ d)) = Parsed (wildcard_regex d).
Proof.
  intros Hplain. unfold parse, domain_pattern_source.
  change ("(^|\.)" +:+ escape_dots ("*." +:+ d) +:+ "$")
    with (String "(" (String "^" (String "|" (String "\" (String "." (String ")"
           (String "*" (String "\" (String "." (escape_dots d +:+ "$")))))))))).
  cbn [parse_loop Ascii.eqb Bool.eqb orb is_alnum quantifier_of].
  cbn -[parse_loop escape_dots String.append].
  rewrite (parse_loop_escaped_plain d Hplain).
  unfold wildcard_regex.
  destruct d; cbn; rewrite ?rev_app_distr, ?rev_involutive; reflexivity.
Qed.

Lemma dotted_ends_with (D s : string) : dotted D s = true -> ends_with s D.
Proof.
  induction s as [|c s IH]; cbn [dotted].
  - rewrite orb_false_r. intros Heq. apply String.eqb_eq in Heq. subst D.
    apply ends_with_refl.
  - intros Hd. apply orb_prop in Hd as [Heq | Hd].
    + apply String.eqb_eq in Heq. subst D. apply ends_with_refl.
    + apply andb_prop in Hd as [_ Hd]. destruct (IH Hd) as [pre ->].
      exists (String c pre). reflexivity.
Qed.

Lemma dotted_refl (D : string) : dotted D D = true.
Proof. destruct D; cbn [dotted]; now rewrite String.eqb_refl. Qed.

(** The starred prefix consumes dots only; what follows must be [.d] up to
    the end of the input. *)
Lemma wildcard_regex_match_here (d : string) :
  forall (s : string) (fuel : nat) (b : bool),
    (String.length s <= fuel)%nat ->
    repeat_matcher fuel (matcher (Alt (Seq Bol Empty) (Seq (Chr ".") Empty))) (State b s)
      (fun y => matcher (seq_of (literal_terms (String "." d) ++ [Eol])) y (fun z => Some z)) =
    if dotted (String "." d) s then Some (State false EmptyString) else None.
Proof.
  induction s as [|c s IH]; intros fuel b Hfuel.
  - cbn [dotted]. rewrite orb_false_r. cbn [String.eqb].
    destruct fuel as [|fuel]; cbn [repeat_matcher].
    + now rewrite literal_terms_matcher.
    + cbn [matcher at_start rest String.length]. rewrite char_matcher_nil.
      rewrite literal_terms_matcher. now destruct b.
  - destruct fuel as [|fuel]; [cbn in Hfuel; lia|].
    cbn [repeat_matcher matcher at_start rest]. rewrite char_matcher_cons.
    rewrite Nat.ltb_irrefl.
    replace (if b then None else None) with (@None state) by now destruct b.
    cbn [rest String.length dotted].
    rewrite (Ascii.eqb_sym c "."). destruct (Ascii.eqb "." c) eqn:Hc; cbn [andb].
    + replace (String.length s <? S (String.length s))%nat with true
        by (symmetry; apply Nat.ltb_lt; lia).
      rewrite IH by (cbn in Hfuel; lia).
      destruct (dotted (String "." d) s); [now rewrite orb_true_r|].
      rewrite orb_false_r, literal_terms_matcher.
      now destruct (String.eqb (String c s) (String "." d)).
    + rewrite orb_false_r, literal_terms_matcher.
      now destruct (String.eqb (String c s) (String "." d)).
Qed.

Lemma wildcard_match_here_is_Some (d : string) (b : bool) (s : string) :
  is_Some (match_here (wildcard_regex d) (State b s)) <-> dotted (String "." d) s = true.
Proof.
  unfold match_here, wildcard_regex. cbn [matcher rest].
  rewrite wildcard_regex_match_here by lia.
  destruct (dotted (String "." d) s); split; intros Hx; try reflexivity; try discriminate.
  - now eexists.
  - destruct Hx; discriminate.
Qed.

Lemma test_wildcard_regex (d h : string) :
  Regex.test (wildcard_regex d) h = true <-> ends_with h ("." +:+ d).
Proof.
  unfold Regex.test, exec.
  assert (Hsome : forall o : option (string * string * string),
             (match o with Some _ => true | None => false end) = true <-> is_Some o).
  { intros [x|]; split; intros Hx; try discriminate; try (eexists; reflexivity).
    destruct Hx; discriminate. }
  rewrite Hsome, exec_from_is_Some. setoid_rewrite wildcard_match_here_is_Some.
  change ("." +:+ d) with (String "." d). split.
  - intros [Hd | (pre & suf & _ & -> & Hd)].
    + now apply dotted_ends_with.
    + destruct (dotted_ends_with _ _ Hd) as [pre' ->].
      exists (pre +:+ pre'). now rewrite append_assoc.
  - intros [pre ->]. destruct pre as [|c pre].
    + left. apply dotted_refl.
    + right. exists (String c pre), (String "." d).
      repeat split; [discriminate | apply dotted_refl].
Qed.

Section WildcardEntries.

Context `{Platform}.

(** X27. An entry written with a leading wildcard, [*.d] for a plain
    domain [d], compiles: the star applies to the prefix group of the
    pattern.  The compiled pattern accepts exactly the host names that end
    with [.d], so every subdomain of [d] is allowed and [d] itself is
    not. *)
Theorem wildcard_entry_admits_subdomains_only (d h : string) :
  plain_domain d = true ->
  exists p,
    RegExp_new (domain_pattern_source ("*." +:+ d)) = Some p /\
    (RegExp_test p h = true <-> ends_with h ("." +:+ d)) /\
    RegExp_test p d = false.
Proof.
  intros Hplain. exists (Modelled (wildcard_regex d)).
  split; [unfold RegExp_new; now rewrite parse_wildcard_pattern|].
  cbn [RegExp_test]. split; [apply test_wildcard_regex|].
  apply not_true_iff_false. rewrite test_wildcard_regex. intros [pre Heq].
  apply (f_equal String.length) in Heq. rewrite !append_length in Heq.
  cbn [String.length] in Heq. lia.
Qed.

End WildcardEntries.

Lemma wildcard_entry_admits_subdomains_only_witness :
  exists p,
    RegExp_new (domain_pattern_source "*.example.com") = Some p /\
    (RegExp_test p "img.example.com" = true <->
     ends_with "img.example.com" ".example.com") /\
    RegExp_test p "example.com" = false.
Proof.
  apply (@wildcard_entry_admits_subdomains_only Example.platform "example.com"
           "img.example.com").
  reflexivity.
Defined.

(** ** The entries of the allowed-origin list *)

Lemma trimEnd_idem (s : string) : trimEnd (trimEnd s) = trimEnd s.
Proof.
  induction s as [|c r IH]; [reflexivity|].
  cbn [trimEnd]. destruct (trimEnd r) as [|c' r'] eqn:Hr.
  - destruct (is_js_space c) eqn:Hc; [reflexivity|]. cbn [trimEnd]. now rewrite Hc.
  - cbn [trimEnd]. cbn [trimEnd] in IH. now rewrite IH.
Qed.

Lemma trimStart_head (s : string) :
  match trimStart s with
  | EmptyString => True
  | String c _ => is_js_space c = false
  end.
Proof.
  induction s as [|c r IH]; [exact I|].
  cbn [trimStart]. destruct (is_js_space c) eqn:Hc; [exact IH | exact Hc].
Qed.

Lemma trimEnd_head (c : ascii) (r : string) :
  is_js_space c = false -> exists r', trimEnd (String c r) = String c r'.
Proof.
  intros Hc. cbn [trimEnd]. destruct (trimEnd r) as [|c' r'].
  - rewrite Hc. now eexists.
  - now eexists.
Qed.

Lemma trim_idem (s : string) : trim (trim s) = trim s.
Proof.
  unfold trim. pose proof (trimStart_head s) as Hhead.
  destruct (trimStart s) as [|c r]; [reflexivity|].
  destruct (trimEnd_head c r Hhead) as [r' Hr']. rewrite Hr'.
  cbn [trimStart]. rewrite Hhead, <- Hr'. apply trimEnd_idem.
Qed.

Lemma free_of_trimStart (sep : ascii) (s : string) :
  free_of sep s = true -> free_of sep (trimStart s) = true.
Proof.
  induction s as [|c r IH]; [reflexivity|].
  intros Hs. cbn [trimStart]. destruct (is_js_space c); [|exact Hs].
  cbn [free_of] in Hs. apply andb_prop in Hs as [_ Hr]. now apply IH.
Qed.

Lemma free_of_trimEnd (sep : ascii) (s : string) :
  free_of sep s = true -> free_of sep (trimEnd s) = true.
Proof.
  induction s as [|c r IH]; [reflexivity|].
  cbn [free_of]. intros Hs. apply andb_prop in Hs as [Hc Hr].
  cbn [trimEnd]. specialize (IH Hr). destruct (trimEnd r) as [|c' r'].
  - destruct (is_js_space c); [reflexivity|]. cbn [free_of]. now rewrite Hc.
  - cbn [free_of]. cbn [free_of] in IH. now rewrite Hc, IH.
Qed.

Lemma split_on_pieces (sep : ascii) (s : string) :
  forall piece, In piece (split_on sep s) -> free_of sep piece = true.
Proof.
  induction s as [|c r IH]; cbn [split_on]; intros piece Hin.
  - destruct Hin as [<- | []]. reflexivity.
  - destruct (Ascii.eqb c sep) eqn:Hc.
    + destruct Hin as [<- | Hin]; [reflexivity | now apply IH].
    + destruct (split_on sep r) as [|w ws].
      * destruct Hin as [<- | []]. cbn [free_of]. now rewrite Hc.
      * destruct Hin as [<- | Hin].
        -- cbn [free_of]. rewrite Hc. cbn [negb andb]. apply IH. now left.
        -- apply IH. now right.
Qed.

(** X28. The entries read from ALLOWED_ORIGINS are in normal form: none
    is empty, none has white space at either end, none contains a comma.
    White space around the commas and empty items of the list are thus
    ignored. *)
Theorem configured_domains_normal_form (text d : string) :
  In d (configured_domains text) ->
  d <> EmptyString /\ trim d = d /\ free_of "," d = true.
Proof.
  unfold configured_domains. intros Hin.
  apply list_elem_of_In, list_elem_of_filter in Hin as [Htruthy Hin].
  apply list_elem_of_In, in_map_iff in Hin as (piece & <- & Hpiece).
  split; [now apply truthy_true|]. split; [apply trim_idem|].
  unfold trim. apply free_of_trimEnd, free_of_trimStart.
  now apply (split_on_pieces "," text).
Qed.

Lemma configured_domains_normal_form_witness :
  In "b.org" (configured_domains " a.com ,, b.org ,") /\
  "b.org" <> EmptyString /\ trim "b.org" = "b.org" /\ free_of "," "b.org" = true.
Proof.
  assert (Hin : In "b.org" (configured_domains " a.com ,, b.org ,")).
  { right. left. reflexivity. }
  split; [exact Hin|].
  exact (@configured_domains_normal_form " a.com ,, b.org ," "b.org" Hin).
Defined.

(** ** What the signature covers *)

Section SignatureCoverage.

Context `{Platform}.

Hypothesis sha256_collision_free : forall a b, sha256_digest a = sha256_digest b -> a = b.
Hypothesis hmac_collision_free : forall k a b, hmac_sha256 k a = hmac_sha256 k b -> a = b.

(** Equal Authorization values, for one clock reading and one
    configuration, come from equal canonical requests. *)
Lemma equal_authorization_equal_canonical_request
    (now : string) (config : S3Config) (m1 m2 : string) (u1 u2 : URL) (p1 p2 : string) :
  Authorization (sign_at now m1 u1 p1 config) = Authorization (sign_at now m2 u2 p2 config) ->
  let canonical (m : string) (u : URL) (p : string) :=
    m +:+ nl +:+ pathname u +:+ nl +:+ JSString.drop 1 (search u) +:+ nl +:+
    ("host:" +:+ hostname u +:+ nl +:+ "x-amz-content-sha256:" +:+ toHex (sha256 p) +:+ nl +:+
     "x-amz-date:" +:+ delete_all iso_punctuation_pattern now +:+ nl) +:+ nl +:+
    "host;x-amz-content-sha256;x-amz-date" +:+ nl +:+ toHex (sha256 p) in
  canonical m1 u1 p1 = canonical m2 u2 p2.
Proof.
  intros Hauth canonical. subst canonical.
  pose proof (payload_hash now m1 u1 p1 config) as Hp1.
  pose proof (payload_hash now m2 u2 p2 config) as Hp2.
  cbn [sign_at x_amz_content_sha256] in Hp1, Hp2.
  cbn [sign_at Authorization] in Hauth. rewrite Hp1, Hp2 in Hauth.
  repeat apply append_inv_head in Hauth.
  apply toHex_inj in Hauth. unfold hmacSha256 in Hauth.
  apply hmac_collision_free, TextEncoder_encode_inj in Hauth.
  repeat apply append_inv_head in Hauth.
  apply toHex_inj in Hauth. unfold sha256 in Hauth.
  apply sha256_collision_free, TextEncoder_encode_inj in Hauth.
  exact Hauth.
Qed.

(** X29. With collision-free digests the signature covers the request
    line: for one clock reading, configuration and payload, two requests
    that differ in the method, or only in the path, or only in the query,
    receive different Authorization headers.  A signed request cannot be
    replayed for another object or another method. *)
Theorem signature_covers_request_line
    (now method payload : string) (urlObj : URL) (config : S3Config) :
  (forall method', method' <> method ->
     Authorization (sign_at now method' urlObj payload config) <>
     Authorization (sign_at now method urlObj payload config)) /\
  (forall path, path <> pathname urlObj ->
     Authorization (sign_at now method (with_pathname urlObj path) payload config) <>
     Authorization (sign_at now method urlObj payload config)) /\
  (forall query, JSString.drop 1 query <> JSString.drop 1 (search urlObj) ->
     Authorization (sign_at now method (with_search urlObj query) payload config) <>
     Authorization (sign_at now method urlObj payload config)).
Proof.
  split; [|split].
  - intros method' Hne Hauth. apply Hne.
    apply equal_authorization_equal_canonical_request in Hauth. cbv zeta in Hauth.
    now apply append_inv_tail in Hauth.
  - intros path Hne Hauth. apply Hne.
    apply equal_authorization_equal_canonical_request in Hauth. cbv zeta in Hauth.
    cbn [with_pathname pathname search hostname] in Hauth.
    repeat apply append_inv_head in Hauth. now apply append_inv_tail in Hauth.
  - intros query Hne Hauth. apply Hne.
    apply equal_authorization_equal_canonical_request in Hauth. cbv zeta in Hauth.
    cbn [with_search pathname search hostname] in Hauth.
    repeat apply append_inv_head in Hauth. now apply append_inv_tail in Hauth.
Qed.

End SignatureCoverage.

Lemma signature_covers_request_line_witness :
  let urlObj := {| protocol := "https:"; host := "media.s3.eu-west-1.amazonaws.com";
                   hostname := "media.s3.eu-west-1.amazonaws.com";
                   pathname := "/video.mp4"; search := EmptyString |} in
  Authorization (sign_at "2024-01-02T03:04:05.678Z" "DELETE" urlObj EmptyString Sample.config) <>
  Authorization (sign_at "2024-01-02T03:04:05.678Z" "GET" urlObj EmptyString Sample.config).
Proof.
  intros urlObj.
  destruct (@signature_covers_request_line Example.platform) with
    (now := "2024-01-02T03:04:05.678Z") (method := "GET") (payload := EmptyString)
    (urlObj := urlObj) (config := Sample.config) as (Hmethod & _ & _).
  - intros a b Heq. exact Heq.
  - intros k a b Heq. now apply app_inv_head in Heq.
  - apply Hmethod. discriminate.
Defined.

(** ** The redirect switch *)

Section RedirectSwitch.

Context `{Platform}.

Variable config : S3Config.

(** X30. The redirect switch is read for truthiness only: with
    DISABLE_HTTPS_REDIRECT set to any non-empty text, the texts [false] and
    [0] included, the scheme of the request URL plays no part at all.  The
    entry point handles the request exactly as it handles the same request
    received under any other scheme: same effects, same response. *)
Theorem redirect_switch_makes_scheme_irrelevant
    (req : Request) (env : Env) (v p : string) :
  DISABLE_HTTPS_REDIRECT env = Some v -> v <> EmptyString ->
  fetch config (with_protocol req p) env = fetch config req env.
Proof.
  intros Hflag Hv. apply truthy_true in Hv.
  unfold fetch. rewrite Hflag. cbn [truthy_opt]. rewrite Hv. cbn [negb].
  rewrite !andb_false_r. reflexivity.
Qed.

End RedirectSwitch.

Lemma redirect_switch_makes_scheme_irrelevant_witness :
  let env := {| CF_ZONE_ID := None; CF_API_TOKEN := None; CF_PURGE_TOKEN := None;
                DISABLE_HTTPS_REDIRECT := Some "false"; ALLOWED_ORIGINS := None |} in
  let req := Sample.request "GET" "/video.mp4" [] EmptyString in
  fetch Sample.config (with_protocol req "http:") env = fetch Sample.config req env.
Proof.
  intros env req.
  apply (@redirect_switch_makes_scheme_irrelevant Example.platform Sample.config req env
           "false" "http:"); [reflexivity | discriminate].
Defined.
